(** * News agent (news_agent_v2.py): classifier, store and pipelines

    A shallow embedding of [NewsAgentV2] and of the SQL statements it runs,
    with the properties of the ingestion, enrichment, search and topic
    analysis paths.

    Python [str] values are sequences of Unicode code points, taken to be
    such that UTF-8 can encode them (no lone surrogate), as every text of a
    feed, of the menu or of a request is; SQLite [REAL] values and Python
    [float]s are binary64 numbers; Python [int]s are unbounded, and SQLite
    takes those that fit 64 bits. The database is kept twice: as the
    connection of the agent sees it, and as it was committed last. *)

From Stdlib Require Import ZArith NArith QArith List String Ascii Bool Lia.
From Stdlib Require Import PrimFloat SpecFloat FloatOps DecimalString.
From Stdlib Require Import Sorting.Sorted Sorting.Permutation.
Import ListNotations.

Set Implicit Arguments.
Close Scope Q_scope.
Open Scope Z_scope.
Set Warnings "-inexact-float".

(* ================================================================== *)
(** * Python strings *)

Module Str.

(** A [str] is its list of code points: [len] counts code points, and [in]
    and slicing work on them. *)
Definition char := N.
Definition str := list char.

(** Literals are written as UTF-8 text and decoded once. *)
Fixpoint utf8_decode (bs : list N) : str :=
  match bs with
  | [] => []
  | b :: rest =>
    if (b <? 128)%N then b :: utf8_decode rest
    else if (b <? 224)%N then
      match rest with
      | c1 :: rest1 => ((b mod 32) * 64 + c1 mod 64)%N :: utf8_decode rest1
      | _ => []
      end
    else if (b <? 240)%N then
      match rest with
      | c1 :: c2 :: rest2 =>
        ((b mod 16) * 4096 + (c1 mod 64) * 64 + c2 mod 64)%N :: utf8_decode rest2
      | _ => []
      end
    else
      match rest with
      | c1 :: c2 :: c3 :: rest3 =>
        ((b mod 8) * 262144 + (c1 mod 64) * 4096 + (c2 mod 64) * 64 + c3 mod 64)%N
          :: utf8_decode rest3
      | _ => []
      end
  end.

Definition u (s : string) : str :=
  utf8_decode (map N_of_ascii (list_ascii_of_string s)).

Definition len (s : str) : Z := Z.of_nat (List.length s).

Fixpoint eqb (a b : str) : bool :=
  match a, b with
  | [], [] => true
  | x :: a', y :: b' => (x =? y)%N && eqb a' b'
  | _, _ => false
  end.

(** [s.startswith(p)] *)
Fixpoint starts_with (p s : str) : bool :=
  match p, s with
  | [], _ => true
  | x :: p', y :: s' => (x =? y)%N && starts_with p' s'
  | _ :: _, [] => false
  end.

(** [needle in hay] on strings: substring test; the empty string is in
    every string. *)
Fixpoint contains (needle hay : str) : bool :=
  starts_with needle hay ||
  match hay with
  | [] => false
  | _ :: hay' => contains needle hay'
  end.

(** [s[:n]] for an integer [n]: the first [n] code points, and for a
    negative [n] all but the last [-n]. *)
Definition slice_to {A} (n : Z) (l : list A) : list A :=
  if (n <? 0)%Z then firstn (List.length l - Z.to_nat (- n)) l
  else firstn (Z.to_nat n) l.

(** Code points for which [str.isspace] holds; [str.strip] removes them at
    both ends. *)
Definition is_space (c : char) : bool :=
  ((9 <=? c) && (c <=? 13) || (28 <=? c) && (c <=? 32)
   || (c =? 133) || (c =? 160) || (c =? 5760)
   || (8192 <=? c) && (c <=? 8202)
   || (c =? 8232) || (c =? 8233) || (c =? 8239) || (c =? 8287)
   || (c =? 12288))%N.

Fixpoint lstrip (s : str) : str :=
  match s with
  | c :: s' => if is_space c then lstrip s' else s
  | [] => []
  end.

Definition rstrip (s : str) : str := rev (lstrip (rev s)).
Definition strip (s : str) : str := rstrip (lstrip s).

(** [sep.join(items)] *)
Fixpoint join (sep : str) (items : list str) : str :=
  match items with
  | [] => []
  | [item] => item
  | item :: rest => item ++ sep ++ join sep rest
  end.

(** [s.split(sep)] for a one-character separator. *)
Fixpoint split (sep : char) (s : str) : list str :=
  match s with
  | [] => [[]]
  | c :: s' =>
    match split sep s' with
    | cur :: rest => if (c =? sep)%N then [] :: cur :: rest else (c :: cur) :: rest
    | [] => [[c]]
    end
  end.

(** [str(n)] and the [{n}] of an f-string, for an integer. *)
Definition decimal (n : Z) : str :=
  u (NilZero.string_of_int (Z.to_int n)).

Definition newline : char := 10%N.
Definition nl : str := [newline].

(** [re.sub(r'\n+', '\n', s)]: every run of line feeds becomes one. *)
Fixpoint collapse_newlines (s : str) : str :=
  match s with
  | [] => []
  | c :: s' =>
    if (c =? newline)%N && starts_with nl s' then collapse_newlines s'
    else c :: collapse_newlines s'
  end.

(** ASCII-only case folding, as SQLite's built-in [LOWER] and [LIKE] do. *)
Definition ascii_lower_char (c : char) : char :=
  if ((65 <=? c) && (c <=? 90))%N then (c + 32)%N else c.
Definition ascii_lower (s : str) : str := map ascii_lower_char s.

(** A case mapping for the Basic Latin and Cyrillic blocks, used where a
    concrete [str.lower] is needed to run an example. *)
Definition lower_char (c : char) : char :=
  if ((65 <=? c) && (c <=? 90))%N then (c + 32)%N
  else if ((1040 <=? c) && (c <=? 1071))%N then (c + 32)%N
  else if ((1024 <=? c) && (c <=? 1039))%N then (c + 80)%N
  else c.
Definition lower_latin_cyrillic (s : str) : str := map lower_char s.

(** The number of bytes of the UTF-8 encoding of a text, which is how
    SQLite holds it. *)
Definition utf8_bytes (c : char) : Z :=
  if (c <? 128)%N then 1
  else if (c <? 2048)%N then 2
  else if (c <? 65536)%N then 3
  else 4.
Definition utf8_length (s : str) : Z :=
  fold_right (fun c n => utf8_bytes c + n) 0 s.

(** A text as C code reads it: up to its first NUL character. *)
Fixpoint until_nul (s : str) : str :=
  match s with
  | [] => []
  | c :: s' => if (c =? 0)%N then [] else c :: until_nul s'
  end.

End Str.

Import Str.


(* ================================================================== *)
(** * Values shared by the store and the pipelines *)

(** [dict.get(key, default)] on a dict literal, kept as its item list. *)
Fixpoint dict_get {V} (d : list (str * V)) (key : str) (default : V) : V :=
  match d with
  | [] => default
  | (k, v) :: d' => if Str.eqb k key then v else dict_get d' key default
  end.

(** [entry.get(field, default)] on a feed entry, and [data.get]. *)
Definition get_or (field : option str) (default : str) : str :=
  match field with
  | Some v => v
  | None => default
  end.

(** [min(a, b)] of Python: [b] when [b < a], else [a]. *)
Definition py_min (a b : float) : float :=
  if (b <? a)%float then b else a.

(** What a call does: it returns a value or raises an exception, kept as
    the text [str(e)] of the exception. *)
Inductive outcome (A : Type) : Type :=
| Returned (a : A)
| Raised (message : str).
Arguments Returned {A} a.
Arguments Raised {A} message.

(** A reading of [datetime.now()]: its [isoformat()], its
    [strftime("%Y-%m-%d")], and its position on the time line in
    microseconds. *)
Record datetime := {
  isoformat : str;
  ymd : str;
  micros : Z
}.

(** An entry of a parsed feed, with the fields [collect_news] reads. *)
Record entry := {
  e_link : option str;
  e_title : option str;
  e_summary : option str;
  e_description : option str;
  e_published : option str
}.

(** ** Tables (see [_init_database]) *)

(** [news]: [id INTEGER PRIMARY KEY AUTOINCREMENT], [hash TEXT UNIQUE],
    [importance REAL]; [summary], [keywords] and [analyzed_at] stay NULL
    until the row is analysed. *)
Record news_row := {
  n_id : Z;
  n_hash : str;
  n_title : str;
  n_content : str;
  n_summary : option str;
  n_source : str;
  n_url : str;
  n_category : str;
  n_keywords : option str;
  n_importance : float;
  n_published : str;
  n_collected_at : str;
  n_analyzed_at : option str
}.

(** [analyses]: the [keywords] column holds [json.dumps] of the list and
    [sources_used] holds [str] of the count; a row keeps the list and the
    count themselves. *)
Record analysis_row := {
  a_id : Z;
  a_query : str;
  a_analysis : str;
  a_keywords : list str;
  a_sources_used : Z;
  a_created_at : str
}.

(** [stats]: [date TEXT PRIMARY KEY] and three counters, each
    [INTEGER DEFAULT 0]. *)
Record stats_row := {
  s_date : str;
  s_news_collected : Z;
  s_news_analyzed : Z;
  s_analyses_made : Z
}.

Inductive counter := NewsCollected | NewsAnalyzed | AnalysesMade.

Definition counter_of (c : counter) (r : stats_row) : Z :=
  match c with
  | NewsCollected => s_news_collected r
  | NewsAnalyzed => s_news_analyzed r
  | AnalysesMade => s_analyses_made r
  end.

(** The database file: the tables, and for each AUTOINCREMENT key the
    largest id handed out so far. *)
Record database := {
  news : list news_row;
  news_seq : Z;
  analyses : list analysis_row;
  analyses_seq : Z;
  stats : list stats_row
}.

Definition empty_database : database :=
  {| news := []; news_seq := 0; analyses := []; analyses_seq := 0; stats := [] |}.

Definition with_news (d : database) (rows : list news_row) (seq : Z) : database :=
  {| news := rows; news_seq := seq; analyses := analyses d;
     analyses_seq := analyses_seq d; stats := stats d |}.

Definition with_analyses (d : database) (rows : list analysis_row) (seq : Z)
  : database :=
  {| news := news d; news_seq := news_seq d; analyses := rows;
     analyses_seq := seq; stats := stats d |}.

Definition with_stats (d : database) (rows : list stats_row) : database :=
  {| news := news d; news_seq := news_seq d; analyses := analyses d;
     analyses_seq := analyses_seq d; stats := rows |}.

(* ================================================================== *)
(** * SQL statements of the agent *)

Module Sql.

(** [SELECT id FROM news WHERE hash = ?] followed by [fetchone()]. *)
Definition select_id_by_hash (h : str) (d : database) : option Z :=
  match find (fun r => Str.eqb (n_hash r) h) (news d) with
  | Some r => Some (n_id r)
  | None => None
  end.

(** [INSERT INTO news (hash, title, content, source, url, category,
    importance, published, collected_at) VALUES (...)]: the id is the next
    of the sequence, the columns left out are NULL, and the UNIQUE
    constraint on [hash] raises when the hash is already stored. *)
Definition insert_news (h title content source url category : str)
    (importance : float) (published collected_at : str) (d : database)
  : outcome database :=
  if existsb (fun r => Str.eqb (n_hash r) h) (news d)
  then Raised (u "UNIQUE constraint failed: news.hash")
  else
    let row := {| n_id := news_seq d + 1; n_hash := h; n_title := title;
                  n_content := content; n_summary := None; n_source := source;
                  n_url := url; n_category := category; n_keywords := None;
                  n_importance := importance; n_published := published;
                  n_collected_at := collected_at; n_analyzed_at := None |} in
    Returned (with_news d (news d ++ [row]) (news_seq d + 1)).

(** [UPDATE news SET summary = ?, keywords = ?, analyzed_at = ? WHERE id = ?]:
    every row with that id is rewritten; a statement that matches no row
    changes nothing and is no error. *)
Definition set_analysis (summary keywords analyzed_at : str) (r : news_row)
  : news_row :=
  {| n_id := n_id r; n_hash := n_hash r; n_title := n_title r;
     n_content := n_content r; n_summary := Some summary;
     n_source := n_source r; n_url := n_url r; n_category := n_category r;
     n_keywords := Some keywords; n_importance := n_importance r;
     n_published := n_published r; n_collected_at := n_collected_at r;
     n_analyzed_at := Some analyzed_at |}.

Definition set_analysis_where_id (summary keywords analyzed_at : str) (id : Z)
    (r : news_row) : news_row :=
  if n_id r =? id then set_analysis summary keywords analyzed_at r else r.

Definition update_news_analysis (summary keywords analyzed_at : str) (id : Z)
    (d : database) : outcome database :=
  Returned
    (with_news d
       (map (set_analysis_where_id summary keywords analyzed_at id) (news d))
       (news_seq d)).

(** [INSERT INTO analyses (query, analysis, keywords, sources_used,
    created_at) VALUES (...)] *)
Definition insert_analysis (query analysis : str) (keywords : list str)
    (sources_used : Z) (created_at : str) (d : database) : database :=
  let row := {| a_id := analyses_seq d + 1; a_query := query;
                a_analysis := analysis; a_keywords := keywords;
                a_sources_used := sources_used; a_created_at := created_at |} in
  with_analyses d (analyses d ++ [row]) (analyses_seq d + 1).

(** [COALESCE((SELECT <column> FROM stats WHERE date = ?), 0)] *)
Definition select_counter (c : counter) (date : str) (d : database) : Z :=
  match find (fun r => Str.eqb (s_date r) date) (stats d) with
  | Some r => counter_of c r
  | None => 0
  end.

(** [INSERT OR REPLACE INTO stats (date, <column>) VALUES (?, COALESCE(...) + ?)]:
    the row of that date, if any, is deleted, and the new row holds the
    given column; the two columns the statement does not name take their
    DEFAULT 0. *)
Definition new_stats_row (c : counter) (date : str) (value : Z) : stats_row :=
  match c with
  | NewsCollected =>
    {| s_date := date; s_news_collected := value; s_news_analyzed := 0;
       s_analyses_made := 0 |}
  | NewsAnalyzed =>
    {| s_date := date; s_news_collected := 0; s_news_analyzed := value;
       s_analyses_made := 0 |}
  | AnalysesMade =>
    {| s_date := date; s_news_collected := 0; s_news_analyzed := 0;
       s_analyses_made := value |}
  end.

Definition insert_or_replace_stats (c : counter) (date : str) (delta : Z)
    (d : database) : database :=
  let value := select_counter c date d + delta in
  with_stats d
    (filter (fun r => negb (Str.eqb (s_date r) date)) (stats d)
       ++ [new_stats_row c date value]).

(** An int bound to a parameter has to fit a 64-bit signed integer:
    [execute] raises OverflowError for any other, before the statement
    runs. *)
Definition is_int64 (n : Z) : bool := (- 2 ^ 63 <=? n) && (n <? 2 ^ 63).

Definition overflow_error : str :=
  u "Python int too large to convert to SQLite INTEGER".

(** [LIMIT ?]: the first [n] rows; a negative [n] is no limit. *)
Definition limit {A} (n : Z) (rows : list A) : list A :=
  if (n <? 0)%Z then rows else firstn (Z.to_nat n) rows.

(** The value of a REAL as a rational, for comparisons: NULL (a NaN is
    stored as NULL) is below every number, the infinities are beyond every
    binary64 number. *)
Definition real_value (x : float) : Q :=
  match Prim2SF x with
  | S754_zero _ => 0%Q
  | S754_infinity false => inject_Z (2 ^ 1024)
  | S754_infinity true => inject_Z (- 2 ^ 1024)
  | S754_nan => inject_Z (- 2 ^ 1025)
  | S754_finite s m e =>
    let mant := if s then Z.neg m else Z.pos m in
    if (0 <=? e)%Z then inject_Z (mant * 2 ^ e)
    else Qmake mant (Z.to_pos (2 ^ (- e)))
  end.

(** Comparison of TEXT values (BINARY collation): bytewise on the UTF-8
    encoding, which is the lexicographic order of the code points. *)
Fixpoint text_leb (a b : str) : bool :=
  match a, b with
  | [], _ => true
  | _ :: _, [] => false
  | x :: a', y :: b' =>
    if (x <? y)%N then true else if (y <? x)%N then false else text_leb a' b'
  end.

(** [ORDER BY importance DESC, published DESC]: [a] may stand before [b]. *)
Definition order_before (a b : news_row) : bool :=
  let va := real_value (n_importance a) in
  let vb := real_value (n_importance b) in
  match (va ?= vb)%Q with
  | Gt => true
  | Lt => false
  | Eq => text_leb (n_published b) (n_published a)
  end.

(** The sorter: rows are inserted from the end of the table, each before the
    first row it may stand before, so rows with equal keys keep their table
    order (SQLite leaves the order of such rows open). *)
Fixpoint insert_sorted (x : news_row) (sorted : list news_row) : list news_row :=
  match sorted with
  | [] => [x]
  | y :: rest =>
    if order_before x y then x :: sorted else y :: insert_sorted x rest
  end.

Definition order_by_importance_published (rows : list news_row) : list news_row :=
  fold_right insert_sorted [] rows.

(** [LOWER(X)]: ASCII letters only are mapped, in the whole of the text
    (what follows a NUL character is dropped by [LIKE], which reads C
    strings); [LOWER(NULL)] is NULL. *)
Definition LOWER (x : option str) : option str :=
  match x with
  | Some s => Some (ascii_lower s)
  | None => None
  end.

(** The comparison [LIKE] makes of two C strings: [%] stands for any
    sequence of characters, [_] for any one character, and any other
    character for itself, upper and lower case being the same for ASCII
    letters only. *)
Definition percent : char := 37%N.
Definition underscore : char := 95%N.

Fixpoint pattern_compare (pattern text : str) : bool :=
  match pattern with
  | [] => match text with [] => true | _ => false end
  | p :: pattern' =>
    if (p =? percent)%N then
      (fix skip (t : str) : bool :=
         pattern_compare pattern' t ||
         match t with
         | [] => false
         | _ :: t' => skip t'
         end) text
    else
      match text with
      | [] => false
      | c :: text' =>
        ((p =? underscore)%N || (ascii_lower_char p =? ascii_lower_char c)%N)
        && pattern_compare pattern' text'
      end
  end.

(** A pattern of more than 50000 bytes is refused
    (SQLITE_MAX_LIKE_PATTERN_LENGTH). *)
Definition like_pattern_limit : Z := 50000.

Definition pattern_error : str := u "LIKE or GLOB pattern too complex".

(** The function behind [text LIKE pattern]: it refuses a pattern that is
    too long, and else compares the pattern and the text as C strings, each
    read up to its first NUL character. *)
Definition like_match (pattern text : str) : outcome bool :=
  if like_pattern_limit <? utf8_length pattern then Raised pattern_error
  else Returned (pattern_compare (until_nul pattern) (until_nul text)).

(** [X LIKE ?] in a WHERE clause: the length of the pattern is checked
    first; the result is NULL (not true) when [X] is NULL. *)
Definition LIKE (x : option str) (pattern : str) : outcome bool :=
  match x with
  | Some s => like_match pattern s
  | None =>
    if like_pattern_limit <? utf8_length pattern then Raised pattern_error
    else Returned false
  end.

(** [A OR B], where the evaluation of either may raise. *)
Definition sql_or (a b : outcome bool) : outcome bool :=
  match a with
  | Raised e => Raised e
  | Returned x =>
    match b with
    | Raised e => Raised e
    | Returned y => Returned (x || y)
    end
  end.

(** The rows a WHERE clause keeps; an error at a row ends the statement. *)
Fixpoint where_rows (cond : news_row -> outcome bool) (rows : list news_row)
  : outcome (list news_row) :=
  match rows with
  | [] => Returned []
  | r :: rest =>
    match cond r with
    | Raised e => Raised e
    | Returned keep =>
      match where_rows cond rest with
      | Raised e => Raised e
      | Returned kept => Returned (if keep then r :: kept else kept)
      end
    end
  end.

Definition is_null {A} (x : option A) : bool :=
  match x with
  | None => true
  | Some _ => false
  end.

(** [SELECT id, title, content, source, category FROM news
    WHERE analyzed_at IS NULL ORDER BY importance DESC, published DESC LIMIT ?] *)
Definition select_unanalyzed (n : Z) (d : database) : list news_row :=
  limit n
    (order_by_importance_published
       (filter (fun r => is_null (n_analyzed_at r)) (news d))).

(** [self.cursor.execute(<that SELECT>, (limit,))] and [fetchall()]: the
    limit is bound first. *)
Definition unanalyzed (n : Z) (d : database) : outcome (list news_row) :=
  if is_int64 n then Returned (select_unanalyzed n d)
  else Raised overflow_error.

(** The WHERE clause of the search: [LOWER(title) LIKE ? OR LOWER(content)
    LIKE ? OR LOWER(category) LIKE ? OR LOWER(keywords) LIKE ?]. *)
Definition search_condition (pattern : str) (r : news_row) : outcome bool :=
  sql_or
    (sql_or
       (sql_or (LIKE (LOWER (Some (n_title r))) pattern)
          (LIKE (LOWER (Some (n_content r))) pattern))
       (LIKE (LOWER (Some (n_category r))) pattern))
    (LIKE (LOWER (n_keywords r)) pattern).

(** [SELECT title, content, summary, source, url, category, keywords,
    published FROM news WHERE ... ORDER BY importance DESC, published DESC
    LIMIT ?]: with [LIMIT 0] no row is read; else the WHERE clause is
    evaluated for every row, the rows kept are sorted, and the first [n]
    are given. *)
Definition select_search (pattern : str) (n : Z) (d : database)
  : outcome (list news_row) :=
  if n =? 0 then Returned []
  else
    match where_rows (search_condition pattern) (news d) with
    | Raised e => Raised e
    | Returned rows => Returned (limit n (order_by_importance_published rows))
    end.

(** [self.cursor.execute(<that SELECT>, (pattern, pattern, pattern, pattern,
    limit))] and [fetchall()]: the limit is bound first. *)
Definition search (pattern : str) (n : Z) (d : database)
  : outcome (list news_row) :=
  if is_int64 n then select_search pattern n d else Raised overflow_error.

End Sql.

(* ================================================================== *)
(** * The running agent: state and effects *)

(** What the outside world answers to a POST on [/api/generate]. *)
Inductive http_result :=
| HttpResponse (status_code : Z) (response : option str)
| HttpTimeout
| HttpFailure (message : str).

(** The state a method of the agent works on: the database as the
    connection [self.conn] sees it, with the writes of its open transaction;
    the database as it was committed last, which is what the file holds for
    any other connection and after the process has ended; how often the
    clock was read; and the requests sent to the language model so far, each
    with its prompt and [num_predict]. *)
Record world := {
  db : database;
  committed : database;
  clock_reads : nat;
  llm_requests : list (str * Z)
}.

Definition initial_world : world :=
  {| db := empty_database; committed := empty_database;
     clock_reads := 0%nat; llm_requests := [] |}.

Definition with_db (w : world) (d : database) : world :=
  {| db := d; committed := committed w; clock_reads := clock_reads w;
     llm_requests := llm_requests w |}.

(** A method body: it runs on a state, returns or raises, and leaves a
    state; what it wrote before raising stays in the open transaction. *)
Definition M (A : Type) : Type := world -> outcome A * world.

Definition ret {A} (a : A) : M A := fun w => (Returned a, w).

Definition bind {A B} (m : M A) (k : A -> M B) : M B :=
  fun w =>
    match m w with
    | (Returned a, w') => k a w'
    | (Raised e, w') => (Raised e, w')
    end.

Definition raise {A} (e : str) : M A := fun w => (Raised e, w).

(** [try: m  except Exception as e: handler(str(e))] *)
Definition try_except {A} (m : M A) (handler : str -> M A) : M A :=
  fun w =>
    match m w with
    | (Returned a, w') => (Returned a, w')
    | (Raised e, w') => handler e w'
    end.

Notation "x <- m ;; k" := (bind m (fun x => k))
  (at level 61, m at next level, right associativity).
Notation "m ;;; k" := (bind m (fun _ => k))
  (at level 61, right associativity).

(** [self.cursor.execute] of a SELECT, and of a statement that writes. *)
Definition query {A} (q : database -> A) : M A :=
  fun w => (Returned (q (db w)), w).

Definition execute (stmt : database -> outcome database) : M unit :=
  fun w =>
    match stmt (db w) with
    | Returned d => (Returned tt, with_db w d)
    | Raised e => (Raised e, w)
    end.

(** A SELECT that may raise, with [fetchall()]. *)
Definition fetch {A} (q : database -> outcome A) : M A :=
  fun w => (q (db w), w).

(** A statement that has no error of its own. *)
Definition write (stmt : database -> database) : M unit :=
  execute (fun d => Returned (stmt d)).

(** [self.conn.commit()]: the writes of the open transaction become the
    committed state. *)
Definition commit : M unit :=
  fun w =>
    (Returned tt,
     {| db := db w; committed := db w; clock_reads := clock_reads w;
        llm_requests := llm_requests w |}).

(** How the storage engine may fail a write or a commit: it refuses it,
    with an error, and leaves the transaction open, the writes made so far
    pending on the connection; or it fails and rolls the transaction back,
    as SQLite does on its own for some errors (a full disk, an I/O error). *)
Inductive fault :=
| Refused (e : str)
| RolledBack (e : str).

Definition fail (f : fault) : M unit :=
  fun w =>
    match f with
    | Refused e => (Raised e, w)
    | RolledBack e => (Raised e, with_db w (committed w))
    end.

(** A write, and a commit, under a storage engine that may fail it:
    [f] is the failure that takes place instead, if any. *)
Definition execute_or_fail (f : option fault) (stmt : database -> database)
  : M unit :=
  match f with
  | Some f => fail f
  | None => write stmt
  end.

Definition commit_or_fail (f : option fault) : M unit :=
  match f with
  | Some f => fail f
  | None => commit
  end.

Section Agent.

(** ** The environment of the agent *)

(** [str.lower]: the case mapping of the interpreter's Unicode database. *)
Variable lower : str -> str.

(** [hashlib.md5(text.encode()).hexdigest()] *)
Variable md5_hexdigest : str -> str.

(** The successive readings of [datetime.now()]. *)
Variable clock : nat -> datetime.

(** The answer to the n-th request sent to the model, given its prompt and
    [num_predict]. *)
Variable ollama : nat -> str -> Z -> http_result.

Definition now : M datetime :=
  fun w =>
    (Returned (clock (clock_reads w)),
     {| db := db w; committed := committed w;
        clock_reads := S (clock_reads w);
        llm_requests := llm_requests w |}).

(** ** Settings ([NewsAgentV2.__init__]) *)

Definition rss_sources : list (str * str) :=
  [ (u "https://lenta.ru/rss/news", u "Лента.ру");
    (u "https://ria.ru/export/rss2/index.xml", u "РИА Новости");
    (u "https://tass.ru/rss/v2.xml", u "ТАСС");
    (u "https://www.rbc.ru/rssfeed/newsline.rss", u "РБК") ].

(** The category table, in the order of the dict literal (the order in which
    [.items()] yields it). *)
Definition categories : list (str * list str) :=
  [ (u "технологии",
     [u "ии"; u "искусственный интеллект"; u "ai"; u "нейросеть"; u "чат";
      u "gpt"; u "программирование"; u "it"]);
    (u "политика",
     [u "путин"; u "правительство"; u "сша"; u "украин"; u "санкци";
      u "выборы"; u "политика"]);
    (u "экономика",
     [u "рубль"; u "доллар"; u "биржа"; u "инфляция"; u "экономика";
      u "рынок"; u "кризис"]);
    (u "наука",
     [u "наука"; u "открытие"; u "исследование"; u "ученые"; u "космос";
      u "медицина"]);
    (u "спорт",
     [u "спорт"; u "футбол"; u "хоккей"; u "чемпионат"; u "олимпиада"]) ].

Definition default_category : str := u "разное".

Definition _generate_hash (text : str) : str := md5_hexdigest text.

(** ** Classifier *)

(** The inner loop of [_categorize_text]: does any keyword occur in the
    lower-cased text? *)
Fixpoint any_keyword_in (keywords : list str) (text_lower : str) : bool :=
  match keywords with
  | [] => false
  | keyword :: rest =>
    if contains keyword text_lower then true else any_keyword_in rest text_lower
  end.

(** The outer loop: the first category, in table order, with a keyword that
    occurs. *)
Fixpoint first_category (table : list (str * list str)) (text_lower : str)
  : option str :=
  match table with
  | [] => None
  | (category, keywords) :: rest =>
    if any_keyword_in keywords text_lower then Some category
    else first_category rest text_lower
  end.

Definition _categorize_text (text : str) : str :=
  let text_lower := lower text in
  match first_category categories text_lower with
  | Some category => category
  | None => default_category
  end.

Definition source_weights : list (str * float) :=
  [ (u "РИА Новости", 0.8%float); (u "ТАСС", 0.8%float);
    (u "Лента.ру", 0.7%float); (u "РБК", 0.6%float) ].

Definition important_words : list str :=
  [ u "путин"; u "война"; u "кризис"; u "сша"; u "китай";
    u "прорыв"; u "революция"; u "катастрофа"; u "теракт" ].

Definition category_weights : list (str * float) :=
  [ (u "политика", 0.3%float); (u "экономика", 0.2%float);
    (u "технологии", 0.2%float); (u "наука", 0.1%float) ].

(** The loop over [important_words]: the first word found in the title adds
    0.2 and ends the loop. *)
Fixpoint add_title_bonus (words : list str) (title_lower : str) (score : float)
  : float :=
  match words with
  | [] => score
  | word :: rest =>
    if contains word title_lower then (score + 0.2)%float
    else add_title_bonus rest title_lower score
  end.

Definition _calculate_importance (title source category : str) : float :=
  let score := 0%float in
  let score := (score + dict_get source_weights source 0.5)%float in
  let title_lower := lower title in
  let score := add_title_bonus important_words title_lower score in
  let score := (score + dict_get category_weights category 0)%float in
  py_min score 1.

(** ** LLM client *)

(** [call_llm]: the request is sent; a 200 answer is stripped and its runs of
    line feeds collapsed; every failure comes back as a bracketed error
    text, never as an exception. *)
Definition call_llm (prompt : str) (max_tokens : Z) : M str :=
  fun w =>
    let sent :=
      {| db := db w; committed := committed w;
         clock_reads := clock_reads w;
         llm_requests := llm_requests w ++ [(prompt, max_tokens)] |} in
    match ollama (List.length (llm_requests w)) prompt max_tokens with
    | HttpResponse status_code response =>
      if status_code =? 200 then
        let response_text := strip (get_or response []) in
        let response_text := strip (collapse_newlines response_text) in
        (Returned response_text, sent)
      else
        let error_msg := u "Ошибка API (" ++ decimal status_code ++ u ")" in
        let error_msg :=
          if status_code =? 404 then error_msg ++ u " - Модель не найдена"
          else error_msg in
        (Returned (u "[Ошибка: " ++ error_msg ++ u "]"), sent)
    | HttpTimeout => (Returned (u "[Ошибка: Таймаут]"), sent)
    | HttpFailure e => (Returned (u "[Ошибка: " ++ e ++ u "]"), sent)
    end.

Definition summarize_text (text : str) (max_length : Z) : M str :=
  if len text <? 50 then ret text
  else
    let prompt :=
      u "Создай краткое резюме текста (1-2 предложения):" ++ nl ++ nl
      ++ u "ТЕКСТ:" ++ nl ++ slice_to 800 text ++ nl ++ nl ++ u "РЕЗЮМЕ:" in
    summary <- call_llm prompt 100 ;;
    ret (slice_to max_length summary).

(** The parsing loop of [extract_keywords]: items are stripped, and kept
    when they are non-empty and longer than one character. *)
Fixpoint parse_keywords (items : list str) : list str :=
  match items with
  | [] => []
  | item :: rest =>
    let item := strip item in
    if negb (Str.eqb item []) && (1 <? len item)
    then item :: parse_keywords rest
    else parse_keywords rest
  end.

Definition comma : char := 44%N.

Definition extract_keywords (text : str) (max_keywords : Z) : M (list str) :=
  if len text <? 20 then ret []
  else
    let prompt :=
      u "Извлеки " ++ decimal max_keywords
      ++ u " ключевых слов или фраз из текста." ++ nl
      ++ u "Верни только слова через запятую, без объяснений." ++ nl ++ nl
      ++ u "ТЕКСТ:" ++ nl ++ slice_to 500 text ++ nl ++ nl
      ++ u "КЛЮЧЕВЫЕ СЛОВА:" in
    response <- call_llm prompt 100 ;;
    ret (slice_to max_keywords (parse_keywords (split comma response))).

(** ** Ingestion: [collect_news] *)

Definition article_hash (e : entry) : str :=
  _generate_hash (get_or (e_link e) [] ++ get_or (e_title e) []).

(** The body of the loop over the entries of one feed; it returns whether a
    row was inserted. *)
Definition collect_entry (source_name : str) (e : entry) : M bool :=
  let article_hash := article_hash e in
  found <- query (Sql.select_id_by_hash article_hash) ;;
  match found with
  | Some _ => ret false
  | None =>
    let title := strip (get_or (e_title e) (u "Без заголовка")) in
    let content := strip (get_or (e_summary e) (get_or (e_description e) [])) in
    let url := get_or (e_link e) [] in
    t_default <- now ;;
    let published := get_or (e_published e) (isoformat t_default) in
    let category := _categorize_text title in
    let importance := _calculate_importance title source_name category in
    t_insert <- now ;;
    execute (Sql.insert_news article_hash title content source_name url
               category importance published (isoformat t_insert)) ;;;
    ret true
  end.

(** The loop over the entries, with the running [total_collected]; an
    exception ends the loop and leaves the count where it stands. *)
Fixpoint collect_entries (source_name : str) (entries : list entry)
    (total_collected : Z) (w : world) : outcome unit * Z * world :=
  match entries with
  | [] => (Returned tt, total_collected, w)
  | e :: rest =>
    match collect_entry source_name e w with
    | (Returned true, w') =>
      collect_entries source_name rest (total_collected + 1) w'
    | (Returned false, w') =>
      collect_entries source_name rest total_collected w'
    | (Raised message, w') => (Raised message, total_collected, w')
    end
  end.

(** One turn of the loop over the sources: [feed] is what
    [feedparser.parse] gives for a URL, the entries it parsed or the
    exception it raised. The [try] catches whatever is raised and goes on
    to the next source. *)
Definition collect_source (feed : str -> outcome (list entry))
    (limit_per_source : Z) (st : Z * world) (rss_source : str * str)
  : Z * world :=
  let '(total_collected, w) := st in
  let '(rss_url, source_name) := rss_source in
  match feed rss_url with
  | Raised _ => (total_collected, w)
  | Returned [] => (total_collected, w)
  | Returned entries =>
    let '(_, total_collected', w') :=
      collect_entries source_name (slice_to limit_per_source entries)
        total_collected w in
    (total_collected', w')
  end.

(** [collect_news] over a list of sources; it gives the [total_collected]
    it prints. *)
Definition collect_news_from (sources : list (str * str))
    (feed : str -> outcome (list entry)) (limit_per_source : Z) : M Z :=
  fun w =>
    let '(total_collected, w1) :=
      fold_left (collect_source feed limit_per_source) sources (0, w) in
    (commit ;;;
     today <- now ;;
     write (Sql.insert_or_replace_stats NewsCollected (ymd today)
              total_collected) ;;;
     commit ;;;
     ret total_collected) w1.

Definition collect_news (feed : str -> outcome (list entry))
    (limit_per_source : Z) : M Z :=
  collect_news_from rss_sources feed limit_per_source.

(** ** Enrichment: [analyze_news_articles] *)

(** The body of the loop over the selected articles. *)
Definition analyze_article (article : news_row) : M unit :=
  let article_id := n_id article in
  let title := n_title article in
  let content := n_content article in
  summary <- summarize_text (title ++ u ". " ++ content) 150 ;;
  keywords <- extract_keywords (title ++ u " " ++ content) 5 ;;
  let keywords_str := join (u ", ") keywords in
  t <- now ;;
  execute (Sql.update_news_analysis summary keywords_str (isoformat t)
             article_id).

(** The loop, with the running [analyzed_count]; an exception in one turn is
    caught and the loop goes on with the next article. *)
Fixpoint analyze_articles (articles : list news_row) (analyzed_count : Z)
    (w : world) : Z * world :=
  match articles with
  | [] => (analyzed_count, w)
  | article :: rest =>
    match analyze_article article w with
    | (Returned _, w') => analyze_articles rest (analyzed_count + 1) w'
    | (Raised _, w') => analyze_articles rest analyzed_count w'
    end
  end.

(** [analyze_news_articles]; it gives the [analyzed_count] it prints, and
    returns early, before the statistics, when nothing was selected. The
    SELECT is outside every [try]: what it raises leaves the method. *)
Definition analyze_news_articles (limit : Z) : M Z :=
  articles <- fetch (Sql.unanalyzed limit) ;;
  match articles with
  | [] => ret 0
  | _ =>
    fun w =>
      let '(analyzed_count, w1) := analyze_articles articles 0 w in
      (commit ;;;
       today <- now ;;
       write (Sql.insert_or_replace_stats NewsAnalyzed (ymd today)
                analyzed_count) ;;;
       commit ;;;
       ret analyzed_count) w1
  end.

(** ** Search: [search_news], and its caller [api_search] of app.py *)

(** The dict built for each row of the search. *)
Record news_item := {
  title : str;
  content : str;
  summary : option str;
  source : str;
  url : str;
  category : str;
  keywords : option str;
  published : str
}.

Definition item_of_row (r : news_row) : news_item :=
  {| title := n_title r; content := n_content r; summary := n_summary r;
     source := n_source r; url := n_url r; category := n_category r;
     keywords := n_keywords r; published := n_published r |}.

Definition search_pattern (query_lower : str) : str :=
  Sql.percent :: query_lower ++ [Sql.percent].

Definition search_news (query_text : str) (limit : Z) : M (list news_item) :=
  try_except
    (let query_lower := lower query_text in
     rows <- fetch (Sql.search (search_pattern query_lower) limit) ;;
     ret (map item_of_row rows))
    (fun _ => ret []).

(** [api_search]: [limit = min(int(request.args.get('limit', 20)), 50)],
    then [agent.search_news(query, limit=limit)]. *)
Definition api_search (q : str) (requested_limit : Z) : M (list news_item) :=
  let limit := Z.min requested_limit 50 in
  search_news q limit.

(** ** Topic analysis: [analyze_topic] *)

(** The dict [analyze_topic] returns: with ["success": True] the analysis
    and its figures, with ["success": False] the error text. The time taken
    is kept in microseconds (the dict holds it in seconds, rounded to two
    decimals). *)
Inductive topic_result :=
| TopicAnalysis (topic analysis : str) (keywords : list str)
    (relevant_news_count : Z) (analysis_time : Z) (timestamp : str)
| TopicFailure (topic error : str) (timestamp : str).


(** The lines of the context, for [enumerate(relevant_news[:3], 1)]. *)
Fixpoint context_lines (i : Z) (items : list news_item) : list str :=
  match items with
  | [] => []
  | item :: rest =>
    let line := decimal i ++ u ". " ++ title item ++ u " (" ++ source item ++ u ")" in
    match summary item with
    | Some (c :: text) => line :: (u "   " ++ c :: text) :: context_lines (i + 1) rest
    | _ => line :: context_lines (i + 1) rest
    end
  end.

(** [context]: empty without news, else the lines joined. *)
Definition topic_context (relevant_news : list news_item) : str :=
  match relevant_news with
  | [] => []
  | _ => join nl (context_lines 1 (slice_to 3 relevant_news))
  end.

Definition topic_prompt (topic context : str) : str :=
  u "Проведи глубокий анализ темы на основе предоставленного контекста." ++ nl
  ++ nl ++ u "ТЕМА ДЛЯ АНАЛИЗА: " ++ topic ++ nl ++ nl
  ++ u "КОНТЕКСТ ИЗ НОВОСТЕЙ:" ++ nl
  ++ match context with
     | [] => u "Нет релевантных новостей в базе"
     | _ => context
     end ++ nl ++ nl
  ++ u "СТРУКТУРА АНАЛИЗА:" ++ nl
  ++ u "1. ОСНОВНЫЕ АСПЕКТЫ ТЕМЫ" ++ nl
  ++ u "2. КЛЮЧЕВЫЕ ФАКТЫ И ТЕНДЕНЦИИ  " ++ nl
  ++ u "3. ВОЗМОЖНЫЕ ПРИЧИНЫ И СЛЕДСТВИЯ" ++ nl
  ++ u "4. ПЕРСПЕКТИВЫ И ПРОГНОЗЫ" ++ nl
  ++ u "5. ВЫВОДЫ И РЕКОМЕНДАЦИИ" ++ nl ++ nl
  ++ u "АНАЛИЗ:".

(** The three writes of [analyze_topic], in order. *)
Inductive topic_write := InsertAnalysis | UpdateStats | Commit.

(** The body of the [try]. [storage_fault] tells, for each write, how the
    storage engine fails it instead of carrying it out, if it does. *)
Definition analyze_topic_try (storage_fault : topic_write -> option fault)
    (topic : str) (start_time : datetime) : M topic_result :=
  relevant_news <- search_news topic 5 ;;
  let context := topic_context relevant_news in
  let prompt := topic_prompt topic context in
  analysis <- call_llm prompt 1000 ;;
  keywords <- extract_keywords analysis 5 ;;
  created <- now ;;
  execute_or_fail (storage_fault InsertAnalysis)
    (Sql.insert_analysis topic analysis keywords
       (Z.of_nat (List.length relevant_news)) (isoformat created)) ;;;
  today <- now ;;
  execute_or_fail (storage_fault UpdateStats)
    (Sql.insert_or_replace_stats AnalysesMade (ymd today) 1) ;;;
  commit_or_fail (storage_fault Commit) ;;;
  end_time <- now ;;
  let duration := micros end_time - micros start_time in
  ret (TopicAnalysis topic analysis keywords
         (Z.of_nat (List.length relevant_news)) duration (isoformat end_time)).

Definition analyze_topic (storage_fault : topic_write -> option fault)
    (topic : str) : M topic_result :=
  start_time <- now ;;
  try_except (analyze_topic_try storage_fault topic start_time)
    (fun e =>
       failed <- now ;;
       ret (TopicFailure topic e (isoformat failed))).

End Agent.

(* ================================================================== *)
(** * Start-up: [_check_ollama] *)

(** What the GET on [/api/tags] gives: a response, with its status and, for
    each model it lists, the ["name"] of the model if it has one; or the
    connection error, or another exception, raised in the [try]. *)
Inductive tags_result :=
| TagsResponse (status_code : Z) (models : list (option str))
| TagsConnectionError
| TagsFailure (message : str).

(** How the check ends: the agent goes on with a model name, or the process
    exits. *)
Inductive startup :=
| Proceeds (model_name : str)
| Exits (code : Z).

Section Startup.

Variable lower : str -> str.

Definition llama_family : str := u "llama3.1".

(** The loop over the names: the first of the family is taken; without one
    the name stays as it was. *)
Fixpoint first_of_family (model_names : list str) (model_name : str) : str :=
  match model_names with
  | [] => model_name
  | name :: rest =>
    if contains llama_family (lower name) then name
    else first_of_family rest model_name
  end.

Definition _check_ollama (model_name : str) (tags : tags_result) : startup :=
  match tags with
  | TagsResponse status_code models =>
    if status_code =? 200 then
      match models with
      | [] => Proceeds model_name
      | _ =>
        let model_names := map (fun m => get_or m []) models in
        if existsb (Str.eqb model_name) model_names then Proceeds model_name
        else
          let available := join (u ", ") (slice_to 3 model_names) in
          if contains llama_family (lower available)
          then Proceeds (first_of_family model_names model_name)
          else
            match model_names with
            | first :: _ => Proceeds first
            | [] => Proceeds model_name
            end
      end
    else Proceeds model_name
  | TagsConnectionError => Exits 1
  | TagsFailure _ => Exits 1
  end.

End Startup.

(* ================================================================== *)
(** * Statistics: [get_statistics] *)

Module Report.

(** A sorter for the ORDER BY clauses of the statistics: each row goes
    before the first row it may stand before, rows of equal rank keep their
    order (SQLite leaves their order open). *)
Fixpoint insert_by {A} (before : A -> A -> bool) (x : A) (sorted : list A)
  : list A :=
  match sorted with
  | [] => [x]
  | y :: rest =>
    if before x y then x :: sorted else y :: insert_by before x rest
  end.

Definition sort_by {A} (before : A -> A -> bool) (rows : list A) : list A :=
  fold_right (insert_by before) [] rows.

(** [GROUP BY category] with [COUNT( * )]: one more row for its category. *)
Fixpoint count_category (category : str) (groups : list (str * Z))
  : list (str * Z) :=
  match groups with
  | [] => [(category, 1)]
  | (c, n) :: rest =>
    if Str.eqb c category then (c, n + 1) :: rest
    else (c, n) :: count_category category rest
  end.

Definition group_by_category (rows : list news_row) : list (str * Z) :=
  fold_left (fun groups r => count_category (n_category r) groups) rows [].

(** [SELECT category, COUNT( * ) as count FROM news GROUP BY category
    ORDER BY count DESC]: the groups come in the order of their categories
    and are then put by count, the greater first. *)
Definition select_category_counts (d : database) : list (str * Z) :=
  sort_by (fun a b => snd b <=? snd a)
    (sort_by (fun a b => Sql.text_leb (fst a) (fst b))
       (group_by_category (news d))).

(** [SELECT title, source, published FROM news ORDER BY published DESC
    LIMIT 3] *)
Definition select_recent (d : database) : list news_row :=
  Sql.limit 3
    (sort_by (fun a b => Sql.text_leb (n_published b) (n_published a))
       (news d)).

(** [a / b] on two ints: the binary64 number nearest to the quotient. *)
Definition spec_of_int (n : Z) : spec_float :=
  match n with
  | Z0 => S754_zero false
  | Zpos p => S754_finite false p 0
  | Zneg p => S754_finite true p 0
  end.

Definition int_truediv (a b : Z) : float :=
  SF2Prim (SFdiv prec emax (spec_of_int a) (spec_of_int b)).

(** The integer nearest to a rational, the even one of two that are
    equally near. *)
Definition round_half_even (q : Q) : Z :=
  let n := Qnum q in
  let d := Z.pos (Qden q) in
  let below := n / d in
  match 2 * (n mod d) ?= d with
  | Lt => below
  | Gt => below + 1
  | Eq => if Z.even below then below else below + 1
  end.

(** [f"{x:.1f}"]: the decimal with one digit after the point nearest to the
    number. *)
Definition format_1f (x : float) : str :=
  match Prim2SF x with
  | S754_nan => u "nan"
  | S754_infinity s => if s then u "-inf" else u "inf"
  | S754_zero s => if s then u "-0.0" else u "0.0"
  | S754_finite s m e =>
    let magnitude :=
      if 0 <=? e then inject_Z (Z.pos m * 2 ^ e)
      else Qmake (Z.pos m) (Z.to_pos (2 ^ (- e))) in
    let tenths := round_half_even (Qmult magnitude (inject_Z 10)) in
    (if s then u "-" else [])
    ++ decimal (tenths / 10) ++ u "." ++ decimal (tenths mod 10)
  end.

(** The dicts of [get_statistics]. *)
Record recent_item := {
  recent_title : str;
  recent_source : str;
  recent_published : str
}.

Record statistics := {
  total_news : Z;
  analyzed_news : Z;
  total_analyses : Z;
  analysis_coverage : str;
  categories_count : list (str * Z)
}.

(** A number that is an int or a float, as ["database_size_mb"] is. *)
Inductive number :=
| Int (n : Z)
| Float (x : float).

Record report := {
  report_status : str;
  report_model : str;
  report_statistics : statistics;
  recent_news : list recent_item;
  database_size_mb : number;
  report_timestamp : str
}.

Definition recent_of_row (r : news_row) : recent_item :=
  {| recent_title :=
       if 50 <? len (n_title r) then slice_to 50 (n_title r) ++ u "..."
       else n_title r;
     recent_source := n_source r;
     recent_published :=
       match n_published r with
       | [] => u "N/A"
       | _ => slice_to 10 (n_published r)
       end |}.

End Report.

Section Statistics.

Variable clock : nat -> datetime.

(** [get_statistics], for the model name of the agent and the size of the
    database file in bytes, if the file exists ([os.path.getsize]). Its
    statements read the tables and have no error of their own, so the
    [except] branch, with its error dict, is not taken. *)
Definition get_statistics (model_name : str) (db_file_size : option Z)
  : M Report.report :=
  total_news <- query (fun d => Z.of_nat (List.length (news d))) ;;
  analyzed_news <-
    query (fun d =>
             Z.of_nat
               (List.length
                  (filter (fun r => negb (Sql.is_null (n_analyzed_at r)))
                          (news d)))) ;;
  total_analyses <- query (fun d => Z.of_nat (List.length (analyses d))) ;;
  categories <- query Report.select_category_counts ;;
  recent <- query Report.select_recent ;;
  let recent_news := map Report.recent_of_row recent in
  t <- now clock ;;
  ret {| Report.report_status := u "ready";
         Report.report_model := model_name;
         Report.report_statistics :=
           {| Report.total_news := total_news;
              Report.analyzed_news := analyzed_news;
              Report.total_analyses := total_analyses;
              Report.analysis_coverage :=
                if 0 <? total_news
                then Report.format_1f
                       (Report.int_truediv analyzed_news total_news * 100)%float
                     ++ u "%"
                else u "0%";
              Report.categories_count := categories |};
         Report.recent_news := recent_news;
         Report.database_size_mb :=
           match db_file_size with
           | Some size => Report.Float (Report.int_truediv size (1024 * 1024))
           | None => Report.Int 0
           end;
         Report.report_timestamp := isoformat t |}.

End Statistics.

(* ================================================================== *)
(** * The web layer (app.py): what [api_search] makes of the results *)

Module Web.

(** A value of a dict: None, a str, an int or a float. *)
Inductive value :=
| VNone
| VStr (s : str)
| VInt (n : Z)
| VFloat (x : float).

(** [not v] *)
Definition falsy (v : value) : bool :=
  match v with
  | VNone => true
  | VStr [] => true
  | VStr (_ :: _) => false
  | VInt n => n =? 0
  | VFloat x => (x =? 0)%float
  end.

(** The name of the type of a value, as the messages of errors give it. *)
Definition type_name (v : value) : str :=
  match v with
  | VNone => u "NoneType"
  | VStr _ => u "str"
  | VInt _ => u "int"
  | VFloat _ => u "float"
  end.

(** [get_category_color] *)
Definition colors : list (str * str) :=
  [ (u "технологии", u "primary"); (u "политика", u "danger");
    (u "экономика", u "warning"); (u "наука", u "info");
    (u "спорт", u "success") ].

(** The loop over the keys of [colors]: the colour of the first key that
    occurs in the category. *)
Fixpoint first_color (table : list (str * str)) (category_lower : str) : str :=
  match table with
  | [] => u "secondary"
  | (key, color) :: rest =>
    if contains key category_lower then color
    else first_color rest category_lower
  end.

Definition get_category_color (lower : str -> str) (category : value)
  : outcome str :=
  if falsy category then Returned (u "secondary")
  else
    match category with
    | VStr category =>
      let category_lower := strip (lower category) in
      Returned (first_color colors category_lower)
    | _ =>
      Raised (u "'" ++ type_name category
              ++ u "' object has no attribute 'lower'")
    end.

(** The badges; [quote] is the double quote of their HTML attributes. *)
Definition quote : str := [34%N].

Definition badge (class label : str) : str :=
  u "<span class=" ++ quote ++ class ++ quote ++ u ">" ++ label ++ u "</span>".

Definition badge_high : str := badge (u "badge bg-danger") (u "🔥 Высокая").
Definition badge_medium : str := badge (u "badge bg-warning") (u "⚠️ Средняя").
Definition badge_low : str := badge (u "badge bg-secondary") (u "📰 Низкая").

(** [importance >= t] for a float [t] strictly between 0 and 1: a float is
    compared as such, an int by its value, which is at least [t] from 1 on;
    a str cannot be compared with a float. *)
Definition at_least (importance : value) (t : float) : outcome bool :=
  match importance with
  | VFloat x => Returned (t <=? x)%float
  | VInt n => Returned (1 <=? n)
  | _ =>
    Raised (u "'>=' not supported between instances of '"
            ++ type_name importance ++ u "' and 'float'")
  end.

(** [get_importance_badge] *)
Definition get_importance_badge (importance : value) : outcome str :=
  let importance :=
    match importance with
    | VNone => VFloat 0.5
    | _ => importance
    end in
  match at_least importance 0.8 with
  | Raised e => Raised e
  | Returned true => Returned badge_high
  | Returned false =>
    match at_least importance 0.6 with
    | Raised e => Raised e
    | Returned true => Returned badge_medium
    | Returned false => Returned badge_low
    end
  end.

(** The dict [search_news] builds for a result, key by key. *)
Definition of_text (t : option str) : value :=
  match t with
  | Some s => VStr s
  | None => VNone
  end.

Definition news_dict (item : news_item) : list (str * value) :=
  [ (u "title", VStr (title item));
    (u "content", VStr (content item));
    (u "summary", of_text (summary item));
    (u "source", VStr (source item));
    (u "url", VStr (url item));
    (u "category", VStr (category item));
    (u "keywords", of_text (keywords item));
    (u "published", VStr (published item)) ].

(** The dict [api_search] builds for a result. *)
Record formatted_news := {
  f_id : value;
  f_title : value;
  f_content : value;
  f_summary : value;
  f_source : value;
  f_url : value;
  f_category : value;
  f_category_color : str;
  f_published : str;
  f_importance : value;
  f_importance_badge : str
}.

(** The JSON answer of [api_search] with an agent: ["success": True] with
    the query, the results and their count, or ["success": False] with the
    error. *)
Inductive search_answer :=
| SearchResults (query : str) (results : list formatted_news) (count : Z)
| SearchError (error : str).

End Web.

Section WebSearch.

Variable lower : str -> str.

(** [format_datetime] of app.py, which rests on [datetime.strptime]; it
    raises nothing. *)
Variable format_datetime : Web.value -> str.

(** The dict display of the loop: of its calls, [get_category_color] comes
    first and [get_importance_badge] last. *)
Definition format_news (news : list (str * Web.value))
  : outcome Web.formatted_news :=
  match Web.get_category_color lower
          (dict_get news (u "category") (Web.VStr (u "разное"))) with
  | Raised e => Raised e
  | Returned category_color =>
    let published :=
      format_datetime (dict_get news (u "published") (Web.VStr [])) in
    match Web.get_importance_badge
            (dict_get news (u "importance") (Web.VFloat 0.5)) with
    | Raised e => Raised e
    | Returned importance_badge =>
      Returned
        {| Web.f_id := dict_get news (u "id") (Web.VInt 0);
           Web.f_title := dict_get news (u "title") (Web.VStr []);
           Web.f_content := dict_get news (u "content") (Web.VStr []);
           Web.f_summary := dict_get news (u "summary") (Web.VStr []);
           Web.f_source := dict_get news (u "source") (Web.VStr []);
           Web.f_url := dict_get news (u "url") (Web.VStr (u "#"));
           Web.f_category :=
             dict_get news (u "category") (Web.VStr (u "разное"));
           Web.f_category_color := category_color;
           Web.f_published := published;
           Web.f_importance := dict_get news (u "importance") (Web.VFloat 0.5);
           Web.f_importance_badge := importance_badge |}
    end
  end.

(** The loop over the results. *)
Fixpoint format_all (results : list (list (str * Web.value)))
  : outcome (list Web.formatted_news) :=
  match results with
  | [] => Returned []
  | news :: rest =>
    match format_news news with
    | Raised e => Raised e
    | Returned formatted_news =>
      match format_all rest with
      | Raised e => Raised e
      | Returned formatted_results =>
        Returned (formatted_news :: formatted_results)
      end
    end
  end.

(** [api_search] with an agent, from the call of [search_news] on. *)
Definition api_search_results (q : str) (requested_limit : Z)
  : M Web.search_answer :=
  try_except
    (results <- api_search lower q requested_limit ;;
     match format_all (map Web.news_dict results) with
     | Raised e => raise e
     | Returned formatted_results =>
       ret (Web.SearchResults q formatted_results
              (Z.of_nat (List.length formatted_results)))
     end)
    (fun e => ret (Web.SearchError e)).

End WebSearch.

(* ================================================================== *)
(** * What the properties speak of *)

(** The order of [ORDER BY importance DESC, published DESC], spelled out:
    a greater importance first, and among equal importances the greater
    [published] text first. *)
Definition importance_then_published_desc (a b : news_row) : Prop :=
  (Sql.real_value (n_importance b) < Sql.real_value (n_importance a))%Q
  \/ ((Sql.real_value (n_importance a) == Sql.real_value (n_importance b))%Q
      /\ Sql.text_leb (n_published b) (n_published a) = true).

(** The constraints of the [news] table: the primary key and the UNIQUE
    hash, and ids handed out by the sequence. *)
Definition news_constraints (d : database) : Prop :=
  NoDup (map n_id (news d))
  /\ NoDup (map n_hash (news d))
  /\ Forall (fun id => id <= news_seq d) (map n_id (news d)).

(** A float within [0.0, 1.0]. *)
Definition in_unit_interval (x : float) : Prop :=
  (0 <=? x)%float = true /\ (x <=? 1)%float = true.

(** A clock and a hash to run examples with. *)
Definition example_clock (n : nat) : datetime :=
  {| isoformat := u "2024-05-01T10:00:00." ++ decimal (Z.of_nat n);
     ymd := u "2024-05-01";
     micros := Z.of_nat n |}.

Definition example_hash (text : str) : str := text.

(** A hash is stored when some row of [news] carries it. *)
Definition stored (h : str) (d : database) : Prop :=
  In h (map n_hash (news d)).

(** The UPDATEs of one enrichment run, applied to the table one after the
    other; each is given by its summary, keywords, time and id. *)
Fixpoint apply_updates (updates : list (str * str * str * Z))
    (rows : list news_row) : list news_row :=
  match updates with
  | [] => rows
  | (summary, keywords, analyzed_at, id) :: rest =>
    apply_updates rest
      (map (Sql.set_analysis_where_id summary keywords analyzed_at id) rows)
  end.

(** The entries of a source that [collect_news] goes through: the first
    [limit_per_source] of the feed that was parsed. *)
Definition entries_read (feed : str -> outcome (list entry))
    (limit_per_source : Z) (rss_source : str * str) (e : entry) : Prop :=
  exists entries,
    feed (fst rss_source) = Returned entries
    /\ In e (slice_to limit_per_source entries).


(** The text of the error of a failure. *)
Definition message (f : fault) : str :=
  match f with
  | Refused e => e
  | RolledBack e => e
  end.

(** The connection's view after a failure: as it was, with the writes made
    so far, or the committed state when the transaction was rolled back. *)
Definition after_fault (f : fault) (pending committed_state : database)
  : database :=
  match f with
  | Refused _ => pending
  | RolledBack _ => committed_state
  end.

(** The rows a SELECT gave, none when it raised. *)
Definition rows_or_none {A} (o : outcome (list A)) : list A :=
  match o with
  | Returned rows => rows
  | Raised _ => []
  end.

(** A text without a NUL character. *)
Definition nul_free (s : str) : bool := forallb (fun c => negb (c =? 0)%N) s.

(** A text without the wildcards of LIKE. *)
Definition wildcard_free (s : str) : bool :=
  forallb (fun c => negb ((c =? Sql.percent)%N || (c =? Sql.underscore)%N)) s.

Section Matching.

Variable lower : str -> str.

(** An article matches a query when its title, content, category or
    keywords contain the query as a substring, whatever the case of the
    letters: both sides are compared in lower case. *)
Definition matches_query (query_text : str) (r : news_row) : bool :=
  let q := lower query_text in
  contains q (lower (n_title r))
  || contains q (lower (n_content r))
  || contains q (lower (n_category r))
  || match n_keywords r with
     | Some k => contains q (lower k)
     | None => false
     end.

(** What the WHERE clause of the search gives for a row, when the pattern
    is not too long. *)
Definition pattern_matches (pattern : str) (r : news_row) : bool :=
  let matches field :=
    Sql.pattern_compare (until_nul pattern) (until_nul (ascii_lower field)) in
  matches (n_title r) || matches (n_content r) || matches (n_category r)
  || match n_keywords r with
     | Some k => matches k
     | None => false
     end.

(** What the comparison of SQLite sees of a text: its part up to the first
    NUL, with the ASCII letters in lower case. *)
Definition sql_folded (s : str) : str := ascii_lower (until_nul s).

(** An article matches a query as the SELECT decides it: the lower-cased
    query occurs in the title, the content, the category or the keywords,
    where only ASCII letters count as the same in both cases. *)
Definition like_matches (query_text : str) (r : news_row) : bool :=
  let q := ascii_lower (lower query_text) in
  contains q (sql_folded (n_title r))
  || contains q (sql_folded (n_content r))
  || contains q (sql_folded (n_category r))
  || match n_keywords r with
     | Some k => contains q (sql_folded k)
     | None => false
     end.

(** A text whose only letters with an upper-case form are ASCII letters:
    lower-casing it changes ASCII letters only. *)
Definition ascii_cased (s : str) : Prop := lower s = ascii_lower s.

Definition row_ascii_cased (r : news_row) : Prop :=
  ascii_cased (n_title r) /\ ascii_cased (n_content r)
  /\ ascii_cased (n_category r)
  /\ forall k, n_keywords r = Some k -> ascii_cased k.

Definition row_nul_free (r : news_row) : Prop :=
  nul_free (n_title r) = true /\ nul_free (n_content r) = true
  /\ nul_free (n_category r) = true
  /\ forall k, n_keywords r = Some k -> nul_free k = true.

End Matching.

(** The worlds the agent can be in: it starts on an empty database, and
    each run of a pipeline that returns leads to the next. *)
Section Runs.

Variable lower : str -> str.
Variable md5_hexdigest : str -> str.
Variable clock : nat -> datetime.
Variable ollama : nat -> str -> Z -> http_result.

Inductive reachable : world -> Prop :=
| reachable_initial : reachable initial_world
| reachable_collect w sources feed limit n w' :
    reachable w ->
    collect_news_from lower md5_hexdigest clock sources feed limit w
    = (Returned n, w') ->
    reachable w'
| reachable_enrich w limit n w' :
    reachable w ->
    analyze_news_articles clock ollama limit w = (Returned n, w') ->
    reachable w'
| reachable_topic w storage_fault topic r w' :
    reachable w ->
    analyze_topic lower clock ollama storage_fault topic w = (Returned r, w') ->
    reachable w'.

End Runs.

(** Rows, a database and a feed to run examples with. *)
Definition example_row (id : Z) (title : str) (importance : float)
    (published : str) (analyzed_at : option str) : news_row :=
  {| n_id := id; n_hash := title; n_title := title;
     n_content := u "текст новости"; n_summary := analyzed_at;
     n_source := u "ТАСС"; n_url := u "https://tass.ru/1";
     n_category := u "разное"; n_keywords := analyzed_at;
     n_importance := importance; n_published := published;
     n_collected_at := u "2024-05-01T09:00:00"; n_analyzed_at := analyzed_at |}.

Definition example_database (rows : list news_row) (counters : list stats_row)
  : database :=
  {| news := rows; news_seq := Z.of_nat (List.length rows); analyses := [];
     analyses_seq := 0; stats := counters |}.

Definition example_world (d : database) : world :=
  {| db := d; committed := d; clock_reads := 0%nat; llm_requests := [] |}.

Definition example_entry (link title : str) : entry :=
  {| e_link := Some link; e_title := Some title; e_summary := Some title;
     e_description := None; e_published := Some (u "Wed, 01 May 2024") |}.

(** A model that is never reached in time. *)
Definition example_ollama (n : nat) (prompt : str) (max_tokens : Z)
  : http_result := HttpTimeout.

(** Sixty stored articles, titled a1 to a60. *)
Definition sixty_rows : list news_row :=
  map (fun i => example_row (Z.of_nat i) (u "a" ++ decimal (Z.of_nat i))
                  0.5%float (u "2024-05-01") None)
      (seq 1 60).

(** Feeds in which the first source cannot be parsed and the third has one
    entry. *)
Definition example_feed (rss_url : str) : outcome (list entry) :=
  if Str.eqb rss_url (u "https://lenta.ru/rss/news")
  then Raised (u "not well-formed (invalid token)")
  else if Str.eqb rss_url (u "https://tass.ru/rss/v2.xml")
  then Returned [example_entry (u "https://tass.ru/1") (u "Новость дня")]
  else Returned [].

(** The texts [call_llm] gives for a request that failed: bracketed, and
    opening with the word for error. *)
Definition is_error_text (text : str) : bool :=
  starts_with (u "[Ошибка: ") text && starts_with (u "]") (rev text).

(** A text that begins or ends with a whitespace character. *)
Definition space_at_ends (t : str) : bool :=
  match t with
  | c :: _ => is_space c
  | [] => false
  end
  || match rev t with
     | c :: _ => is_space c
     | [] => false
     end.

(** A text with two line feeds in a row. *)
Definition has_blank_line (t : str) : bool := contains [newline; newline] t.

(** A model that answers every request with the same text. *)
Definition example_answer : str :=
  u "  ИИ, рынок , , я,нейросеть,космос, выборы, футбол" ++ nl ++ nl ++ nl
  ++ u "конец  ".

Definition answering_ollama (n : nat) (prompt : str) (max_tokens : Z)
  : http_result := HttpResponse 200 (Some example_answer).

(** A text of sixty characters. *)
Definition sixty_characters : str := repeat 1072%N 60.

Definition counter_eqb (a b : counter) : bool :=
  match a, b with
  | NewsCollected, NewsCollected
  | NewsAnalyzed, NewsAnalyzed
  | AnalysesMade, AnalysesMade => true
  | _, _ => false
  end.

Section RowsOfTheAgent.

Variable lower : str -> str.

(** What holds of a row the agent wrote: its category and importance are
    those the classifier gives for its title and source, its title and
    content are stripped, and its summary, keywords and time of analysis
    are NULL together or set together. *)
Definition row_well_formed (r : news_row) : Prop :=
  n_category r = _categorize_text lower (n_title r)
  /\ n_importance r
     = _calculate_importance lower (n_title r) (n_source r) (n_category r)
  /\ space_at_ends (n_title r) = false
  /\ space_at_ends (n_content r) = false
  /\ ((n_summary r = None /\ n_keywords r = None /\ n_analyzed_at r = None)
      \/ exists summary keywords analyzed_at,
           n_summary r = Some summary /\ n_keywords r = Some keywords
           /\ n_analyzed_at r = Some analyzed_at).

End RowsOfTheAgent.

(** The text that stands for the context when the search finds nothing. *)
Definition no_news_marker : str := u "Нет релевантных новостей в базе".

(** The counts of the groups, added up, and the rows of a category,
    counted. *)
Definition sum_of_counts (groups : list (str * Z)) : Z :=
  fold_right Z.add 0 (map snd groups).

Definition rows_of_category (c : str) (rows : list news_row) : Z :=
  Z.of_nat
    (List.length (filter (fun row => Str.eqb (n_category row) c) rows)).

(* ================================================================== *)
(** * Strings *)

Lemma str_eqb_spec (a b : str) : reflect (a = b) (Str.eqb a b).
Proof.
  revert b; induction a as [|x a IH]; intros [|y b]; simpl;
    try (constructor; congruence).
  destruct (N.eqb_spec x y) as [->|Hne]; simpl.
  - destruct (IH b) as [->|Hne]; constructor; congruence.
  - constructor; congruence.
Qed.

Lemma str_eqb_refl (a : str) : Str.eqb a a = true.
Proof. destruct (str_eqb_spec a a); congruence. Qed.

Lemma str_eqb_eq (a b : str) : Str.eqb a b = true <-> a = b.
Proof. destruct (str_eqb_spec a b); split; congruence. Qed.

Lemma str_eqb_neq (a b : str) : Str.eqb a b = false <-> a <> b.
Proof. destruct (str_eqb_spec a b); split; congruence. Qed.

(* ================================================================== *)
(** * Classifier *)

Section Classifier.

Variable lower : str -> str.

Lemma any_keyword_in_existsb (keywords : list str) (text_lower : str) :
  any_keyword_in keywords text_lower
  = existsb (fun keyword => contains keyword text_lower) keywords.
Proof.
  induction keywords as [|k ks IH]; simpl; [reflexivity|].
  rewrite IH. destruct (contains k text_lower); reflexivity.
Qed.

(** The outer loop stops at the first category whose keywords hit, and
    finds none when no category hits. *)
Lemma first_category_split (table : list (str * list str)) (text_lower : str) :
  (first_category table text_lower = None
   /\ forallb (fun ck : str * list str => negb (any_keyword_in (snd ck) text_lower)) table = true)
  \/ exists before category keywords after,
       table = before ++ (category, keywords) :: after
       /\ forallb (fun ck : str * list str => negb (any_keyword_in (snd ck) text_lower)) before
          = true
       /\ any_keyword_in keywords text_lower = true
       /\ first_category table text_lower = Some category.
Proof.
  induction table as [|[c kws] rest IH]; simpl.
  - left; split; reflexivity.
  - destruct (any_keyword_in kws text_lower) eqn:Hk.
    + right. exists [], c, kws, rest. simpl. repeat split; assumption.
    + destruct IH as [[Hnone Hall]|(before & c' & kws' & after & Ht & Hb & Hh & Hf)].
      * left. split; assumption.
      * right. exists ((c, kws) :: before), c', kws', after.
        subst rest. simpl. rewrite Hk. simpl. repeat split; assumption.
Qed.

(** C6. [_categorize_text] depends on its text only, through its lower-cased
    form: either no keyword of any category occurs in the lower-cased text
    and the result is the default category "разное", or the result is the
    first category of the table, in table order, one of whose keywords
    occurs in it as a substring (no category before it has such a keyword).
    Two texts with the same lower-cased form, and so two calls on the same
    text, get the same category. *)
Theorem categorize_first_match_or_default (text : str) :
  let occurs := fun keyword => contains keyword (lower text) in
  ((forallb (fun ck : str * list str => negb (existsb occurs (snd ck))) categories = true
    /\ _categorize_text lower text = default_category)
   \/ exists before category keywords after,
        categories = before ++ (category, keywords) :: after
        /\ forallb (fun ck : str * list str => negb (existsb occurs (snd ck))) before = true
        /\ existsb occurs keywords = true
        /\ _categorize_text lower text = category)
  /\ forall text', lower text' = lower text ->
       _categorize_text lower text' = _categorize_text lower text.
Proof.
  intro occurs. split.
  - unfold _categorize_text.
    assert (Hext : forall l,
      forallb (fun ck : str * list str => negb (any_keyword_in (snd ck) (lower text))) l
      = forallb (fun ck : str * list str => negb (existsb occurs (snd ck))) l).
    { intro l. induction l as [|ck l IHl]; simpl; [reflexivity|].
      now rewrite IHl, any_keyword_in_existsb. }
    destruct (first_category_split categories (lower text))
      as [[Hnone Hall]|(before & c & kws & after & Ht & Hb & Hh & Hf)].
    + left. rewrite Hnone. split; [|reflexivity]. now rewrite <- Hext.
    + right. exists before, c, kws, after. rewrite Hf.
      repeat split; try assumption.
      * now rewrite <- Hext.
      * rewrite any_keyword_in_existsb in Hh. exact Hh.
  - intros text' Heq. unfold _categorize_text. now rewrite Heq.
Qed.

Lemma add_title_bonus_existsb (words : list str) (title_lower : str)
    (score : float) :
  add_title_bonus words title_lower score
  = if existsb (fun word => contains word title_lower) words
    then (score + 0.2)%float else score.
Proof.
  induction words as [|w ws IH]; simpl; [reflexivity|].
  destruct (contains w title_lower); simpl; [reflexivity|apply IH].
Qed.

Lemma dict_get_cases {V} (d : list (str * V)) (key : str) (default : V) :
  In (dict_get d key default) (default :: map snd d).
Proof.
  induction d as [|[k v] d IH]; simpl; [now left|].
  destruct (Str.eqb k key); [right; now left|].
  destruct IH as [IH|IH]; [now left|right; now right].
Qed.

(** C5. [_calculate_importance] is the sum, in this order, of the weight of
    the source (0.5 for a source not in the table), of 0.2 when some
    high-impact word occurs in the lower-cased title (once, however many
    occur), and of the weight of the category (0 for a category not in the
    table), cut down to 1.0 when it exceeds it; the result is a binary64
    number within [0.0, 1.0]. *)
Theorem importance_additive_and_clamped (title source category : str) :
  let base := dict_get source_weights source 0.5%float in
  let bonus := existsb (fun word => contains word (lower title)) important_words in
  let weight := dict_get category_weights category 0%float in
  _calculate_importance lower title source category
  = py_min (if bonus then (0 + base + 0.2 + weight)%float
            else (0 + base + weight)%float) 1%float
  /\ in_unit_interval (_calculate_importance lower title source category).
Proof.
  intros base bonus weight.
  assert (Heq : _calculate_importance lower title source category
    = py_min (if bonus then (0 + base + 0.2 + weight)%float
              else (0 + base + weight)%float) 1%float).
  { unfold _calculate_importance. rewrite add_title_bonus_existsb.
    fold base. fold bonus. fold weight. destruct bonus; reflexivity. }
  split; [exact Heq|]. rewrite Heq.
  pose proof (dict_get_cases source_weights source 0.5%float) as Hb.
  pose proof (dict_get_cases category_weights category 0%float) as Hw.
  fold base in Hb. fold weight in Hw.
  cbv [source_weights category_weights map snd In] in Hb, Hw.
  clearbody base weight. clear Heq.
  destruct bonus;
    repeat (destruct Hb as [Hb|Hb]; [|try contradiction]);
    repeat (destruct Hw as [Hw|Hw]; [|try contradiction]);
    subst base weight; split; vm_compute; reflexivity.
Qed.

End Classifier.

(* ================================================================== *)
(** * Effects of the client and of the statements *)

Lemma with_news_same (d : database) : with_news d (news d) (news_seq d) = d.
Proof. destruct d; reflexivity. Qed.

Lemma with_db_same (w : world) : with_db w (db w) = w.
Proof. destruct w; reflexivity. Qed.

Section Effects.

Variable lower : str -> str.
Variable md5_hexdigest : str -> str.
Variable clock : nat -> datetime.
Variable ollama : nat -> str -> Z -> http_result.

(** [call_llm] always returns, and touches neither the database nor the
    clock. *)
Lemma call_llm_returns (prompt : str) (max_tokens : Z) (w : world) :
  exists text w',
    call_llm ollama prompt max_tokens w = (Returned text, w')
    /\ db w' = db w /\ clock_reads w' = clock_reads w.
Proof.
  unfold call_llm.
  destruct (ollama (List.length (llm_requests w)) prompt max_tokens)
    as [code response| |message].
  - destruct (code =? 200); eexists; eexists; repeat split.
  - eexists; eexists; repeat split.
  - eexists; eexists; repeat split.
Qed.

Lemma summarize_text_returns (text : str) (max_length : Z) (w : world) :
  exists summary w',
    summarize_text ollama text max_length w = (Returned summary, w')
    /\ db w' = db w /\ clock_reads w' = clock_reads w.
Proof.
  unfold summarize_text. destruct (len text <? 50).
  - exists text, w. repeat split.
  - unfold bind.
    match goal with |- context [call_llm ollama ?p ?n w] =>
      destruct (call_llm_returns p n w) as (t & w' & -> & Hd & Hc) end.
    eexists; eexists; repeat split; assumption.
Qed.

Lemma extract_keywords_returns (text : str) (max_keywords : Z) (w : world) :
  exists keywords w',
    extract_keywords ollama text max_keywords w = (Returned keywords, w')
    /\ db w' = db w /\ clock_reads w' = clock_reads w.
Proof.
  unfold extract_keywords. destruct (len text <? 20).
  - exists [], w. repeat split.
  - unfold bind.
    match goal with |- context [call_llm ollama ?p ?n w] =>
      destruct (call_llm_returns p n w) as (t & w' & -> & Hd & Hc) end.
    eexists; eexists; repeat split; assumption.
Qed.

(** One turn of the enrichment loop: it returns, and its only write is the
    UPDATE for the id of the article. *)
Lemma analyze_article_effect (article : news_row) (w : world) :
  exists summary keywords analyzed_at w',
    analyze_article clock ollama article w = (Returned tt, w')
    /\ fst (summarize_text ollama
               (n_title article ++ u ". " ++ n_content article) 150 w)
       = Returned summary
    /\ db w'
       = with_news (db w)
           (map (Sql.set_analysis_where_id summary keywords analyzed_at
                   (n_id article)) (news (db w)))
           (news_seq (db w)).
Proof.
  unfold analyze_article, bind.
  destruct (summarize_text_returns
              (n_title article ++ u ". " ++ n_content article) 150 w)
    as (summary & w1 & Hs & Hd1 & Hc1).
  rewrite Hs.
  destruct (extract_keywords_returns
              (n_title article ++ u " " ++ n_content article) 5 w1)
    as (keywords & w2 & Hk & Hd2 & Hc2).
  rewrite Hk. unfold now, execute, Sql.update_news_analysis. simpl.
  exists summary, (join (u ", ") keywords),
    (isoformat (clock (clock_reads w2))).
  eexists. split; [reflexivity|]. split; [reflexivity|].
  simpl. rewrite Hd2, Hd1. reflexivity.
Qed.

(** None of them commits or rolls back. *)
Lemma call_llm_committed (prompt : str) (max_tokens : Z) (w : world) :
  committed (snd (call_llm ollama prompt max_tokens w)) = committed w.
Proof.
  unfold call_llm.
  destruct (ollama (List.length (llm_requests w)) prompt max_tokens)
    as [code response| |e]; [destruct (code =? 200)|..]; reflexivity.
Qed.

Lemma summarize_text_committed (text : str) (max_length : Z) (w : world) :
  committed (snd (summarize_text ollama text max_length w)) = committed w.
Proof.
  unfold summarize_text. destruct (len text <? 50); [reflexivity|].
  unfold bind.
  match goal with |- context [call_llm ollama ?p ?n w] =>
    pose proof (call_llm_committed p n w) as Hc;
    destruct (call_llm_returns p n w) as (t & w' & Hrun & _) end.
  rewrite Hrun in Hc |- *. exact Hc.
Qed.

Lemma extract_keywords_committed (text : str) (max_keywords : Z) (w : world) :
  committed (snd (extract_keywords ollama text max_keywords w)) = committed w.
Proof.
  unfold extract_keywords. destruct (len text <? 20); [reflexivity|].
  unfold bind.
  match goal with |- context [call_llm ollama ?p ?n w] =>
    pose proof (call_llm_committed p n w) as Hc;
    destruct (call_llm_returns p n w) as (t & w' & Hrun & _) end.
  rewrite Hrun in Hc |- *. exact Hc.
Qed.

Lemma analyze_article_committed (article : news_row) (w : world) :
  committed (snd (analyze_article clock ollama article w)) = committed w.
Proof.
  unfold analyze_article, bind.
  match goal with |- context [summarize_text ollama ?t ?n w] =>
    pose proof (summarize_text_committed t n w) as Hc1;
    destruct (summarize_text_returns t n w) as (summary & w1 & Hs & _) end.
  rewrite Hs in Hc1 |- *. cbn [snd] in Hc1.
  match goal with |- context [extract_keywords ollama ?t ?n w1] =>
    pose proof (extract_keywords_committed t n w1) as Hc2;
    destruct (extract_keywords_returns t n w1) as (keywords & w2 & Hk & _) end.
  rewrite Hk in Hc2 |- *. cbn [snd] in Hc2.
  unfold now, execute, Sql.update_news_analysis. cbn.
  now rewrite Hc2.
Qed.

End Effects.

(* ================================================================== *)
(** * Summaries, the UPDATE of an analysed row, and the daily counters *)

Section Enrichment.

Variable clock : nat -> datetime.
Variable ollama : nat -> str -> Z -> http_result.

(** C10. For a text of fewer than 50 characters, [summarize_text] returns
    the text itself and leaves the state as it was, so no request was sent
    to the model; and then the turn of the enrichment loop for an article
    whose "title. content" is that text stores the text itself as the
    summary of the row. *)
Theorem summarize_short_text_unchanged (text : str) (max_length : Z)
    (w : world) :
  len text < 50 ->
  summarize_text ollama text max_length w = (Returned text, w)
  /\ forall article,
       n_title article ++ u ". " ++ n_content article = text ->
       exists keywords analyzed_at w',
         analyze_article clock ollama article w = (Returned tt, w')
         /\ news (db w')
            = map (Sql.set_analysis_where_id text keywords analyzed_at
                     (n_id article)) (news (db w)).
Proof.
  intro Hshort.
  assert (Hs : forall m, summarize_text ollama text m w = (Returned text, w)).
  { intro m. unfold summarize_text.
    apply Z.ltb_lt in Hshort. rewrite Hshort. reflexivity. }
  split; [apply Hs|].
  intros article Htext.
  destruct (analyze_article_effect clock ollama article w)
    as (summary & keywords & analyzed_at & w' & Hrun & Hsum & Hdb).
  rewrite Htext, Hs in Hsum. simpl in Hsum.
  injection Hsum as <-.
  exists keywords, analyzed_at, w'. split; [exact Hrun|].
  rewrite Hdb. reflexivity.
Qed.

End Enrichment.

Lemma summarize_short_text_unchanged_witness :
  let text := u "Курс рубля. Рубль вырос" in
  let article :=
    {| n_id := 1; n_hash := u "h"; n_title := u "Курс рубля";
       n_content := u "Рубль вырос"; n_summary := None; n_source := u "РБК";
       n_url := u "https://www.rbc.ru/1"; n_category := u "экономика";
       n_keywords := None; n_importance := 0.8%float;
       n_published := u "Wed, 01 May 2024";
       n_collected_at := u "2024-05-01T09:00:00"; n_analyzed_at := None |} in
  let w := example_world (example_database [article] []) in
  len text < 50
  /\ summarize_text example_ollama text 150 w = (Returned text, w).
Proof.
  intros text article w.
  split; [vm_compute; reflexivity|].
  apply (summarize_short_text_unchanged example_clock example_ollama text 150 w).
  vm_compute; reflexivity.
Defined.

(** The UPDATE leaves alone every row whose id is another one. *)
Lemma update_rows_absent_id (summary keywords analyzed_at : str) (id : Z)
    (rows : list news_row) :
  (forall r, In r rows -> n_id r <> id) ->
  map (Sql.set_analysis_where_id summary keywords analyzed_at id) rows = rows.
Proof.
  induction rows as [|r rows IH]; intro Habs; simpl; [reflexivity|].
  rewrite IH by (intros r' Hr'; apply Habs; now right).
  unfold Sql.set_analysis_where_id.
  destruct (Z.eqb_spec (n_id r) id) as [Heq|_]; [|reflexivity].
  exfalso. apply (Habs r); [now left|exact Heq].
Qed.

Lemma no_row_of_absent_id (id : Z) (rows : list news_row) :
  ~ In id (map n_id rows) ->
  filter (fun r => (n_id r =? id)%Z) rows = [].
Proof.
  induction rows as [|r rows IH]; simpl; intro Hnotin; [reflexivity|].
  destruct (Z.eqb_spec (n_id r) id) as [Heq|_].
  - exfalso. apply Hnotin. now left.
  - apply IH. intro Hin. apply Hnotin. now right.
Qed.

Lemma unique_id_matches_once (id : Z) (rows : list news_row) :
  NoDup (map n_id rows) ->
  (List.length (filter (fun r => (n_id r =? id)%Z) rows) <= 1)%nat.
Proof.
  induction rows as [|r rows IH]; simpl; intro Hnd; [lia|].
  inversion Hnd as [|x l Hnotin Hnd']; subst.
  destruct (Z.eqb_spec (n_id r) id) as [Heq|Hne]; [|now apply IH].
  simpl. rewrite no_row_of_absent_id; [simpl; lia|].
  now rewrite <- Heq.
Qed.

(** C8 (as the code has it). The UPDATE of an analysed article never raises.
    It rewrites, in place, the rows whose id is the given one and no other
    row: when no row has that id the database is left as it was and nothing
    is reported, and under the primary key at most one row has it; the
    other tables are not touched. *)
Theorem update_news_analysis_by_id (summary keywords analyzed_at : str)
    (id : Z) (d : database) :
  exists d',
    Sql.update_news_analysis summary keywords analyzed_at id d = Returned d'
    /\ List.length (news d') = List.length (news d)
    /\ (forall i r, nth_error (news d) i = Some r ->
          nth_error (news d') i
          = Some (if n_id r =? id
                  then Sql.set_analysis summary keywords analyzed_at r
                  else r))
    /\ ((forall r, In r (news d) -> n_id r <> id) -> d' = d)
    /\ (NoDup (map n_id (news d)) ->
        (List.length (filter (fun r => (n_id r =? id)%Z) (news d)) <= 1)%nat)
    /\ analyses d' = analyses d /\ stats d' = stats d.
Proof.
  eexists. split; [reflexivity|]. simpl.
  split; [apply length_map|].
  split.
  { intros i r Hi. rewrite nth_error_map, Hi. reflexivity. }
  split.
  { intro Habs. rewrite update_rows_absent_id by exact Habs.
    apply with_news_same. }
  split; [apply unique_id_matches_once|].
  split; reflexivity.
Qed.

Lemma update_news_analysis_by_id_witness :
  let rows := [ example_row 1 (u "Первая") 0.8%float (u "2024-05-01") None;
                example_row 2 (u "Вторая") 0.7%float (u "2024-05-02") None ] in
  let d := example_database rows [] in
  NoDup (map n_id (news d))
  /\ exists d',
       Sql.update_news_analysis (u "Резюме") (u "слово") (u "2024-05-03") 2 d
       = Returned d'
       /\ map n_analyzed_at (news d') = [None; Some (u "2024-05-03")].
Proof.
  intros rows d.
  assert (Hnd : NoDup (map n_id (news d))).
  { repeat constructor; simpl; intuition discriminate. }
  split; [exact Hnd|].
  destruct (update_news_analysis_by_id (u "Резюме") (u "слово")
              (u "2024-05-03") 2 d)
    as (d' & Hrun & _ & _ & _ & Honce & _).
  pose proof (Honce Hnd) as _.
  exists d'. split; [exact Hrun|].
  injection Hrun as <-. vm_compute. reflexivity.
Defined.

(** C8 (the claim as stated fails). With one stored article, of id 1, the
    UPDATE for the id 2 finds no row, and it returns normally, with the
    database unchanged: no error tells the caller that the id is absent. *)
Lemma update_of_absent_id_raises_nothing :
  let d := example_database
             [example_row 1 (u "Первая") 0.8%float (u "2024-05-01") None] [] in
  (forall r, In r (news d) -> n_id r <> 2)
  /\ Sql.update_news_analysis (u "Резюме") (u "слово") (u "2024-05-03") 2 d
     = Returned d
  /\ forall e,
       Sql.update_news_analysis (u "Резюме") (u "слово") (u "2024-05-03") 2 d
       <> Raised e.
Proof.
  intro d. split; [|split].
  - intros r [<-|[]]. simpl. discriminate.
  - vm_compute. reflexivity.
  - intros e. discriminate.
Qed.

Lemma new_stats_row_date (c : counter) (date : str) (value : Z) :
  s_date (Sql.new_stats_row c date value) = date.
Proof. destruct c; reflexivity. Qed.

Lemma find_after_delete (date : str) (row : stats_row) (rows : list stats_row) :
  s_date row = date ->
  find (fun r => Str.eqb (s_date r) date)
    (filter (fun r => negb (Str.eqb (s_date r) date)) rows ++ [row])
  = Some row.
Proof.
  intro Hdate. induction rows as [|r rows IH]; simpl.
  - now rewrite Hdate, str_eqb_refl.
  - destruct (Str.eqb (s_date r) date) eqn:Hr; simpl; [exact IH|].
    now rewrite Hr.
Qed.

(** What the counter statement does to the row of its date: the named
    counter becomes its old value (0 without a row) plus the delta, and the
    two other counters of that date become 0. *)
Lemma insert_or_replace_stats_counters (c c' : counter) (date : str)
    (delta : Z) (d : database) :
  Sql.select_counter c' date (Sql.insert_or_replace_stats c date delta d)
  = if match c, c' with
       | NewsCollected, NewsCollected | NewsAnalyzed, NewsAnalyzed
       | AnalysesMade, AnalysesMade => true
       | _, _ => false
       end
    then Sql.select_counter c date d + delta else 0.
Proof.
  unfold Sql.insert_or_replace_stats, Sql.select_counter at 1. simpl.
  rewrite find_after_delete by apply new_stats_row_date.
  destruct c, c'; reflexivity.
Qed.

(** C2 (the code at the failing input). On 2024-05-01 two articles were
    analysed and one topic analysis was made; a [collect_news] run of the
    same day that stores one new article leaves the row of that day with
    [news_collected = 1] and with [news_analyzed] and [analyses_made] back
    at 0: INSERT OR REPLACE writes a new row, and the columns it does not
    name take their default. *)
Theorem collect_news_resets_other_counters :
  let day := u "2024-05-01" in
  let before :=
    example_world
      (example_database []
         [ {| s_date := day; s_news_collected := 0; s_news_analyzed := 2;
              s_analyses_made := 1 |} ]) in
  let feed := fun rss_url : str =>
    if Str.eqb rss_url (u "https://tass.ru/rss/v2.xml")
    then Returned [example_entry (u "https://tass.ru/1") (u "Новость дня")]
    else Returned [] in
  exists after,
    collect_news lower_latin_cyrillic example_hash example_clock feed 3 before
    = (Returned 1, after)
    /\ stats (db after)
       = [ {| s_date := day; s_news_collected := 1; s_news_analyzed := 0;
              s_analyses_made := 0 |} ].
Proof.
  eexists. split; vm_compute; reflexivity.
Qed.

(* ================================================================== *)
(** * ORDER BY and LIMIT *)

Lemma text_leb_total (a b : str) :
  Sql.text_leb a b = false -> Sql.text_leb b a = true.
Proof.
  revert b; induction a as [|x a IH]; intros [|y b]; simpl; try congruence.
  destruct (N.ltb_spec x y) as [Hxy|Hxy]; [congruence|].
  destruct (N.ltb_spec y x) as [Hyx|Hyx]; [reflexivity|].
  apply IH.
Qed.

Lemma text_leb_trans (a b c : str) :
  Sql.text_leb a b = true -> Sql.text_leb b c = true -> Sql.text_leb a c = true.
Proof.
  revert b c; induction a as [|x a IH]; intros [|y b] [|z c]; simpl;
    try congruence.
  destruct (N.ltb_spec x y) as [Hxy|Hxy];
    destruct (N.ltb_spec y z) as [Hyz|Hyz];
    destruct (N.ltb_spec x z) as [Hxz|Hxz]; try reflexivity; try lia.
  - destruct (N.ltb_spec z y); [congruence|lia].
  - destruct (N.ltb_spec y x); [congruence|lia].
  - destruct (N.ltb_spec y x) as [|Hyx]; [congruence|].
    destruct (N.ltb_spec z y) as [|Hzy]; [congruence|].
    destruct (N.ltb_spec z x) as [|Hzx]; [lia|].
    apply IH.
Qed.

(** The comparison the sorter uses is the order of the ORDER BY clause. *)
Lemma order_before_iff (a b : news_row) :
  Sql.order_before a b = true <-> importance_then_published_desc a b.
Proof.
  unfold Sql.order_before, importance_then_published_desc.
  destruct (Sql.real_value (n_importance a) ?= Sql.real_value (n_importance b))%Q
    eqn:Hc.
  - apply Qeq_alt in Hc. split.
    + intro Ht. right. split; assumption.
    + intros [Hlt|[_ Ht]]; [|exact Ht].
      rewrite Hc in Hlt. exfalso. exact (Qlt_irrefl _ Hlt).
  - apply Qlt_alt in Hc. split; [discriminate|].
    intros [Hlt|[Heq _]].
    + exfalso. exact (Qlt_irrefl _ (Qlt_trans _ _ _ Hc Hlt)).
    + rewrite Heq in Hc. exfalso. exact (Qlt_irrefl _ Hc).
  - apply Qgt_alt in Hc. split; [|reflexivity]. intros _. left. exact Hc.
Qed.

Lemma order_before_total (a b : news_row) :
  Sql.order_before a b = false -> Sql.order_before b a = true.
Proof.
  unfold Sql.order_before.
  rewrite <- (Qcompare_antisym (Sql.real_value (n_importance a))
                (Sql.real_value (n_importance b))).
  destruct (Sql.real_value (n_importance a) ?= Sql.real_value (n_importance b))%Q;
    simpl; try congruence.
  apply text_leb_total.
Qed.

Lemma importance_then_published_desc_trans (a b c : news_row) :
  importance_then_published_desc a b ->
  importance_then_published_desc b c ->
  importance_then_published_desc a c.
Proof.
  unfold importance_then_published_desc.
  intros [Hab|[Hab Tab]] [Hbc|[Hbc Tbc]].
  - left. exact (Qlt_trans _ _ _ Hbc Hab).
  - left. rewrite <- Hbc. exact Hab.
  - left. rewrite Hab. exact Hbc.
  - right. split.
    + rewrite Hab. exact Hbc.
    + exact (text_leb_trans _ _ _ Tbc Tab).
Qed.

Lemma insert_sorted_perm (x : news_row) (rows : list news_row) :
  Permutation (Sql.insert_sorted x rows) (x :: rows).
Proof.
  induction rows as [|y rows IH]; simpl; [reflexivity|].
  destruct (Sql.order_before x y); [reflexivity|].
  rewrite IH. apply perm_swap.
Qed.

Lemma order_by_perm (rows : list news_row) :
  Permutation (Sql.order_by_importance_published rows) rows.
Proof.
  induction rows as [|x rows IH]; simpl; [reflexivity|].
  rewrite insert_sorted_perm. now constructor.
Qed.

Lemma insert_sorted_sorted (x : news_row) (rows : list news_row) :
  StronglySorted importance_then_published_desc rows ->
  StronglySorted importance_then_published_desc (Sql.insert_sorted x rows).
Proof.
  induction rows as [|y rows IH]; simpl; intro Hs.
  - constructor; constructor.
  - inversion Hs as [|y' rows' Hrest Hall]; subst.
    destruct (Sql.order_before x y) eqn:Hxy.
    + apply order_before_iff in Hxy.
      constructor; [exact Hs|]. constructor; [exact Hxy|].
      eapply Forall_impl; [|exact Hall].
      intros z Hyz. exact (importance_then_published_desc_trans Hxy Hyz).
    + apply order_before_total, order_before_iff in Hxy.
      constructor; [apply IH; exact Hrest|].
      apply Forall_forall. intros z Hz.
      apply (Permutation_in _ (insert_sorted_perm x rows)) in Hz.
      destruct Hz as [<-|Hz]; [exact Hxy|].
      rewrite Forall_forall in Hall. now apply Hall.
Qed.

Lemma order_by_sorted (rows : list news_row) :
  StronglySorted importance_then_published_desc
    (Sql.order_by_importance_published rows).
Proof.
  induction rows as [|x rows IH]; simpl; [constructor|].
  now apply insert_sorted_sorted.
Qed.

Lemma strongly_sorted_firstn {A} (R : A -> A -> Prop) (n : nat) (l : list A) :
  StronglySorted R l -> StronglySorted R (firstn n l).
Proof.
  revert l; induction n as [|n IH]; intros [|x l] Hs; simpl;
    try constructor.
  - inversion Hs; subst. now apply IH.
  - inversion Hs as [|x' l' _ Hall]; subst.
    apply Forall_forall. intros y Hy.
    rewrite Forall_forall in Hall. apply Hall.
    rewrite <- (firstn_skipn n l). apply in_or_app. now left.
Qed.

(** LIMIT keeps a prefix, of at most [n] rows for [n >= 0], and the whole
    when there are no more than [n] rows or [n] is negative. *)
Lemma limit_prefix {A} (n : Z) (rows : list A) :
  exists rest, rows = Sql.limit n rows ++ rest.
Proof.
  unfold Sql.limit. destruct (n <? 0).
  - exists []. now rewrite app_nil_r.
  - exists (skipn (Z.to_nat n) rows). now rewrite firstn_skipn.
Qed.

Lemma limit_length {A} (n : Z) (rows : list A) :
  0 <= n -> Z.of_nat (List.length (Sql.limit n rows)) <= n.
Proof.
  intro Hn. unfold Sql.limit.
  destruct (Z.ltb_spec n 0) as [Hneg|_]; [lia|].
  rewrite length_firstn. lia.
Qed.

Lemma limit_all {A} (n : Z) (rows : list A) :
  n < 0 \/ Z.of_nat (List.length rows) <= n -> Sql.limit n rows = rows.
Proof.
  intro H. unfold Sql.limit.
  destruct (Z.ltb_spec n 0) as [Hneg|Hpos]; [reflexivity|].
  apply firstn_all2. lia.
Qed.

Lemma limit_sorted {A} (R : A -> A -> Prop) (n : Z) (rows : list A) :
  StronglySorted R rows -> StronglySorted R (Sql.limit n rows).
Proof.
  intro Hs. unfold Sql.limit. destruct (n <? 0); [exact Hs|].
  now apply strongly_sorted_firstn.
Qed.

Lemma limit_incl {A} (n : Z) (rows : list A) (x : A) :
  In x (Sql.limit n rows) -> In x rows.
Proof.
  destruct (limit_prefix n rows) as [rest Hrest].
  intro Hin. rewrite Hrest. apply in_or_app. now left.
Qed.

(** The cut of LIMIT on sorted rows: what is taken and what is left. *)
Lemma limit_cut {A} (R : A -> A -> Prop) (n : Z) (sorted : list A) :
  StronglySorted R sorted ->
  exists cut,
    sorted = Sql.limit n sorted ++ cut
    /\ (0 <= n ->
        Z.of_nat (List.length (Sql.limit n sorted))
        = Z.min n (Z.of_nat (List.length sorted)))
    /\ (forall r r', In r (Sql.limit n sorted) -> In r' cut -> R r r')
    /\ (n < 0 \/ Z.of_nat (List.length sorted) <= n -> cut = []).
Proof.
  intro Hsorted. unfold Sql.limit.
  destruct (Z.ltb_spec n 0) as [Hneg|Hpos].
  - exists []. split; [now rewrite app_nil_r|]. split; [lia|].
    split; [intros r r' _ []|reflexivity].
  - exists (skipn (Z.to_nat n) sorted).
    split; [now rewrite firstn_skipn|]. split; [|split].
    + intros _. rewrite length_firstn. lia.
    + rewrite <- (firstn_skipn (Z.to_nat n) sorted) in Hsorted.
      intros r r' Hr Hr'.
      revert Hsorted Hr. generalize (firstn (Z.to_nat n) sorted) as taken.
      induction taken as [|x taken IH]; intros Hs Hr; [destruct Hr|].
      cbn [app] in Hs. inversion Hs as [|x' l' Hl Hall]; subst.
      destruct Hr as [<-|Hr]; [|now apply IH].
      rewrite Forall_forall in Hall. apply Hall. apply in_or_app. now right.
    + intros [Hlt|Hle]; [lia|]. apply skipn_all2. lia.
Qed.

(** What a SELECT ... WHERE ... ORDER BY ... LIMIT of the agent returns. *)
Lemma select_where_order_limit (cond : news_row -> bool) (n : Z)
    (rows : list news_row) :
  let result :=
    Sql.limit n (Sql.order_by_importance_published (filter cond rows)) in
  (forall r, In r result -> In r rows /\ cond r = true)
  /\ StronglySorted importance_then_published_desc result
  /\ (0 <= n -> Z.of_nat (List.length result) <= n)
  /\ (exists rest, Permutation (result ++ rest) (filter cond rows)
        /\ forall r r', In r result -> In r' rest ->
             importance_then_published_desc r r')
  /\ (n < 0 \/ Z.of_nat (List.length (filter cond rows)) <= n ->
      Permutation result (filter cond rows)).
Proof.
  intro result. subst result.
  set (sorted := Sql.order_by_importance_published (filter cond rows)).
  assert (Hperm : Permutation sorted (filter cond rows)) by apply order_by_perm.
  assert (Hsorted : StronglySorted importance_then_published_desc sorted)
    by apply order_by_sorted.
  split; [|split; [|split; [|split]]].
  - intros r Hr. apply limit_incl in Hr.
    apply (Permutation_in _ Hperm) in Hr. now apply filter_In in Hr.
  - now apply limit_sorted.
  - apply limit_length.
  - destruct (limit_prefix n sorted) as [rest Hrest].
    exists rest. split; [now rewrite <- Hrest|].
    intros r r' Hr Hr'. rewrite Hrest in Hsorted.
    clear Hrest Hperm. induction (Sql.limit n sorted) as [|x l IH];
      [destruct Hr|].
    simpl in Hsorted. inversion Hsorted as [|x' l' Hl Hall]; subst.
    destruct Hr as [<-|Hr]; [|now apply IH].
    rewrite Forall_forall in Hall. apply Hall. apply in_or_app. now right.
  - intro Hall. rewrite limit_all; [exact Hperm|].
    destruct Hall as [Hneg|Hle]; [now left|right].
    now rewrite (Permutation_length Hperm).
Qed.

(* ================================================================== *)
(** * Enrichment runs *)

Lemma same_id_same_row (rows : list news_row) (a b : news_row) :
  NoDup (map n_id rows) -> In a rows -> In b rows -> n_id a = n_id b -> a = b.
Proof.
  induction rows as [|r rows IH]; simpl; intros Hnd Ha Hb Hid; [destruct Ha|].
  inversion Hnd as [|x l Hnotin Hnd']; subst.
  destruct Ha as [<-|Ha], Hb as [<-|Hb]; try reflexivity.
  - exfalso. apply Hnotin. rewrite Hid. now apply in_map.
  - exfalso. apply Hnotin. rewrite <- Hid. now apply in_map.
  - now apply IH.
Qed.

Lemma nodup_prefix {A} (l rest : list A) : NoDup (l ++ rest) -> NoDup l.
Proof.
  induction l as [|x l IH]; simpl; intro Hnd; [constructor|].
  inversion Hnd as [|x' l' Hnotin Hnd']; subst.
  constructor; [|now apply IH].
  intro Hin. apply Hnotin. apply in_or_app. now left.
Qed.

Lemma nodup_map_filter {A B} (f : A -> B) (cond : A -> bool) (l : list A) :
  NoDup (map f l) -> NoDup (map f (filter cond l)).
Proof.
  induction l as [|x l IH]; simpl; intro Hnd; [constructor|].
  inversion Hnd as [|x' l' Hnotin Hnd']; subst.
  destruct (cond x); simpl; [|now apply IH].
  constructor; [|now apply IH].
  intro Hin. apply Hnotin. apply in_map_iff in Hin.
  destruct Hin as (y & Hy & Hin). apply filter_In in Hin.
  rewrite <- Hy. apply in_map. tauto.
Qed.

(** The rows a SELECT of the agent returns have distinct ids. *)
Lemma selected_ids_distinct (cond : news_row -> bool) (n : Z)
    (rows : list news_row) :
  NoDup (map n_id rows) ->
  NoDup (map n_id
           (Sql.limit n (Sql.order_by_importance_published (filter cond rows)))).
Proof.
  intro Hnd.
  destruct (limit_prefix n
              (Sql.order_by_importance_published (filter cond rows)))
    as [rest Hrest].
  apply (nodup_prefix _ (map n_id rest)). rewrite <- map_app, <- Hrest.
  apply (Permutation_NoDup (l := map n_id (filter cond rows))).
  - apply Permutation_map. symmetry. apply order_by_perm.
  - now apply nodup_map_filter.
Qed.

Lemma set_analysis_where_id_keeps_id (s k t : str) (id : Z) (r : news_row) :
  n_id (Sql.set_analysis_where_id s k t id r) = n_id r.
Proof.
  unfold Sql.set_analysis_where_id. destruct (n_id r =? id); reflexivity.
Qed.

Lemma set_analysis_where_id_keeps_hash (s k t : str) (id : Z) (r : news_row) :
  n_hash (Sql.set_analysis_where_id s k t id r) = n_hash r.
Proof.
  unfold Sql.set_analysis_where_id. destruct (n_id r =? id); reflexivity.
Qed.

Lemma apply_updates_length (updates : list (str * str * str * Z))
    (rows : list news_row) :
  List.length (apply_updates updates rows) = List.length rows.
Proof.
  revert rows; induction updates as [|[[[s k] t] id] rest IH]; intro rows;
    simpl; [reflexivity|].
  now rewrite IH, length_map.
Qed.

Lemma apply_updates_ids (updates : list (str * str * str * Z))
    (rows : list news_row) :
  map n_id (apply_updates updates rows) = map n_id rows
  /\ map n_hash (apply_updates updates rows) = map n_hash rows.
Proof.
  revert rows; induction updates as [|[[[s k] t] id] rest IH]; intro rows;
    simpl; [split; reflexivity|].
  destruct (IH (map (Sql.set_analysis_where_id s k t id) rows)) as [Hi Hh].
  rewrite Hi, Hh, !map_map. split; apply map_ext; intro r.
  - apply set_analysis_where_id_keeps_id.
  - apply set_analysis_where_id_keeps_hash.
Qed.

(** Under distinct ids in the run, a row is written once when its id is
    among the updates, and not at all otherwise. *)
Lemma apply_updates_nth (updates : list (str * str * str * Z))
    (rows : list news_row) (i : nat) (r : news_row) :
  NoDup (map snd updates) ->
  nth_error rows i = Some r ->
  exists r',
    nth_error (apply_updates updates rows) i = Some r'
    /\ ((In (n_id r) (map snd updates)
         /\ exists s k t, r' = Sql.set_analysis s k t r)
        \/ (~ In (n_id r) (map snd updates) /\ r' = r)).
Proof.
  revert rows r; induction updates as [|[[[s k] t] id] rest IH];
    intros rows r Hnd Hi; simpl.
  - exists r. split; [exact Hi|]. right. split; [tauto|reflexivity].
  - simpl in Hnd. inversion Hnd as [|x l Hnotin Hnd']; subst.
    assert (Hi1 : nth_error (map (Sql.set_analysis_where_id s k t id) rows) i
                  = Some (Sql.set_analysis_where_id s k t id r))
      by now rewrite nth_error_map, Hi.
    destruct (IH _ _ Hnd' Hi1) as (r' & Hr' & Hcases).
    exists r'. split; [exact Hr'|].
    rewrite set_analysis_where_id_keeps_id in Hcases.
    unfold Sql.set_analysis_where_id in Hcases.
    destruct (Z.eqb_spec (n_id r) id) as [Heq|Hne].
    + left. split; [now left|].
      destruct Hcases as [[Hin _]|[_ ->]].
      * exfalso. apply Hnotin. now rewrite <- Heq.
      * now exists s, k, t.
    + destruct Hcases as [[Hin Hex]|[Hnin ->]].
      * left. split; [now right|exact Hex].
      * right. split; [|reflexivity].
        intros [Hhead|Hin]; [now apply Hne|now apply Hnin].
Qed.

Section EnrichmentRuns.

Variable clock : nat -> datetime.
Variable ollama : nat -> str -> Z -> http_result.

(** The loop makes one UPDATE for each selected article, in order, counts
    each, and writes nothing else. *)
Lemma analyze_articles_effect (articles : list news_row) (count : Z)
    (w : world) :
  exists updates w',
    analyze_articles clock ollama articles count w
    = (count + Z.of_nat (List.length articles), w')
    /\ map snd updates = map n_id articles
    /\ db w'
       = with_news (db w) (apply_updates updates (news (db w)))
           (news_seq (db w)).
Proof.
  revert count w; induction articles as [|a rest IH]; intros count w.
  - exists [], w. simpl. repeat split.
    + f_equal. lia.
    + now rewrite with_news_same.
  - destruct (analyze_article_effect clock ollama a w)
      as (s & k & t & w1 & Hrun & _ & Hdb1).
    destruct (IH (count + 1) w1) as (updates & w' & Hloop & Hids & Hdb).
    exists ((s, k, t, n_id a) :: updates), w'.
    cbn [analyze_articles]. rewrite Hrun, Hloop. repeat split.
    + f_equal. cbn [List.length]. lia.
    + simpl. now rewrite Hids.
    + rewrite Hdb, Hdb1. reflexivity.
Qed.

(** [analyze_news_articles] returns the number of selected articles; on the
    news table it makes the UPDATEs of the selected ids and nothing else. *)
Lemma analyze_news_articles_effect (limit : Z) (w : world) :
  Sql.is_int64 limit = true ->
  exists updates w',
    analyze_news_articles clock ollama limit w
    = (Returned (Z.of_nat (List.length (Sql.select_unanalyzed limit (db w)))),
       w')
    /\ map snd updates = map n_id (Sql.select_unanalyzed limit (db w))
    /\ news (db w') = apply_updates updates (news (db w))
    /\ news_seq (db w') = news_seq (db w)
    /\ analyses (db w') = analyses (db w)
    /\ analyses_seq (db w') = analyses_seq (db w).
Proof.
  intro Hint. unfold analyze_news_articles, bind, fetch, Sql.unanalyzed.
  rewrite Hint.
  destruct (Sql.select_unanalyzed limit (db w)) as [|a rest] eqn:Hsel.
  - exists [], w. repeat split.
  - destruct (analyze_articles_effect (a :: rest) 0 w)
      as (updates & w1 & Hloop & Hids & Hdb).
    rewrite Hloop. unfold commit, now, write, execute, ret. cbn.
    exists updates. eexists. split; [reflexivity|].
    cbn. rewrite Hdb. repeat split. exact Hids.
Qed.

(** A limit that does not fit 64 bits: the SELECT raises, and so does the
    method, which has done nothing yet. *)
Lemma analyze_news_articles_overflow (limit : Z) (w : world) :
  Sql.is_int64 limit = false ->
  analyze_news_articles clock ollama limit w = (Raised Sql.overflow_error, w).
Proof.
  intro Hint. unfold analyze_news_articles, bind, fetch, Sql.unanalyzed.
  now rewrite Hint.
Qed.

(** The loop commits nothing; a run that went through it ends on a
    commit. *)
Lemma analyze_articles_committed (articles : list news_row) (count : Z)
    (w : world) :
  committed (snd (analyze_articles clock ollama articles count w))
  = committed w.
Proof.
  revert count w; induction articles as [|a rest IH]; intros count w;
    cbn [analyze_articles]; [reflexivity|].
  pose proof (analyze_article_committed clock ollama a w) as Hc.
  destruct (analyze_article clock ollama a w) as [[done|e] w1];
    cbn [snd] in Hc; rewrite IH; exact Hc.
Qed.

Lemma analyze_news_articles_commits (limit n : Z) (w w' : world) :
  analyze_news_articles clock ollama limit w = (Returned n, w') ->
  w' = w \/ committed w' = db w'.
Proof.
  unfold analyze_news_articles, bind, fetch, Sql.unanalyzed.
  destruct (Sql.is_int64 limit); [|discriminate].
  destruct (Sql.select_unanalyzed limit (db w)) as [|a rest].
  - intro H. injection H as _ <-. now left.
  - destruct (analyze_articles clock ollama (a :: rest) 0 w) as [count w1].
    unfold commit, now, write, execute, ret. cbn.
    intro H. injection H as _ <-. right. reflexivity.
Qed.

Lemma analyze_news_articles_returned (limit n : Z) (w w' : world) :
  analyze_news_articles clock ollama limit w = (Returned n, w') ->
  Sql.is_int64 limit = true.
Proof.
  intro Hrun. destruct (Sql.is_int64 limit) eqn:Hint; [reflexivity|].
  rewrite (analyze_news_articles_overflow limit w Hint) in Hrun.
  discriminate Hrun.
Qed.

(** C3. For a limit that fits a 64-bit integer, the SELECT of the
    enrichment takes only rows of [news] whose [analyzed_at] is NULL,
    ordered by importance descending and then by [published] descending:
    the first [limit] of them in that order when the limit is not negative,
    every row left out coming after every row taken, and all of them when
    the limit is negative or large enough. Under the constraints of the
    table, the run of [analyze_news_articles] returns their number and
    rewrites the rows taken, each once, and no other row: a row whose
    [analyzed_at] is already set is the same after the run, so [analyzed_at]
    goes from NULL to a value once and stays. For a limit that does not fit
    64 bits the SELECT raises OverflowError, outside every [try]: the run
    raises it and changes nothing. *)
Theorem unanalyzed_selected_and_enriched_once (limit : Z) (w : world) :
  let unanalyzed :=
    filter (fun r => Sql.is_null (n_analyzed_at r)) (news (db w)) in
  (Sql.is_int64 limit = false ->
   analyze_news_articles clock ollama limit w = (Raised Sql.overflow_error, w))
  /\ (Sql.is_int64 limit = true ->
      exists selected cut,
        (forall r, In r selected ->
           In r (news (db w)) /\ n_analyzed_at r = None)
        /\ StronglySorted importance_then_published_desc selected
        /\ (0 <= limit ->
            Z.of_nat (List.length selected)
            = Z.min limit (Z.of_nat (List.length unanalyzed)))
        /\ Permutation (selected ++ cut) unanalyzed
        /\ (forall r r', In r selected -> In r' cut ->
              importance_then_published_desc r r')
        /\ (limit < 0 \/ Z.of_nat (List.length unanalyzed) <= limit ->
            cut = [])
        /\ (news_constraints (db w) ->
            exists w',
              analyze_news_articles clock ollama limit w
              = (Returned (Z.of_nat (List.length selected)), w')
              /\ List.length (news (db w')) = List.length (news (db w))
              /\ forall i r, nth_error (news (db w)) i = Some r ->
                   exists r',
                     nth_error (news (db w')) i = Some r'
                     /\ (n_analyzed_at r <> None -> r' = r)
                     /\ (In r selected ->
                         exists summary keywords analyzed_at,
                           r' = Sql.set_analysis summary keywords analyzed_at r)
                     /\ (~ In r selected -> r' = r))).
Proof.
  intro unanalyzed.
  split; [apply analyze_news_articles_overflow|]. intro Hint.
  set (selected := Sql.select_unanalyzed limit (db w)).
  destruct (select_where_order_limit
              (fun r => Sql.is_null (n_analyzed_at r)) limit (news (db w)))
    as (Hin & Hsorted & _ & _ & _).
  fold (Sql.select_unanalyzed limit (db w)) in Hin, Hsorted.
  fold selected in Hin, Hsorted.
  assert (Hnull : forall r, In r selected ->
                    In r (news (db w)) /\ n_analyzed_at r = None).
  { intros r Hr. destruct (Hin r Hr) as [Hnews Hc]. split; [exact Hnews|].
    destruct (n_analyzed_at r); [discriminate|reflexivity]. }
  destruct (@limit_cut _ _ limit _ (order_by_sorted unanalyzed))
    as (cut & Hsplit & Hlen & Hbefore & Hall).
  change (Sql.limit limit (Sql.order_by_importance_published unanalyzed))
    with selected in Hsplit, Hlen, Hbefore.
  rewrite (Permutation_length (order_by_perm unanalyzed)) in Hlen, Hall.
  exists selected, cut.
  split; [exact Hnull|]. split; [exact Hsorted|]. split; [exact Hlen|].
  split; [rewrite <- Hsplit; apply order_by_perm|].
  split; [exact Hbefore|]. split; [exact Hall|].
  intros (Hids & _ & _).
  destruct (analyze_news_articles_effect limit w Hint)
    as (updates & w' & Hrun & Hup & Hnews & _).
  fold selected in Hrun, Hup.
  exists w'.
  split; [exact Hrun|]. rewrite Hnews.
  split; [apply apply_updates_length|].
  intros i r Hi.
  assert (Hnd : NoDup (map snd updates)).
  { rewrite Hup. now apply selected_ids_distinct. }
  destruct (apply_updates_nth updates _ i Hnd Hi) as (r' & Hr' & Hcases).
  exists r'. split; [exact Hr'|].
  assert (Hrin : In r (news (db w))) by (eapply nth_error_In; exact Hi).
  assert (Hiff : In (n_id r) (map snd updates) <-> In r selected).
  { rewrite Hup. split.
    - intro Hid. apply in_map_iff in Hid. destruct Hid as (r0 & Hid & Hr0).
      destruct (Hnull r0 Hr0) as [Hr0news _].
      now rewrite <- (@same_id_same_row _ _ _ Hids Hr0news Hrin Hid).
    - apply in_map. }
  split; [|split].
  - intro Hset. destruct Hcases as [[Hid _]|[_ ->]]; [|reflexivity].
    apply Hiff, Hnull in Hid. tauto.
  - intro Hsel. destruct Hcases as [[_ Hex]|[Hnid _]]; [exact Hex|].
    exfalso. now apply Hnid, Hiff.
  - intro Hnsel. destruct Hcases as [[Hid _]|[_ ->]]; [|reflexivity].
    exfalso. now apply Hnsel, Hiff.
Qed.

End EnrichmentRuns.

Lemma unanalyzed_selected_and_enriched_once_witness :
  let rows := [ example_row 1 (u "Первая") 0.5%float (u "2024-05-01") None;
                example_row 2 (u "Вторая") 0.8%float (u "2024-05-02")
                  (Some (u "2024-05-02T12:00:00"));
                example_row 3 (u "Третья") 0.8%float (u "2024-05-03") None;
                example_row 4 (u "Четвертая") 1%float (u "2024-05-01") None ] in
  let w := example_world (example_database rows []) in
  Sql.is_int64 2 = true /\ 0 <= 2 /\ news_constraints (db w)
  /\ exists (selected : list news_row) w',
       Z.of_nat (List.length selected) = 2
       /\ analyze_news_articles example_clock example_ollama 2 w
          = (Returned (Z.of_nat (List.length selected)), w').
Proof.
  intros rows w.
  assert (Hc : news_constraints (db w)).
  { split; [|split].
    - repeat constructor; simpl; intuition discriminate.
    - repeat constructor; simpl; intuition discriminate.
    - repeat constructor; simpl; discriminate. }
  destruct (unanalyzed_selected_and_enriched_once example_clock
              example_ollama 2 w) as (_ & Hrun).
  destruct (Hrun eq_refl) as (selected & cut & _ & _ & Hlen & _ & _ & _ & Hrun').
  destruct (Hrun' Hc) as (w' & Hran & _).
  split; [reflexivity|]. split; [lia|]. split; [exact Hc|].
  exists selected, w'. split; [|exact Hran].
  rewrite Hlen by lia. vm_compute. reflexivity.
Defined.

(* ================================================================== *)
(** * Collection runs *)

Lemma existsb_find {A} (f : A -> bool) (l : list A) :
  existsb f l = match find f l with Some _ => true | None => false end.
Proof.
  induction l as [|x l IH]; simpl; [reflexivity|].
  destruct (f x); [reflexivity|exact IH].
Qed.

Lemma stored_iff_found (h : str) (d : database) :
  stored h d <-> Sql.select_id_by_hash h d <> None.
Proof.
  unfold stored, Sql.select_id_by_hash. split.
  - intro Hin. apply in_map_iff in Hin. destruct Hin as (r & Hr & Hin).
    destruct (find (fun r0 => Str.eqb (n_hash r0) h) (news d)) eqn:Hf;
      [discriminate|].
    exfalso. apply (find_none _ _ Hf) in Hin.
    now rewrite Hr, str_eqb_refl in Hin.
  - destruct (find (fun r0 => Str.eqb (n_hash r0) h) (news d)) eqn:Hf;
      [|congruence].
    intros _. apply find_some in Hf. destruct Hf as [Hin Heq].
    apply str_eqb_eq in Heq. rewrite <- Heq. now apply in_map.
Qed.

Lemma stored_appended (h : str) (d d' : database) (added : list news_row) :
  news d' = news d ++ added -> stored h d -> stored h d'.
Proof.
  unfold stored. intros -> Hin. rewrite map_app. apply in_or_app. now left.
Qed.

(** A new row with the next id of the sequence and a hash not yet stored
    keeps the constraints of the table. *)
Lemma constraints_after_insert (d : database) (row : news_row) :
  n_id row = news_seq d + 1 ->
  ~ stored (n_hash row) d ->
  news_constraints d ->
  news_constraints (with_news d (news d ++ [row]) (news_seq d + 1)).
Proof.
  intros Hid Hnew (Hids & Hhashes & Hseq). unfold news_constraints. simpl.
  rewrite !map_app. simpl. split; [|split].
  - apply NoDup_app; [exact Hids|repeat constructor; tauto|].
    intros x Hx [<-|[]]. rewrite Forall_forall in Hseq.
    specialize (Hseq _ Hx). lia.
  - apply NoDup_app; [exact Hhashes|repeat constructor; tauto|].
    intros x Hx [<-|[]]. now apply Hnew.
  - apply Forall_app. split.
    + eapply Forall_impl; [|exact Hseq]. simpl. intros id Hle. lia.
    + constructor; [lia|constructor].
Qed.

(** Splitting the conjunctions of a goal, and no more. *)
Ltac split_all :=
  repeat match goal with
         | |- _ /\ _ => split
         | |- forall row, In row _ -> _ /\ _ => let r := fresh "added_row" in
           let Hin := fresh "Hadded" in intros r Hin; split
         end;
  try reflexivity.

Section Collection.

Variable lower : str -> str.
Variable md5_hexdigest : str -> str.
Variable clock : nat -> datetime.

Local Abbreviation article_hash := (article_hash md5_hexdigest).
Local Abbreviation collect_entry := (collect_entry lower md5_hexdigest clock).
Local Abbreviation collect_entries := (collect_entries lower md5_hexdigest clock).
Local Abbreviation collect_source := (collect_source lower md5_hexdigest clock).
Local Abbreviation collect_news_from := (collect_news_from lower md5_hexdigest clock).

(** One entry: when its hash is stored the turn changes nothing; otherwise
    the INSERT goes through (the UNIQUE constraint cannot fire after the
    SELECT found nothing) and appends one row, not yet analysed, with that
    hash. *)
Lemma collect_entry_effect (source_name : str) (e : entry) (w : world) :
  (stored (article_hash e) (db w)
   /\ collect_entry source_name e w = (Returned false, w))
  \/ (~ stored (article_hash e) (db w)
      /\ exists row w',
           collect_entry source_name e w = (Returned true, w')
           /\ n_hash row = article_hash e
           /\ n_id row = news_seq (db w) + 1
           /\ n_analyzed_at row = None
           /\ db w' = with_news (db w) (news (db w) ++ [row])
                        (news_seq (db w) + 1)
           /\ llm_requests w' = llm_requests w).
Proof.
  unfold collect_entry, bind, query.
  destruct (Sql.select_id_by_hash (article_hash e) (db w)) as [id|] eqn:Hsel.
  - left. split; [|reflexivity]. apply stored_iff_found. congruence.
  - right. split; [rewrite stored_iff_found; congruence|].
    unfold now, execute, Sql.insert_news, ret. cbn.
    unfold Sql.select_id_by_hash in Hsel. rewrite existsb_find.
    destruct (find (fun r => Str.eqb (n_hash r) (article_hash e)) (news (db w)));
      [discriminate|].
    eexists. eexists. split; [reflexivity|]. split_all.
    all: reflexivity.
Qed.

Lemma collect_entry_stored (source_name : str) (e : entry) (w : world) :
  stored (article_hash e) (db w) ->
  collect_entry source_name e w = (Returned false, w).
Proof.
  intro Hs. destruct (collect_entry_effect source_name e w)
    as [[_ H]|[Hn _]]; [exact H|contradiction].
Qed.

(** The loop over the entries of a feed returns; it appends rows, counts
    them, and afterwards every entry it went through is stored. *)
Lemma collect_entries_effect (source_name : str) (entries : list entry)
    (total : Z) (w : world) :
  exists added w',
    collect_entries source_name entries total w
    = (Returned tt, total + Z.of_nat (List.length added), w')
    /\ news (db w') = news (db w) ++ added
    /\ analyses (db w') = analyses (db w)
    /\ analyses_seq (db w') = analyses_seq (db w)
    /\ stats (db w') = stats (db w)
    /\ llm_requests w' = llm_requests w
    /\ (news_constraints (db w) -> news_constraints (db w'))
    /\ (forall e, In e entries -> stored (article_hash e) (db w'))
    /\ (forall row, In row added ->
          n_analyzed_at row = None
          /\ exists e, In e entries /\ n_hash row = article_hash e).
Proof.
  revert total w; induction entries as [|e rest IH]; intros total w.
  - exists [], w. cbn. rewrite Z.add_0_r, app_nil_r.
    split_all; try tauto; try (intros ? []).
  - cbn [collect_entries].
    destruct (collect_entry_effect source_name e w)
      as [[Hs Hrun]|(Hn & row & w1 & Hrun & Hh & Hid & Han & Hdb & Hllm)];
      rewrite Hrun.
    + destruct (IH total w)
        as (added & w' & Hloop & Hnews & Ha & Has & Hst & Hl & Hc & Hall & Hrows).
      exists added, w'. rewrite Hloop. split_all; try assumption.
      * intros e' [<-|He']; [|now apply Hall].
        eapply stored_appended; eassumption.
      * now apply Hrows.
      * destruct (Hrows _ Hadded) as (_ & e' & He' & Hrow).
        exists e'. split; [now right|exact Hrow].
    + destruct (IH (total + 1) w1)
        as (added & w' & Hloop & Hnews & Ha & Has & Hst & Hl & Hc & Hall & Hrows).
      exists (row :: added), w'. rewrite Hloop.
      rewrite Hdb in Hnews, Ha, Has, Hst, Hc. cbn in Hnews, Ha, Has, Hst.
      split; [f_equal; f_equal; cbn [List.length]; lia|].
      split; [now rewrite Hnews, <- app_assoc|].
      split_all; try assumption; try congruence.
      * intro Hw. apply Hc. apply constraints_after_insert;
          [exact Hid|now rewrite Hh|exact Hw].
      * intros e' [<-|He']; [|now apply Hall].
        unfold stored. rewrite Hnews, !map_app. cbn.
        apply in_or_app. left. apply in_or_app. right. left. exact Hh.
      * destruct Hadded as [<-|Hin]; [exact Han|now apply Hrows].
      * destruct Hadded as [<-|Hin].
        -- exists e. split; [now left|exact Hh].
        -- destruct (Hrows _ Hin) as (_ & e' & He' & Hrow).
           exists e'. split; [now right|exact Hrow].
Qed.

Lemma collect_entries_stored (source_name : str) (entries : list entry)
    (total : Z) (w : world) :
  (forall e, In e entries -> stored (article_hash e) (db w)) ->
  collect_entries source_name entries total w = (Returned tt, total, w).
Proof.
  induction entries as [|e rest IH]; intro Hall;
    cbn [collect_entries]; [reflexivity|].
  rewrite collect_entry_stored by (apply Hall; now left).
  apply IH. intros e' He'. apply Hall. now right.
Qed.

Lemma collect_source_effect (feed : str -> outcome (list entry))
    (limit_per_source total : Z) (w : world) (rss_source : str * str) :
  exists added w',
    collect_source feed limit_per_source (total, w) rss_source
    = (total + Z.of_nat (List.length added), w')
    /\ news (db w') = news (db w) ++ added
    /\ analyses (db w') = analyses (db w)
    /\ analyses_seq (db w') = analyses_seq (db w)
    /\ stats (db w') = stats (db w)
    /\ llm_requests w' = llm_requests w
    /\ (news_constraints (db w) -> news_constraints (db w'))
    /\ (forall e, entries_read feed limit_per_source rss_source e ->
          stored (article_hash e) (db w'))
    /\ (forall row, In row added ->
          n_analyzed_at row = None
          /\ exists e, entries_read feed limit_per_source rss_source e
                       /\ n_hash row = article_hash e).
Proof.
  destruct rss_source as [rss_url source_name].
  unfold collect_source, entries_read. cbn [fst].
  assert (Hnothing : exists added w',
    (total, w) = (total + Z.of_nat (List.length added), w')
    /\ news (db w') = news (db w) ++ added
    /\ analyses (db w') = analyses (db w)
    /\ analyses_seq (db w') = analyses_seq (db w)
    /\ stats (db w') = stats (db w)
    /\ llm_requests w' = llm_requests w
    /\ (news_constraints (db w) -> news_constraints (db w'))
    /\ forall row, In row added ->
          n_analyzed_at row = None
          /\ exists e, (exists entries, feed rss_url = Returned entries
                          /\ In e (slice_to limit_per_source entries))
                       /\ n_hash row = article_hash e).
  { exists [], w. cbn. rewrite Z.add_0_r, app_nil_r.
    split_all; try tauto; try (intros ? []). }
  destruct (feed rss_url) as [[|e0 entries]|message] eqn:Hfeed.
  - destruct Hnothing as (added & w' & H1 & H2 & H3 & H4 & H5 & H6 & H7 & H8).
    exists added, w'. split_all; try assumption; try (now apply H8).
    intros e (entries & Hret & Hin). injection Hret as <-.
    unfold slice_to in Hin. destruct (limit_per_source <? 0);
      rewrite firstn_nil in Hin; destruct Hin.
  - destruct (collect_entries_effect source_name
                (slice_to limit_per_source (e0 :: entries)) total w)
      as (added & w' & Hloop & H2 & H3 & H4 & H5 & H6 & H7 & Hall & Hrows).
    exists added, w'. rewrite Hloop. split_all; try assumption.
    + intros e (entries' & Hret & Hin). injection Hret as <-.
      now apply Hall.
    + now apply Hrows.
    + destruct (Hrows _ Hadded) as (_ & e & He & Hrow).
      exists e. split; [|exact Hrow]. now exists (e0 :: entries).
  - destruct Hnothing as (added & w' & H1 & H2 & H3 & H4 & H5 & H6 & H7 & H8).
    exists added, w'. split_all; try assumption; try (now apply H8).
    intros e (entries & Hret & _). discriminate.
Qed.

Lemma collect_source_stored (feed : str -> outcome (list entry))
    (limit_per_source total : Z) (w : world) (rss_source : str * str) :
  (forall e, entries_read feed limit_per_source rss_source e ->
     stored (article_hash e) (db w)) ->
  collect_source feed limit_per_source (total, w) rss_source = (total, w).
Proof.
  destruct rss_source as [rss_url source_name].
  unfold collect_source, entries_read. cbn [fst]. intro Hall.
  destruct (feed rss_url) as [[|e0 entries]|message]; try reflexivity.
  rewrite collect_entries_stored; [reflexivity|].
  intros e He. apply Hall. now exists (e0 :: entries).
Qed.

(** A source whose feed raises leaves the run where it was. *)
Lemma collect_source_raised (feed : str -> outcome (list entry))
    (limit_per_source : Z) (st : Z * world) (rss_source : str * str)
    (message : str) :
  feed (fst rss_source) = Raised message ->
  collect_source feed limit_per_source st rss_source = st.
Proof.
  destruct rss_source as [rss_url source_name], st as [total w].
  cbn. now intros ->.
Qed.

(** The loop over the sources. *)
Lemma collect_sources_effect (feed : str -> outcome (list entry))
    (limit_per_source : Z) (sources : list (str * str)) (total : Z)
    (w : world) :
  exists added w',
    fold_left (collect_source feed limit_per_source) sources (total, w)
    = (total + Z.of_nat (List.length added), w')
    /\ news (db w') = news (db w) ++ added
    /\ analyses (db w') = analyses (db w)
    /\ analyses_seq (db w') = analyses_seq (db w)
    /\ stats (db w') = stats (db w)
    /\ llm_requests w' = llm_requests w
    /\ (news_constraints (db w) -> news_constraints (db w'))
    /\ (forall rss_source e, In rss_source sources ->
          entries_read feed limit_per_source rss_source e ->
          stored (article_hash e) (db w'))
    /\ (forall row, In row added ->
          n_analyzed_at row = None
          /\ exists rss_source e,
               In rss_source sources
               /\ entries_read feed limit_per_source rss_source e
               /\ n_hash row = article_hash e).
Proof.
  revert total w; induction sources as [|src rest IH]; intros total w.
  - exists [], w. cbn. rewrite Z.add_0_r, app_nil_r.
    split_all; try tauto; try (intros ? ? []).
  - cbn [fold_left].
    destruct (collect_source_effect feed limit_per_source total w src)
      as (added1 & w1 & Hrun & N1 & A1 & S1 & T1 & L1 & C1 & Hall1 & Hrows1).
    rewrite Hrun.
    destruct (IH (total + Z.of_nat (List.length added1)) w1)
      as (added2 & w' & Hloop & N2 & A2 & S2 & T2 & L2 & C2 & Hall2 & Hrows2).
    exists (added1 ++ added2), w'. rewrite Hloop.
    split; [f_equal; rewrite length_app; lia|].
    split; [now rewrite N2, N1, app_assoc|].
    split_all; try congruence; try tauto.
    + intros rss_source e [<-|Hin] Hread; [|now apply (Hall2 rss_source)].
      eapply stored_appended; [exact N2|]. now apply Hall1.
    + apply in_app_or in Hadded. destruct Hadded as [H|H];
        [now apply Hrows1|now apply Hrows2].
    + apply in_app_or in Hadded. destruct Hadded as [H|H].
      * destruct (Hrows1 _ H) as (_ & e & He & Hrow).
        exists src, e. split_all; [now left|exact He|exact Hrow].
      * destruct (Hrows2 _ H) as (_ & src' & e & Hs & He & Hrow).
        exists src', e. split_all; [now right|exact He|exact Hrow].
Qed.

Lemma collect_sources_stored (feed : str -> outcome (list entry))
    (limit_per_source : Z) (sources : list (str * str)) (total : Z)
    (w : world) :
  (forall rss_source e, In rss_source sources ->
     entries_read feed limit_per_source rss_source e ->
     stored (article_hash e) (db w)) ->
  fold_left (collect_source feed limit_per_source) sources (total, w)
  = (total, w).
Proof.
  induction sources as [|src rest IH]; intro Hall; cbn [fold_left];
    [reflexivity|].
  rewrite collect_source_stored by (intros e He; apply (Hall src); [now left|exact He]).
  apply IH. intros src' e Hin. apply Hall. now right.
Qed.

Lemma stats_statement_reads_stats (c : counter) (date : str) (delta : Z)
    (d d' : database) :
  stats d' = stats d ->
  stats (Sql.insert_or_replace_stats c date delta d')
  = stats (Sql.insert_or_replace_stats c date delta d).
Proof.
  intro Hs. unfold Sql.insert_or_replace_stats, Sql.select_counter. cbn.
  now rewrite Hs.
Qed.

(** [collect_news]: it returns the number of rows it appended; after it,
    every entry read from a feed that could be parsed is stored; its last
    statement adds that number to the counter of the day. *)
Lemma collect_news_effect (sources : list (str * str))
    (feed : str -> outcome (list entry)) (limit_per_source : Z) (w : world) :
  exists added today w',
    collect_news_from sources feed limit_per_source w
    = (Returned (Z.of_nat (List.length added)), w')
    /\ news (db w') = news (db w) ++ added
    /\ analyses (db w') = analyses (db w)
    /\ analyses_seq (db w') = analyses_seq (db w)
    /\ stats (db w')
       = stats (Sql.insert_or_replace_stats NewsCollected today
                  (Z.of_nat (List.length added)) (db w))
    /\ llm_requests w' = llm_requests w
    /\ (news_constraints (db w) -> news_constraints (db w'))
    /\ (forall rss_source e, In rss_source sources ->
          entries_read feed limit_per_source rss_source e ->
          stored (article_hash e) (db w'))
    /\ (forall row, In row added ->
          n_analyzed_at row = None
          /\ exists rss_source e,
               In rss_source sources
               /\ entries_read feed limit_per_source rss_source e
               /\ n_hash row = article_hash e).
Proof.
  destruct (collect_sources_effect feed limit_per_source sources 0 w)
    as (added & w1 & Hloop & N1 & A1 & S1 & T1 & L1 & C1 & Hall & Hrows).
  exists added, (ymd (clock (clock_reads w1))).
  unfold collect_news_from. rewrite Hloop.
  unfold bind, now, write, execute, ret. cbn [db clock_reads].
  eexists. split; [reflexivity|]. cbn [db llm_requests with_db].
  split; [exact N1|]. split; [exact A1|]. split; [exact S1|].
  split; [apply stats_statement_reads_stats; exact T1|]. split; [exact L1|].
  split; [|split; [exact Hall|exact Hrows]].
  intro Hw. exact (C1 Hw).
Qed.

(** C9. When the feed of a configured source raises, [collect_news] still
    returns: the exception is caught, and every entry read from each source
    whose feed was parsed is stored after the run. The run is the run over
    the sources without the failing one. *)
Theorem collect_isolates_failing_source (sources : list (str * str))
    (feed : str -> outcome (list entry)) (limit_per_source : Z) (w : world)
    (bad : str * str) (message : str) :
  In bad sources ->
  feed (fst bad) = Raised message ->
  exists total w',
    collect_news_from sources feed limit_per_source w = (Returned total, w')
    /\ (forall good e, In good sources ->
          entries_read feed limit_per_source good e ->
          stored (article_hash e) (db w'))
    /\ (forall before after, sources = before ++ bad :: after ->
          collect_news_from (before ++ after) feed limit_per_source w
          = (Returned total, w')).
Proof.
  intros Hbad Hraised.
  destruct (collect_news_effect sources feed limit_per_source w)
    as (added & today & w' & Hrun & _ & _ & _ & _ & _ & _ & Hall & _).
  exists (Z.of_nat (List.length added)), w'.
  split; [exact Hrun|]. split; [exact Hall|].
  intros before after ->. rewrite <- Hrun.
  unfold collect_news_from.
  rewrite !fold_left_app. cbn [fold_left].
  now rewrite (collect_source_raised feed limit_per_source _ bad Hraised).
Qed.

(** The second of two runs over the same feeds finds every entry stored. *)
Lemma collect_news_twice (sources : list (str * str))
    (feed : str -> outcome (list entry)) (limit_per_source : Z) (w : world) :
  exists n w1 w2,
    collect_news_from sources feed limit_per_source w = (Returned n, w1)
    /\ collect_news_from sources feed limit_per_source w1 = (Returned 0, w2)
    /\ news (db w2) = news (db w1).
Proof.
  destruct (collect_news_effect sources feed limit_per_source w)
    as (added & today & w1 & Hrun & _ & _ & _ & _ & _ & _ & Hall & _).
  exists (Z.of_nat (List.length added)), w1.
  unfold collect_news_from at 2.
  rewrite collect_sources_stored by exact Hall.
  unfold bind, now, write, execute, ret. cbn [db clock_reads].
  eexists. split; [exact Hrun|]. split; reflexivity.
Qed.

End Collection.

(* ================================================================== *)
(** * Topic analysis *)

Section TopicAnalysis.

Variable lower : str -> str.
Variable clock : nat -> datetime.
Variable ollama : nat -> str -> Z -> http_result.

(** [search_news] returns the dicts of the rows its SELECT gives, none when
    the SELECT raises, and leaves the state as it was. *)
Lemma search_news_returns (query_text : str) (limit : Z) (w : world) :
  search_news lower query_text limit w
  = (Returned
       (map item_of_row
          (rows_or_none
             (Sql.search (search_pattern (lower query_text)) limit (db w)))),
     w).
Proof.
  unfold search_news, try_except, bind, fetch.
  destruct (Sql.search (search_pattern (lower query_text)) limit (db w));
    reflexivity.
Qed.

(** The WHERE clause of the search, for a pattern that is not too long and
    for one that is. *)
Lemma search_condition_in_domain (pattern : str) (r : news_row) :
  utf8_length pattern <= Sql.like_pattern_limit ->
  Sql.search_condition pattern r = Returned (pattern_matches pattern r).
Proof.
  intro Hlen.
  unfold Sql.search_condition, Sql.LIKE, Sql.LOWER, Sql.like_match,
    pattern_matches.
  destruct (Z.ltb_spec Sql.like_pattern_limit (utf8_length pattern)) as [H|_];
    [lia|].
  destruct (n_keywords r); reflexivity.
Qed.

Lemma search_condition_too_long (pattern : str) (r : news_row) :
  Sql.like_pattern_limit < utf8_length pattern ->
  Sql.search_condition pattern r = Raised Sql.pattern_error.
Proof.
  intro Hlen. unfold Sql.search_condition, Sql.LIKE, Sql.LOWER, Sql.like_match.
  destruct (Z.ltb_spec Sql.like_pattern_limit (utf8_length pattern)) as [_|H];
    [reflexivity|lia].
Qed.

Lemma where_rows_returned (cond : news_row -> outcome bool)
    (f : news_row -> bool) (rows : list news_row) :
  (forall r, cond r = Returned (f r)) ->
  Sql.where_rows cond rows = Returned (filter f rows).
Proof.
  intro Hcond. induction rows as [|r rows IH]; cbn [Sql.where_rows filter];
    [reflexivity|].
  rewrite Hcond, IH. reflexivity.
Qed.

Lemma limit_nil {A} (n : Z) : Sql.limit n (@nil A) = [].
Proof.
  unfold Sql.limit. destruct (n <? 0); [reflexivity|apply firstn_nil].
Qed.

(** The SELECT of the search, for a limit and a pattern it takes, and for
    those it refuses. *)
Lemma search_in_domain (pattern : str) (limit : Z) (d : database) :
  Sql.is_int64 limit = true ->
  utf8_length pattern <= Sql.like_pattern_limit ->
  Sql.search pattern limit d
  = Returned
      (Sql.limit limit
         (Sql.order_by_importance_published
            (filter (pattern_matches pattern) (news d)))).
Proof.
  intros Hint Hlen. unfold Sql.search, Sql.select_search. rewrite Hint.
  destruct (Z.eqb_spec limit 0) as [->|_]; [reflexivity|].
  rewrite (@where_rows_returned _ (pattern_matches pattern));
    [reflexivity|].
  intro r. now apply search_condition_in_domain.
Qed.

Lemma search_overflow (pattern : str) (limit : Z) (d : database) :
  Sql.is_int64 limit = false ->
  Sql.search pattern limit d = Raised Sql.overflow_error.
Proof. intro Hint. unfold Sql.search. now rewrite Hint. Qed.

Lemma search_too_long (pattern : str) (limit : Z) (d : database) :
  Sql.like_pattern_limit < utf8_length pattern ->
  rows_or_none (Sql.search pattern limit d) = [].
Proof.
  intro Hlen. unfold Sql.search, Sql.select_search.
  destruct (Sql.is_int64 limit); [|reflexivity].
  destruct (limit =? 0); [reflexivity|].
  destruct (news d) as [|r rows]; cbn [Sql.where_rows].
  - cbn [Sql.order_by_importance_published fold_right rows_or_none].
    apply limit_nil.
  - now rewrite search_condition_too_long.
Qed.

(** The rows the search gives are stored rows, and for a limit that is not
    negative at most that many, whether its SELECT returns or raises. *)
Lemma search_rows (pattern : str) (n : Z) (d : database) :
  (forall r, In r (rows_or_none (Sql.search pattern n d)) -> In r (news d))
  /\ (0 <= n ->
      Z.of_nat (List.length (rows_or_none (Sql.search pattern n d))) <= n).
Proof.
  destruct (Z.ltb_spec Sql.like_pattern_limit (utf8_length pattern))
    as [Hlong|Hshort].
  { rewrite search_too_long by exact Hlong. split; [intros r []|cbn; lia]. }
  destruct (Sql.is_int64 n) eqn:Hint.
  2:{ rewrite search_overflow by exact Hint. split; [intros r []|cbn; lia]. }
  rewrite search_in_domain by assumption. cbn [rows_or_none].
  destruct (select_where_order_limit (pattern_matches pattern) n (news d))
    as (Hin & _ & Hlen & _).
  split; [|exact Hlen]. intros r Hr. now apply Hin.
Qed.

(** What a run of [analyze_topic] gives and writes. It returns, whatever the
    storage engine does. The analysis and the keywords are those the model
    was asked for, on the prompt made for the topic and the rows found; the
    result and the state are told by the first write that fails. *)
Lemma analyze_topic_effect
    (storage_fault : topic_write -> option fault) (topic : str) (w : world) :
  let n := clock_reads w in
  let found :=
    rows_or_none (Sql.search (search_pattern (lower topic)) 5 (db w)) in
  let prompt := topic_prompt topic (topic_context (map item_of_row found)) in
  let count := Z.of_nat (List.length found) in
  exists analysis w1 keywords w2 r w',
    call_llm ollama prompt 1000 (snd (now clock w)) = (Returned analysis, w1)
    /\ extract_keywords ollama analysis 5 w1 = (Returned keywords, w2)
    /\ analyze_topic lower clock ollama storage_fault topic w = (Returned r, w')
    /\ llm_requests w' = llm_requests w2
    /\ let inserted :=
         Sql.insert_analysis topic analysis keywords count
           (isoformat (clock (1 + n))) (db w) in
       let counted :=
         Sql.insert_or_replace_stats AnalysesMade (ymd (clock (2 + n))) 1
           inserted in
       match storage_fault InsertAnalysis with
       | Some f =>
         r = TopicFailure topic (message f) (isoformat (clock (2 + n)))
         /\ committed w' = committed w
         /\ db w' = after_fault f (db w) (committed w)
       | None =>
         match storage_fault UpdateStats with
         | Some f =>
           r = TopicFailure topic (message f) (isoformat (clock (3 + n)))
           /\ committed w' = committed w
           /\ db w' = after_fault f inserted (committed w)
         | None =>
           match storage_fault Commit with
           | Some f =>
             r = TopicFailure topic (message f) (isoformat (clock (3 + n)))
             /\ committed w' = committed w
             /\ db w' = after_fault f counted (committed w)
           | None =>
             r = TopicAnalysis topic analysis keywords count
                   (micros (clock (3 + n)) - micros (clock n))
                   (isoformat (clock (3 + n)))
             /\ committed w' = counted
             /\ db w' = counted
           end
         end
       end.
Proof.
  intros n found prompt count.
  unfold analyze_topic, bind at 1.
  destruct (now clock w) as [start w0] eqn:Hnow.
  unfold now in Hnow. injection Hnow as <- <-. cbn [snd].
  set (w0 := {| db := db w; committed := committed w;
                clock_reads := S (clock_reads w);
                llm_requests := llm_requests w |}).
  unfold try_except, analyze_topic_try.
  unfold bind at 1. rewrite search_news_returns.
  rewrite length_map. cbn [db w0]. fold found. fold prompt. fold count.
  unfold bind at 1.
  pose proof (call_llm_committed ollama prompt 1000 w0) as Hm1.
  destruct (call_llm_returns ollama prompt 1000 w0)
    as (analysis & w1 & Hrun1 & Hd1 & Hc1).
  rewrite Hrun1 in Hm1 |- *. cbn [snd] in Hm1.
  unfold bind at 1.
  pose proof (extract_keywords_committed ollama analysis 5 w1) as Hm2.
  destruct (extract_keywords_returns ollama analysis 5 w1)
    as (keywords & w2 & Hrun2 & Hd2 & Hc2).
  rewrite Hrun2 in Hm2 |- *. cbn [snd] in Hm2.
  rewrite Hd1 in Hd2. rewrite Hc1 in Hc2. rewrite Hm1 in Hm2.
  cbn [db committed clock_reads w0] in Hd2, Hc2, Hm2.
  exists analysis, w1, keywords, w2.
  unfold execute_or_fail, commit_or_fail, fail, commit, bind, now, write,
    execute, raise, ret, with_db.
  cbn [db committed clock_reads llm_requests].
  rewrite Hd2, Hc2, Hm2. fold n.
  destruct (storage_fault InsertAnalysis) as [[e|e]|].
  1,2: eexists; eexists; split; [first [exact Hrun1|reflexivity]|];
       split; [first [exact Hrun2|reflexivity]|];
       split; [reflexivity|]; cbn [db committed llm_requests];
       repeat split.
  destruct (storage_fault UpdateStats) as [[e|e]|].
  1,2: eexists; eexists; split; [first [exact Hrun1|reflexivity]|];
       split; [first [exact Hrun2|reflexivity]|];
       split; [reflexivity|]; cbn [db committed llm_requests];
       repeat split.
  destruct (storage_fault Commit) as [[e|e]|].
  1,2: eexists; eexists; split; [first [exact Hrun1|reflexivity]|];
       split; [first [exact Hrun2|reflexivity]|];
       split; [reflexivity|]; cbn [db committed llm_requests];
       repeat split.
  eexists; eexists; split; [first [exact Hrun1|reflexivity]|];
       split; [first [exact Hrun2|reflexivity]|];
    split; [reflexivity|]; cbn [db committed llm_requests]; repeat split.
Qed.

(** A run of [analyze_topic] writes to the analyses and the counters only;
    when it rolls back, the news are those committed. *)
Lemma analyze_topic_keeps_news
    (storage_fault : topic_write -> option fault) (topic : str)
    (w w' : world) (r : topic_result) :
  news (committed w) = news (db w) ->
  news_seq (committed w) = news_seq (db w) ->
  analyze_topic lower clock ollama storage_fault topic w = (Returned r, w') ->
  news (db w') = news (db w) /\ news_seq (db w') = news_seq (db w)
  /\ news (committed w') = news (db w)
  /\ news_seq (committed w') = news_seq (db w).
Proof.
  intros Hnews Hseq Hrun.
  destruct (analyze_topic_effect storage_fault topic w)
    as (analysis & w1 & keywords & w2 & r1 & w1' & _ & _ & Hrun1 & _
        & Hresult).
  rewrite Hrun in Hrun1. injection Hrun1 as <- <-. cbv zeta in Hresult.
  destruct (storage_fault InsertAnalysis) as [[e|e]|].
  1,2: destruct Hresult as (_ & -> & ->); cbn [after_fault]; auto.
  destruct (storage_fault UpdateStats) as [[e|e]|].
  1,2: destruct Hresult as (_ & -> & ->); cbn [after_fault]; auto.
  destruct (storage_fault Commit) as [[e|e]|].
  1,2: destruct Hresult as (_ & -> & ->); cbn [after_fault]; auto.
  destruct Hresult as (_ & -> & ->). auto.
Qed.


End TopicAnalysis.

(* ================================================================== *)
(** * The constraints of the news table in every reachable state *)

Lemma unique_hash_matches_once (h : str) (rows : list news_row) :
  NoDup (map n_hash rows) ->
  (List.length (filter (fun r => Str.eqb (n_hash r) h) rows) <= 1)%nat.
Proof.
  induction rows as [|r rows IH]; simpl; intro Hnd; [lia|].
  inversion Hnd as [|x l Hnotin Hnd']; subst.
  destruct (str_eqb_spec (n_hash r) h) as [Heq|Hne]; [|now apply IH].
  simpl. specialize (IH Hnd').
  destruct (filter (fun r0 => Str.eqb (n_hash r0) h) rows) as [|r' rest] eqn:Hf;
    [simpl; lia|].
  exfalso. apply Hnotin.
  assert (Hin : In r' (filter (fun r0 => Str.eqb (n_hash r0) h) rows))
    by (rewrite Hf; now left).
  apply filter_In in Hin. destruct Hin as [Hin Hh].
  apply str_eqb_eq in Hh. rewrite Heq, <- Hh. now apply in_map.
Qed.

Section Reachable.

Variable lower : str -> str.
Variable md5_hexdigest : str -> str.
Variable clock : nat -> datetime.
Variable ollama : nat -> str -> Z -> http_result.

(** A run of [collect_news] ends on a commit. *)
Lemma collect_news_commits (sources : list (str * str))
    (feed : str -> outcome (list entry)) (limit : Z) (n : Z) (w w' : world) :
  collect_news_from lower md5_hexdigest clock sources feed limit w
  = (Returned n, w') ->
  committed w' = db w'.
Proof.
  unfold collect_news_from.
  destruct (fold_left (collect_source lower md5_hexdigest clock feed limit)
              sources (0, w)) as [total w1].
  unfold bind, commit, now, write, execute, ret. cbn.
  intro H. injection H as _ <-. reflexivity.
Qed.

(** In every state the agent reaches, the open transaction holds no write
    to the news: they are committed by the run that makes them. *)
Lemma reachable_news_committed (w : world) :
  reachable lower md5_hexdigest clock ollama w ->
  news (committed w) = news (db w)
  /\ news_seq (committed w) = news_seq (db w).
Proof.
  induction 1 as [|w sources feed limit n w' _ IH Hrun
                  |w limit n w' _ IH Hrun
                  |w storage_fault topic r w' _ IH Hrun].
  - split; reflexivity.
  - rewrite (collect_news_commits _ _ _ _ Hrun). split; reflexivity.
  - destruct (analyze_news_articles_commits _ _ _ _ Hrun) as [Hsame|Hdone].
    + rewrite Hsame. exact IH.
    + rewrite Hdone. split; reflexivity.
  - destruct IH as [Hnews Hseq].
    destruct (analyze_topic_keeps_news lower clock ollama _ _ _ Hnews Hseq
                Hrun) as (Hn & Hs & Hcn & Hcs).
    rewrite Hn, Hs, Hcn, Hcs. split; reflexivity.
Qed.

(** The primary key and the UNIQUE hash hold in every state the agent
    reaches. *)
Lemma reachable_constraints (w : world) :
  reachable lower md5_hexdigest clock ollama w -> news_constraints (db w).
Proof.
  induction 1 as [|w sources feed limit n w' Hreach IH Hrun
                  |w limit n w' Hreach IH Hrun
                  |w storage_fault topic r w' Hreach IH Hrun].
  - repeat split; constructor.
  - destruct (collect_news_effect lower md5_hexdigest clock sources feed
                limit w)
      as (added & today & w1 & Hrun1 & _ & _ & _ & _ & _ & Hc & _).
    rewrite Hrun in Hrun1. injection Hrun1 as _ ->. now apply Hc.
  - destruct (analyze_news_articles_effect clock ollama limit w
                (analyze_news_articles_returned _ _ _ _ Hrun))
      as (updates & w1 & Hrun1 & _ & Hnews & Hseq & _).
    rewrite Hrun in Hrun1. injection Hrun1 as _ ->.
    destruct (apply_updates_ids updates (news (db w))) as [Hi Hh].
    unfold news_constraints. now rewrite Hnews, Hseq, Hi, Hh.
  - destruct (reachable_news_committed Hreach) as [Hnews Hseq].
    destruct (analyze_topic_keeps_news lower clock ollama _ _ _ Hnews Hseq
                Hrun) as (Hn & Hs & _).
    unfold news_constraints. now rewrite Hn, Hs.
Qed.

(** C1. In every state the agent reaches, by any number of runs of its
    pipelines, two feed entries with the same link and title have the same
    hash and at most one row of [news] carries it. A second [collect_news]
    over the same sources, feeds and limit returns 0 and leaves the [news]
    table as the first run left it: every entry it reads is found by its
    hash. *)
Theorem collect_stores_each_article_once :
  (forall w e1 e2,
     reachable lower md5_hexdigest clock ollama w ->
     e_link e1 = e_link e2 -> e_title e1 = e_title e2 ->
     article_hash md5_hexdigest e1 = article_hash md5_hexdigest e2
     /\ (List.length
           (filter (fun r => Str.eqb (n_hash r) (article_hash md5_hexdigest e1))
                   (news (db w))) <= 1)%nat)
  /\ (forall sources feed limit_per_source w,
        exists n w1 w2,
          collect_news_from lower md5_hexdigest clock sources feed
            limit_per_source w = (Returned n, w1)
          /\ collect_news_from lower md5_hexdigest clock sources feed
               limit_per_source w1 = (Returned 0, w2)
          /\ news (db w2) = news (db w1)).
Proof.
  split.
  - intros w e1 e2 Hreach Hlink Htitle. split.
    + unfold article_hash. now rewrite Hlink, Htitle.
    + apply unique_hash_matches_once.
      now destruct (reachable_constraints Hreach) as (_ & Hh & _).
  - intros sources feed limit_per_source w. apply collect_news_twice.
Qed.

End Reachable.

(* ================================================================== *)
(** * LIKE and the search *)

Lemma like_percent (rest text : str) :
  Sql.pattern_compare (Sql.percent :: rest) text
  = Sql.pattern_compare rest text
    || match text with
       | [] => false
       | _ :: text' => Sql.pattern_compare (Sql.percent :: rest) text'
       end.
Proof. destruct text; reflexivity. Qed.

Lemma like_literal (p : char) (rest text : str) :
  (p =? Sql.percent)%N = false ->
  Sql.pattern_compare (p :: rest) text
  = match text with
    | [] => false
    | c :: text' =>
      ((p =? Sql.underscore)%N || (ascii_lower_char p =? ascii_lower_char c)%N)
      && Sql.pattern_compare rest text'
    end.
Proof. intro Hp. cbn [Sql.pattern_compare]. now rewrite Hp. Qed.

Lemma like_only_percent (text : str) : Sql.pattern_compare [Sql.percent] text = true.
Proof.
  induction text as [|c text IH]; [reflexivity|].
  rewrite like_percent. rewrite IH. apply orb_true_r.
Qed.

(** A pattern without wildcards, followed by [%], matches the texts that
    start with it, up to the case of ASCII letters. *)
Lemma like_prefix (q text : str) :
  wildcard_free q = true ->
  Sql.pattern_compare (q ++ [Sql.percent]) text
  = starts_with (ascii_lower q) (ascii_lower text).
Proof.
  revert text; induction q as [|p q IH]; intros text Hfree.
  - cbn [app ascii_lower map starts_with]. apply like_only_percent.
  - cbn [wildcard_free forallb] in Hfree.
    apply andb_true_iff in Hfree. destruct Hfree as [Hp Hfree].
    apply negb_true_iff, orb_false_iff in Hp. destruct Hp as [Hpc Hus].
    cbn [app]. rewrite like_literal by exact Hpc. rewrite Hus.
    destruct text as [|c text]; [reflexivity|].
    cbn [ascii_lower map starts_with orb]. now rewrite IH.
Qed.

(** Between two [%], it matches the texts that contain it. *)
Lemma like_contains (q text : str) :
  wildcard_free q = true ->
  Sql.pattern_compare (search_pattern q) text
  = contains (ascii_lower q) (ascii_lower text).
Proof.
  intro Hfree. unfold search_pattern.
  induction text as [|c text IH]; rewrite like_percent, like_prefix by exact Hfree.
  - reflexivity.
  - rewrite IH. reflexivity.
Qed.

Lemma ascii_lower_char_idem (c : char) :
  ascii_lower_char (ascii_lower_char c) = ascii_lower_char c.
Proof.
  unfold ascii_lower_char.
  destruct ((65 <=? c)%N && (c <=? 90)%N) eqn:Hc; [|now rewrite Hc].
  apply andb_true_iff in Hc. destruct Hc as [Hlo Hhi].
  apply N.leb_le in Hlo, Hhi.
  destruct (N.leb_spec (c + 32) 90) as [Hle|_]; [lia|].
  now rewrite andb_false_r.
Qed.

Lemma ascii_lower_idem (s : str) : ascii_lower (ascii_lower s) = ascii_lower s.
Proof.
  unfold ascii_lower. rewrite map_map. apply map_ext.
  apply ascii_lower_char_idem.
Qed.

Lemma until_nul_free (s : str) : nul_free s = true -> until_nul s = s.
Proof.
  induction s as [|c s IH]; cbn [nul_free forallb until_nul]; [reflexivity|].
  intro H. apply andb_true_iff in H. destruct H as [Hc Hs].
  apply negb_true_iff in Hc. rewrite Hc. f_equal. now apply IH.
Qed.

Lemma ascii_lower_char_nul (c : char) :
  (ascii_lower_char c =? 0)%N = (c =? 0)%N.
Proof.
  unfold ascii_lower_char.
  destruct ((65 <=? c)%N && (c <=? 90)%N) eqn:Hc; [|reflexivity].
  apply andb_true_iff in Hc. destruct Hc as [Hlo _]. apply N.leb_le in Hlo.
  destruct (N.eqb_spec (c + 32) 0) as [H|_]; [lia|].
  destruct (N.eqb_spec c 0) as [H|_]; [lia|reflexivity].
Qed.

Lemma until_nul_ascii_lower (s : str) :
  until_nul (ascii_lower s) = ascii_lower (until_nul s).
Proof.
  induction s as [|c s IH]; [reflexivity|].
  cbn [ascii_lower map until_nul]. rewrite ascii_lower_char_nul.
  destruct (c =? 0)%N; [reflexivity|].
  cbn [map]. f_equal. exact IH.
Qed.

Lemma nul_free_app (a b : str) :
  nul_free (a ++ b) = nul_free a && nul_free b.
Proof. apply forallb_app. Qed.

Lemma search_pattern_nul_free (q : str) :
  nul_free q = true -> until_nul (search_pattern q) = search_pattern q.
Proof.
  intro Hq. apply until_nul_free. unfold search_pattern.
  change (nul_free ([Sql.percent] ++ q ++ [Sql.percent]) = true).
  rewrite !nul_free_app, Hq. reflexivity.
Qed.

Section Search.

Variable lower : str -> str.

(** For a query without wildcards and without NUL, the WHERE clause is
    containment of the query in what SQLite sees of a text. *)
Lemma search_condition_like (query_text : str) (r : news_row) :
  wildcard_free (lower query_text) = true ->
  nul_free (lower query_text) = true ->
  pattern_matches (search_pattern (lower query_text)) r
  = like_matches lower query_text r.
Proof.
  intros Hfree Hnul.
  unfold pattern_matches, like_matches, sql_folded.
  rewrite search_pattern_nul_free by exact Hnul.
  rewrite !until_nul_ascii_lower.
  rewrite !like_contains by exact Hfree.
  rewrite !ascii_lower_idem.
  destruct (n_keywords r) as [k|]; [|reflexivity].
  rewrite until_nul_ascii_lower, like_contains by exact Hfree.
  now rewrite ascii_lower_idem.
Qed.

(** Over texts without NUL whose cased letters are all ASCII, that is
    containment whatever the case. *)
Lemma like_matches_whatever_case (query_text : str) (r : news_row) :
  ascii_lower (lower query_text) = lower query_text ->
  row_ascii_cased lower r -> row_nul_free r ->
  like_matches lower query_text r = matches_query lower query_text r.
Proof.
  intros Hq (Ht & Hc & Hcat & Hk) (Nt & Nc & Ncat & Nk).
  unfold like_matches, matches_query, sql_folded.
  rewrite Hq, !until_nul_free by assumption.
  unfold ascii_cased in Ht, Hc, Hcat. rewrite Ht, Hc, Hcat.
  destruct (n_keywords r) as [k|]; [|reflexivity].
  rewrite until_nul_free by now apply Nk.
  unfold ascii_cased in Hk. now rewrite (Hk k eq_refl).
Qed.

Lemma filter_ext_in_rows (f g : news_row -> bool) (rows : list news_row) :
  Forall (fun r => f r = g r) rows -> filter f rows = filter g rows.
Proof.
  induction 1 as [|r rows Hr _ IH]; simpl; [reflexivity|].
  now rewrite Hr, IH.
Qed.

(** C4 (as the code has it). For a limit that fits a 64-bit integer and a
    query whose lower-cased form has no [%], no [_] and no NUL and makes a
    pattern of at most 50000 bytes, [search_news] returns the dicts of the
    articles whose title, content, category or keywords contain the
    lower-cased query, each text read up to its first NUL and only ASCII
    letters counting as the same in both cases; over texts without NUL whose
    cased letters are all ASCII that is containment whatever the case. They
    come ordered by importance descending and then by [published]
    descending, cut after the first [limit] of them when the limit is not
    negative, the rows cut off coming after the rows returned, and all of
    them when the limit is negative or large enough. With a limit that does
    not fit 64 bits, or a longer pattern, [search_news] returns no result.
    [search_news] has no ceiling of its own: the ceiling of 50 is put by
    [api_search] on the limit it passes; it bounds the result for every
    requested limit that is not negative, and a requested limit below -2^63
    gives no result. *)
Theorem search_news_matches_ordered_limited (query_text : str) (limit : Z)
    (w : world) :
  let q := lower query_text in
  let matching := filter (like_matches lower query_text) (news (db w)) in
  (Sql.is_int64 limit = false ->
   search_news lower query_text limit w = (Returned [], w))
  /\ (Sql.like_pattern_limit < utf8_length (search_pattern q) ->
      search_news lower query_text limit w = (Returned [], w))
  /\ (Sql.is_int64 limit = true ->
      utf8_length (search_pattern q) <= Sql.like_pattern_limit ->
      wildcard_free q = true -> nul_free q = true ->
      exists rows cut,
        search_news lower query_text limit w
        = (Returned (map item_of_row rows), w)
        /\ (forall r, In r rows ->
              In r (news (db w)) /\ like_matches lower query_text r = true)
        /\ StronglySorted importance_then_published_desc rows
        /\ (0 <= limit ->
            Z.of_nat (List.length rows)
            = Z.min limit (Z.of_nat (List.length matching)))
        /\ Permutation (rows ++ cut) matching
        /\ (forall r r', In r rows -> In r' cut ->
              importance_then_published_desc r r')
        /\ (limit < 0 \/ Z.of_nat (List.length matching) <= limit ->
            cut = []))
  /\ (forall r,
        ascii_lower q = q -> row_ascii_cased lower r -> row_nul_free r ->
        like_matches lower query_text r = matches_query lower query_text r)
  /\ (forall requested, 0 <= requested ->
        exists items,
          api_search lower query_text requested w = (Returned items, w)
          /\ Z.of_nat (List.length items) <= Z.min requested 50)
  /\ (forall requested, requested < - 2 ^ 63 ->
        api_search lower query_text requested w = (Returned [], w)).
Proof.
  intros q matching.
  split; [|split; [|split; [|split; [|split]]]].
  - intro Hint. rewrite search_news_returns.
    now rewrite search_overflow.
  - intro Hlong. rewrite search_news_returns.
    now rewrite search_too_long.
  - intros Hint Hlen Hfree Hnul.
    assert (Hfilter :
      filter (pattern_matches (search_pattern q)) (news (db w))
      = matching).
    { apply filter_ext_in_rows. apply Forall_forall. intros r _.
      now apply search_condition_like. }
    destruct (select_where_order_limit (like_matches lower query_text) limit
                (news (db w))) as (Hin & Hsorted & _ & _ & _).
    fold matching in Hin, Hsorted.
    destruct (@limit_cut _ _ limit _ (order_by_sorted matching))
      as (cut & Hsplit & Hcount & Hbefore & Hall).
    rewrite (Permutation_length (order_by_perm matching)) in Hcount, Hall.
    exists (Sql.limit limit (Sql.order_by_importance_published matching)), cut.
    split.
    { rewrite search_news_returns. fold q.
      rewrite search_in_domain by assumption.
      cbn [rows_or_none]. now rewrite Hfilter. }
    split; [exact Hin|]. split; [exact Hsorted|]. split; [exact Hcount|].
    split; [rewrite <- Hsplit; apply order_by_perm|].
    split; [exact Hbefore|exact Hall].
  - intros r Hq. now apply like_matches_whatever_case.
  - intros requested Hreq. unfold api_search. rewrite search_news_returns.
    eexists. split; [reflexivity|]. rewrite length_map.
    apply search_rows. lia.
  - intros requested Hreq. unfold api_search. rewrite search_news_returns.
    rewrite search_overflow; [reflexivity|].
    unfold Sql.is_int64. apply andb_false_iff. left. apply Z.leb_gt. lia.
Qed.

End Search.

(* ================================================================== *)
(** * Runs on examples *)

Lemma search_news_matches_ordered_limited_witness :
  let rows := [ example_row 1 (u "AI news") 0.7%float (u "2024-05-01") None;
                example_row 2 (u "Курс рубля") 0.8%float (u "2024-05-02") None;
                example_row 3 (u "OpenAI") 0.9%float (u "2024-05-03") None ] in
  let w := example_world (example_database rows []) in
  Sql.is_int64 10 = true
  /\ utf8_length (search_pattern (lower_latin_cyrillic (u "ai")))
     <= Sql.like_pattern_limit
  /\ wildcard_free (lower_latin_cyrillic (u "ai")) = true
  /\ nul_free (lower_latin_cyrillic (u "ai")) = true
  /\ exists found,
       search_news lower_latin_cyrillic (u "ai") 10 w
       = (Returned (map item_of_row found), w)
       /\ Z.of_nat (List.length found) = 2.
Proof.
  intros rows w.
  assert (Hlen : utf8_length (search_pattern (lower_latin_cyrillic (u "ai")))
                 <= Sql.like_pattern_limit) by (vm_compute; discriminate).
  assert (Hfree : wildcard_free (lower_latin_cyrillic (u "ai")) = true)
    by (vm_compute; reflexivity).
  assert (Hnul : nul_free (lower_latin_cyrillic (u "ai")) = true)
    by (vm_compute; reflexivity).
  split; [reflexivity|]. split; [exact Hlen|]. split; [exact Hfree|].
  split; [exact Hnul|].
  destruct (@search_news_matches_ordered_limited lower_latin_cyrillic
              (u "ai") 10 w) as (_ & _ & Hdomain & _).
  destruct (Hdomain eq_refl Hlen Hfree Hnul)
    as (found & cut & Hrun & _ & _ & Hcount & _).
  exists found. split; [exact Hrun|].
  rewrite Hcount by lia. vm_compute. reflexivity.
Defined.

(** C4 (the claim as stated fails). With sixty stored articles that contain
    "a", a search with the limit 60 returns sixty results, and so does
    [api_search] asked for the limit -1: over the ceiling of 50. For the
    query "a_c" the article titled "abc" is returned, though it does not
    contain the query. For the query "путин" the article titled
    "Путин заявил" is not returned, though it contains the query when case
    is ignored. *)
Lemma search_news_claim_fails :
  let lower := lower_latin_cyrillic in
  let many := example_world (example_database sixty_rows []) in
  let abc := example_row 1 (u "abc") 0.5%float (u "2024-05-01") None in
  let putin := example_row 1 (u "Путин заявил") 0.5%float (u "2024-05-01") None in
  (exists items,
     search_news lower (u "a") 60 many = (Returned items, many)
     /\ 50 < Z.of_nat (List.length items))
  /\ (exists items,
        api_search lower (u "a") (-1) many = (Returned items, many)
        /\ 50 < Z.of_nat (List.length items))
  /\ (search_news lower (u "a_c") 10 (example_world (example_database [abc] []))
      = (Returned [item_of_row abc], example_world (example_database [abc] []))
      /\ matches_query lower (u "a_c") abc = false)
  /\ (search_news lower (u "путин") 10
        (example_world (example_database [putin] []))
      = (Returned [], example_world (example_database [putin] []))
      /\ matches_query lower (u "путин") putin = true).
Proof.
  intros lower many abc putin. split; [|split; [|split]].
  - rewrite search_news_returns. eexists. split; [reflexivity|].
    vm_compute. reflexivity.
  - unfold api_search. rewrite search_news_returns.
    eexists. split; [reflexivity|]. vm_compute. reflexivity.
  - split; vm_compute; reflexivity.
  - split; vm_compute; reflexivity.
Qed.

Lemma collect_isolates_failing_source_witness :
  let e := example_entry (u "https://tass.ru/1") (u "Новость дня") in
  In (u "https://lenta.ru/rss/news", u "Лента.ру") rss_sources
  /\ exists total w',
       collect_news lower_latin_cyrillic example_hash example_clock
         example_feed 3 initial_world = (Returned total, w')
       /\ stored (article_hash example_hash e) (db w').
Proof.
  intro e.
  assert (Hbad : In (u "https://lenta.ru/rss/news", u "Лента.ру") rss_sources)
    by (left; reflexivity).
  split; [exact Hbad|].
  destruct (@collect_isolates_failing_source lower_latin_cyrillic example_hash
              example_clock rss_sources example_feed 3 initial_world
              (u "https://lenta.ru/rss/news", u "Лента.ру")
              (u "not well-formed (invalid token)") Hbad)
    as (total & w' & Hrun & Hstored & _).
  - vm_compute. reflexivity.
  - exists total, w'. split; [exact Hrun|].
    apply (Hstored (u "https://tass.ru/rss/v2.xml", u "ТАСС")).
    + right. right. left. reflexivity.
    + exists [e]. split; [vm_compute; reflexivity|].
      left. reflexivity.
Defined.

Lemma collect_stores_each_article_once_witness :
  let e1 := example_entry (u "https://tass.ru/1") (u "Новость дня") in
  let e2 :=
    {| e_link := Some (u "https://tass.ru/1"); e_title := Some (u "Новость дня");
       e_summary := None; e_description := Some (u "Другое описание");
       e_published := None |} in
  e_link e1 = e_link e2 /\ e_title e1 = e_title e2
  /\ exists w,
       reachable lower_latin_cyrillic example_hash example_clock
         example_ollama w
       /\ (List.length
             (filter (fun r => Str.eqb (n_hash r) (article_hash example_hash e1))
                     (news (db w))) <= 1)%nat.
Proof.
  intros e1 e2.
  destruct (@collect_stores_each_article_once lower_latin_cyrillic example_hash
              example_clock example_ollama) as [Honce Htwice].
  destruct (Htwice rss_sources example_feed 3 initial_world)
    as (n & w1 & w2 & Hrun & _ & _).
  assert (Hreach : reachable lower_latin_cyrillic example_hash example_clock
                     example_ollama w1).
  { eapply reachable_collect; [apply reachable_initial|exact Hrun]. }
  split; [reflexivity|]. split; [reflexivity|].
  exists w1. split; [exact Hreach|].
  exact (proj2 (Honce w1 e1 e2 Hreach eq_refl eq_refl)).
Defined.

(* ================================================================== *)
(** * Texts: prefixes, stripping, splitting *)

Lemma starts_with_app (p rest : str) : starts_with p (p ++ rest) = true.
Proof.
  induction p as [|c p IH]; simpl; [reflexivity|].
  now rewrite N.eqb_refl, IH.
Qed.

Lemma starts_with_longer (p s rest : str) :
  starts_with p s = true -> starts_with p (s ++ rest) = true.
Proof.
  revert s; induction p as [|c p IH]; intros [|d s]; simpl; try congruence.
  intro H. apply andb_true_iff in H. destruct H as [Hc Hp].
  now rewrite Hc, IH.
Qed.

Lemma contains_app_r (needle pre s : str) :
  contains needle s = true -> contains needle (pre ++ s) = true.
Proof.
  intro H. induction pre as [|c pre IH]; [exact H|].
  cbn [app contains]. rewrite IH. apply orb_true_r.
Qed.

Lemma contains_app_l (needle s post : str) :
  contains needle s = true -> contains needle (s ++ post) = true.
Proof.
  induction s as [|c s IH]; cbn [app contains]; intro H.
  - rewrite orb_false_r in H. destruct needle; [|discriminate].
    destruct post; reflexivity.
  - apply orb_true_iff in H. destruct H as [H|H].
    + pose proof (starts_with_longer _ (c :: s) post H) as Hl.
      cbn [app] in Hl. now rewrite Hl.
    + rewrite (IH H). apply orb_true_r.
Qed.

(** A text occurs in every text built around it. *)
Lemma contains_middle (needle pre post : str) :
  contains needle (pre ++ needle ++ post) = true.
Proof.
  apply contains_app_r. destruct needle as [|c n].
  - destruct post; reflexivity.
  - pose proof (starts_with_app (c :: n) post) as Hl.
    cbn [app contains] in Hl |- *. now rewrite Hl.
Qed.

Lemma lstrip_split (s : str) :
  exists pre, s = pre ++ lstrip s /\ forallb is_space pre = true.
Proof.
  induction s as [|c s (pre & Hs & Hpre)]; [now exists []|].
  cbn [lstrip]. destruct (is_space c) eqn:Hc.
  - exists (c :: pre). cbn. rewrite Hc, Hpre. split; [now f_equal|reflexivity].
  - now exists [].
Qed.

Lemma lstrip_head (s : str) :
  match lstrip s with
  | c :: _ => is_space c = false
  | [] => True
  end.
Proof.
  induction s as [|c s IH]; cbn [lstrip]; [exact I|].
  destruct (is_space c) eqn:Hc; [exact IH|exact Hc].
Qed.

Lemma rstrip_split (s : str) :
  exists post, s = rstrip s ++ post /\ forallb is_space post = true.
Proof.
  unfold rstrip. destruct (lstrip_split (rev s)) as (pre & Hs & Hpre).
  exists (rev pre). split.
  - rewrite <- rev_app_distr, <- Hs. now rewrite rev_involutive.
  - rewrite forallb_forall in *. intros c Hc. apply Hpre. now apply in_rev.
Qed.

(** [strip] takes a piece out of the text, between whitespace. *)
Lemma strip_split (s : str) :
  exists pre post, s = pre ++ strip s ++ post.
Proof.
  unfold strip. destruct (lstrip_split s) as (pre & Hs & _).
  destruct (rstrip_split (lstrip s)) as (post & Hr & _).
  exists pre, post. now rewrite <- Hr.
Qed.

(** And neither end of the piece is whitespace. *)
Lemma strip_ends (s : str) : space_at_ends (strip s) = false.
Proof.
  unfold space_at_ends, strip. apply orb_false_iff. split.
  - destruct (rstrip_split (lstrip s)) as (post & Hr & _).
    pose proof (lstrip_head s) as Hh. rewrite Hr in Hh.
    destruct (rstrip (lstrip s)) as [|c t]; [reflexivity|exact Hh].
  - unfold rstrip. rewrite rev_involutive.
    pose proof (lstrip_head (rev (lstrip s))) as Hh.
    destruct (lstrip (rev (lstrip s))) as [|c t]; [reflexivity|exact Hh].
Qed.

Lemma strip_keeps_absent (c : char) (s : str) :
  ~ In c s -> ~ In c (strip s).
Proof.
  destruct (strip_split s) as (pre & post & Hs). intros Hnot Hin.
  apply Hnot. rewrite Hs. apply in_or_app. right. apply in_or_app. now left.
Qed.

Lemma strip_no_blank_line (s : str) :
  has_blank_line s = false -> has_blank_line (strip s) = false.
Proof.
  unfold has_blank_line. destruct (strip_split s) as (pre & post & Hs).
  intro Hnone.
  destruct (contains [newline; newline] (strip s)) eqn:Hc; [|reflexivity].
  rewrite Hs in Hnone.
  now rewrite (contains_app_r _ pre _ (contains_app_l _ _ post Hc)) in Hnone.
Qed.

(** No piece of [s.split(sep)] holds the separator. *)
Lemma split_pieces (sep : char) (s : str) :
  split sep s <> [] /\ Forall (fun piece => ~ In sep piece) (split sep s).
Proof.
  induction s as [|c s [Hne IH]]; cbn [split].
  - split; [discriminate|]. constructor; [intros []|constructor].
  - destruct (split sep s) as [|cur rest]; [congruence|].
    inversion IH as [|x l Hcur Hrest]; subst.
    destruct (N.eqb_spec c sep) as [Heq|Hneq].
    + split; [discriminate|]. constructor; [intros []|exact IH].
    + split; [discriminate|]. constructor; [|exact Hrest].
      intros [Hin|Hin]; [now apply Hneq|now apply Hcur].
Qed.

Lemma collapse_newlines_head (c : char) (s : str) :
  exists t, collapse_newlines (c :: s) = c :: t.
Proof.
  revert c; induction s as [|d s IH]; intro c; cbn [collapse_newlines].
  - cbn. rewrite andb_false_r. now eexists.
  - destruct ((c =? newline)%N && starts_with nl (d :: s)) eqn:Hrun;
      [|now eexists].
    apply andb_true_iff in Hrun. destruct Hrun as [Hc Hd].
    unfold nl in Hd. cbn [starts_with] in Hd. rewrite andb_true_r in Hd.
    apply N.eqb_eq in Hc, Hd. subst c d. apply IH.
Qed.

(** After [re.sub(r'\n+', '\n', s)] no two line feeds stand in a row. *)
Lemma collapse_newlines_no_blank_line (s : str) :
  has_blank_line (collapse_newlines s) = false.
Proof.
  unfold has_blank_line.
  induction s as [|c s IH]; [reflexivity|].
  cbn [collapse_newlines].
  destruct ((c =? newline)%N && starts_with nl s) eqn:Hrun; [exact IH|].
  cbn [contains]. rewrite IH, orb_false_r.
  cbn [starts_with].
  destruct (N.eqb_spec newline c) as [<-|_]; [|reflexivity].
  rewrite N.eqb_refl in Hrun. cbn [andb] in Hrun |- *.
  destruct s as [|d s]; [reflexivity|].
  destruct (collapse_newlines_head d s) as (t & ->).
  unfold nl in Hrun. cbn [starts_with] in Hrun |- *. exact Hrun.
Qed.

Lemma slice_to_prefix {A} (n : Z) (l : list A) :
  exists rest, l = slice_to n l ++ rest.
Proof.
  unfold slice_to. destruct (n <? 0).
  - eexists. symmetry. apply firstn_skipn.
  - eexists. symmetry. apply firstn_skipn.
Qed.

Lemma slice_to_length {A} (n : Z) (l : list A) :
  0 <= n -> Z.of_nat (List.length (slice_to n l)) <= n.
Proof.
  intro Hn. unfold slice_to. destruct (Z.ltb_spec n 0) as [Hneg|_]; [lia|].
  rewrite length_firstn. lia.
Qed.

Lemma slice_to_incl {A} (n : Z) (l : list A) (x : A) :
  In x (slice_to n l) -> In x l.
Proof.
  destruct (slice_to_prefix n l) as [rest Hrest]. intro Hin.
  rewrite Hrest. apply in_or_app. now left.
Qed.

Lemma parse_keywords_shape (items : list str) :
  Forall (fun item => ~ In comma item) items ->
  Forall (fun k => 1 < len k /\ space_at_ends k = false /\ ~ In comma k)
    (parse_keywords items).
Proof.
  induction 1 as [|item items Hitem _ IH]; cbn [parse_keywords]; [constructor|].
  destruct (negb (Str.eqb (strip item) []) && (1 <? len (strip item))) eqn:Hk;
    [|exact IH].
  constructor; [|exact IH].
  apply andb_true_iff in Hk. destruct Hk as [_ Hlen].
  apply Z.ltb_lt in Hlen.
  split; [exact Hlen|]. split; [apply strip_ends|now apply strip_keeps_absent].
Qed.

(* ================================================================== *)
(** * The LLM client *)

Lemma error_text_wrapped (message : str) :
  is_error_text (u "[Ошибка: " ++ message ++ u "]") = true.
Proof.
  unfold is_error_text. rewrite starts_with_app. cbn [andb].
  rewrite !rev_app_distr, <- app_assoc.
  change (rev (u "]")) with (u "]"). apply starts_with_app.
Qed.

Section LlmClient.

Variable ollama : nat -> str -> Z -> http_result.

(** [call_llm] in full: one request is logged, whatever comes back. *)
Lemma call_llm_run (prompt : str) (max_tokens : Z) (w : world) :
  exists text,
    call_llm ollama prompt max_tokens w
    = (Returned text,
       {| db := db w; committed := committed w;
          clock_reads := clock_reads w;
          llm_requests := llm_requests w ++ [(prompt, max_tokens)] |})
    /\ match ollama (List.length (llm_requests w)) prompt max_tokens with
       | HttpResponse status_code response =>
         if status_code =? 200
         then text = strip (collapse_newlines (strip (get_or response [])))
         else is_error_text text = true
       | _ => is_error_text text = true
       end.
Proof.
  unfold call_llm.
  destruct (ollama (List.length (llm_requests w)) prompt max_tokens)
    as [code response| |message].
  - destruct (code =? 200); eexists; (split; [reflexivity|]).
    + reflexivity.
    + apply error_text_wrapped.
  - eexists. split; [reflexivity|]. vm_compute. reflexivity.
  - eexists. split; [reflexivity|]. apply error_text_wrapped.
Qed.

(** X1. [call_llm] never raises and sends exactly one request, leaving the
    database and the clock alone. Whenever the request does not come back
    with status 200 (another status, a timeout, any other exception), the
    text returned is an error text: it opens with "[Ошибка: " and closes
    with "]". *)
Theorem call_llm_failure_gives_error_text (prompt : str) (max_tokens : Z)
    (w : world) :
  exists text,
    call_llm ollama prompt max_tokens w
    = (Returned text,
       {| db := db w; committed := committed w;
          clock_reads := clock_reads w;
          llm_requests := llm_requests w ++ [(prompt, max_tokens)] |})
    /\ ((forall response,
           ollama (List.length (llm_requests w)) prompt max_tokens
           <> HttpResponse 200 response) ->
        is_error_text text = true).
Proof.
  destruct (call_llm_run prompt max_tokens w) as (text & Hrun & Hcase).
  exists text. split; [exact Hrun|]. intro Hfailed.
  destruct (ollama (List.length (llm_requests w)) prompt max_tokens)
    as [code response| |message]; try exact Hcase.
  destruct (Z.eqb_spec code 200) as [->|_]; [|exact Hcase].
  exfalso. now apply (Hfailed response).
Qed.

(** X2. When the request comes back with status 200, the text returned has
    no whitespace at either end and no two line feeds in a row; an answer
    without a "response" field gives the empty text, and no error text. *)
Theorem call_llm_answer_is_clean (prompt : str) (max_tokens : Z) (w : world)
    (response : option str) :
  ollama (List.length (llm_requests w)) prompt max_tokens
  = HttpResponse 200 response ->
  exists text w',
    call_llm ollama prompt max_tokens w = (Returned text, w')
    /\ space_at_ends text = false
    /\ has_blank_line text = false
    /\ (response = None -> text = []).
Proof.
  intro Hanswer.
  destruct (call_llm_run prompt max_tokens w) as (text & Hrun & Hcase).
  rewrite Hanswer in Hcase. cbn in Hcase. subst text.
  eexists. eexists. split; [exact Hrun|].
  split; [apply strip_ends|]. split.
  - apply strip_no_blank_line, collapse_newlines_no_blank_line.
  - intros ->. reflexivity.
Qed.

(** X3. [extract_keywords] never raises and sends at most one request, none
    for a text of fewer than 20 characters, for which it gives no keyword.
    Every keyword it gives is longer than one character, has no whitespace
    at either end and holds no comma; there are at most [max_keywords] of
    them when [max_keywords] is not negative. *)
Theorem extract_keywords_shape (text : str) (max_keywords : Z) (w : world) :
  exists keywords w',
    extract_keywords ollama text max_keywords w = (Returned keywords, w')
    /\ db w' = db w
    /\ (len text < 20 -> keywords = [] /\ w' = w)
    /\ (List.length (llm_requests w') <= List.length (llm_requests w) + 1)%nat
    /\ Forall (fun k => 1 < len k /\ space_at_ends k = false /\ ~ In comma k)
         keywords
    /\ (0 <= max_keywords -> Z.of_nat (List.length keywords) <= max_keywords).
Proof.
  unfold extract_keywords. destruct (Z.ltb_spec (len text) 20) as [Hshort|Hlong].
  - exists [], w. split; [reflexivity|]. split; [reflexivity|].
    split; [now split|]. split; [lia|]. split; [constructor|]. cbn. lia.
  - unfold bind.
    match goal with |- context [call_llm ollama ?p ?n w] =>
      destruct (call_llm_run p n w) as (response & -> & _) end.
    eexists. eexists. split; [reflexivity|]. cbn [db llm_requests].
    split; [reflexivity|]. split; [lia|].
    split; [rewrite length_app; cbn; lia|]. split.
    + apply Forall_forall. intros k Hk. apply slice_to_incl in Hk.
      pose proof (parse_keywords_shape
                    (proj2 (split_pieces comma response))) as Hshape.
      rewrite Forall_forall in Hshape. now apply Hshape.
    + apply slice_to_length.
Qed.

(** X4. [summarize_text] never raises and sends at most one request, with
    a prompt that holds at most the first 800 characters of the text. For a
    [max_length] that is not negative the summary has at most [max_length]
    characters, or is the text itself when that has fewer than 50. *)
Theorem summarize_text_bounded (text : str) (max_length : Z) (w : world) :
  exists summary w',
    summarize_text ollama text max_length w = (Returned summary, w')
    /\ db w' = db w
    /\ (len text < 50 /\ summary = text /\ w' = w
        \/ 50 <= len text
           /\ (0 <= max_length -> len summary <= max_length)
           /\ exists prompt,
                llm_requests w' = llm_requests w ++ [(prompt, 100)]
                /\ len prompt <= 865).
Proof.
  unfold summarize_text. destruct (Z.ltb_spec (len text) 50) as [Hshort|Hlong].
  - exists text, w. split; [reflexivity|]. split; [reflexivity|]. now left.
  - unfold bind.
    match goal with |- context [call_llm ollama ?p ?n w] =>
      destruct (call_llm_run p n w) as (answer & -> & _) end.
    eexists. eexists. split; [reflexivity|]. cbn [db llm_requests].
    split; [reflexivity|]. right. split; [exact Hlong|]. split.
    + apply slice_to_length.
    + eexists. split; [reflexivity|].
      unfold len. rewrite !length_app.
      pose proof (@slice_to_length _ 800 text ltac:(lia)) as Hslice.
      change (List.length (u "Создай краткое резюме текста (1-2 предложения):"))
        with 47%nat.
      change (List.length (u "ТЕКСТ:")) with 6%nat.
      change (List.length (u "РЕЗЮМЕ:")) with 7%nat.
      change (List.length nl) with 1%nat. lia.
Qed.

End LlmClient.

(* ================================================================== *)
(** * The counters of a day *)

Lemma find_other_date (date other : str) (row : stats_row)
    (rows : list stats_row) :
  other <> date -> s_date row = date ->
  find (fun r => Str.eqb (s_date r) other)
    (filter (fun r => negb (Str.eqb (s_date r) date)) rows ++ [row])
  = find (fun r => Str.eqb (s_date r) other) rows.
Proof.
  intros Hne Hrow. induction rows as [|r rows IH]; cbn [filter app find].
  - rewrite Hrow. apply str_eqb_neq in Hne.
    destruct (str_eqb_spec date other) as [Heq|_]; [|reflexivity].
    now rewrite Heq, str_eqb_refl in Hne.
  - destruct (str_eqb_spec (s_date r) date) as [Heq|Hnd]; cbn [negb].
    + rewrite IH. destruct (str_eqb_spec (s_date r) other) as [Heq'|_];
        [|reflexivity].
      exfalso. apply Hne. now rewrite <- Heq', Heq.
    + cbn [app find]. now rewrite IH.
Qed.

Lemma dates_after_delete (date : str) (rows : list stats_row) :
  NoDup (map s_date rows) ->
  NoDup (map s_date
           (filter (fun r => negb (Str.eqb (s_date r) date)) rows))
  /\ ~ In date
         (map s_date (filter (fun r => negb (Str.eqb (s_date r) date)) rows)).
Proof.
  intro Hnd. split; [now apply nodup_map_filter|].
  intro Hin. apply in_map_iff in Hin. destruct Hin as (r & Hr & Hin).
  apply filter_In in Hin. destruct Hin as [_ Hneq].
  now rewrite Hr, str_eqb_refl in Hneq.
Qed.

(** X5. What each counter statement, [INSERT OR REPLACE INTO stats (date,
    <column>) ...], does to the table: for its date, the named counter
    becomes its old value (0 without a row) plus the delta and the two other
    counters become 0; the counters of every other date are as before; the
    table keeps one row per date; no other table is touched. *)
Theorem stats_statement_replaces_row (c : counter) (date : str) (delta : Z)
    (d : database) :
  let d' := Sql.insert_or_replace_stats c date delta d in
  (forall c',
     Sql.select_counter c' date d'
     = if counter_eqb c c' then Sql.select_counter c date d + delta else 0)
  /\ (forall other c', other <> date ->
        Sql.select_counter c' other d' = Sql.select_counter c' other d)
  /\ (NoDup (map s_date (stats d)) -> NoDup (map s_date (stats d')))
  /\ news d' = news d /\ analyses d' = analyses d.
Proof.
  intro d'. split; [|split; [|split; [|split; reflexivity]]].
  - intro c'. subst d'. rewrite insert_or_replace_stats_counters.
    destruct c, c'; reflexivity.
  - intros other c' Hne. subst d'.
    unfold Sql.insert_or_replace_stats, Sql.select_counter. cbn [stats with_stats].
    rewrite find_other_date; [reflexivity|exact Hne|apply new_stats_row_date].
  - intro Hnd. subst d'. unfold Sql.insert_or_replace_stats.
    cbn [stats with_stats]. rewrite map_app.
    destruct (dates_after_delete date (stats d) Hnd) as [Hkept Hgone].
    apply NoDup_app; [exact Hkept|repeat constructor; intros []|].
    intros x Hx [Hd|[]]. cbn in Hd. rewrite new_stats_row_date in Hd.
    subst x. now apply Hgone.
Qed.

(* ================================================================== *)
(** * Duplicates by concatenation, and the empty query *)

Section MoreOnCollectionAndSearch.

Variable lower : str -> str.
Variable md5_hexdigest : str -> str.
Variable clock : nat -> datetime.

(** X6. The duplicate test sees only the link followed by the title: an
    entry whose link and title, put together, read as those of a stored
    entry is skipped as a duplicate, also when its link and its title are
    both different (as for the links "ab", "a" and the titles "c", "bc"),
    and an entry without link and title counts as one with empty ones. *)
Theorem collect_skips_equal_concatenation (source_name : str) (e1 e2 : entry)
    (w : world) :
  get_or (e_link e1) [] ++ get_or (e_title e1) []
  = get_or (e_link e2) [] ++ get_or (e_title e2) [] ->
  stored (article_hash md5_hexdigest e1) (db w) ->
  collect_entry lower md5_hexdigest clock source_name e2 w
  = (Returned false, w).
Proof.
  intros Hsame Hstored. apply collect_entry_stored.
  unfold article_hash in *. now rewrite <- Hsame.
Qed.

Lemma like_two_percents (text : str) :
  Sql.pattern_compare [Sql.percent; Sql.percent] text = true.
Proof.
  rewrite like_percent, like_only_percent. reflexivity.
Qed.

Lemma filter_all {A} (f : A -> bool) (l : list A) :
  (forall x, In x l -> f x = true) -> filter f l = l.
Proof.
  induction l as [|x l IH]; cbn [filter]; intro Hall; [reflexivity|].
  rewrite (Hall x (or_introl eq_refl)). f_equal.
  apply IH. intros y Hy. apply Hall. now right.
Qed.

(** X7. The empty query matches every article: for a limit that fits a
    64-bit integer, [search_news] gives the dicts of the stored articles by
    importance descending and then [published] descending, the first
    [limit] of them in that order when the limit is not negative, and all
    of them when it is negative or large enough. For a limit that does not
    fit 64 bits it gives no result. *)
Theorem search_news_empty_query_matches_all (limit : Z) (w : world) :
  lower [] = [] ->
  (Sql.is_int64 limit = false ->
   search_news lower [] limit w = (Returned [], w))
  /\ (Sql.is_int64 limit = true ->
      exists rows cut,
        search_news lower [] limit w = (Returned (map item_of_row rows), w)
        /\ StronglySorted importance_then_published_desc rows
        /\ Permutation (rows ++ cut) (news (db w))
        /\ (forall r r', In r rows -> In r' cut ->
              importance_then_published_desc r r')
        /\ (0 <= limit ->
            Z.of_nat (List.length rows)
            = Z.min limit (Z.of_nat (List.length (news (db w)))))
        /\ (limit < 0 \/ Z.of_nat (List.length (news (db w))) <= limit ->
            cut = [])).
Proof.
  intro Hlower. split.
  - intro Hint. rewrite search_news_returns. now rewrite search_overflow.
  - intro Hint.
    destruct (@limit_cut _ _ limit _ (order_by_sorted (news (db w))))
      as (cut & Hsplit & Hcount & Hbefore & Hall).
    rewrite (Permutation_length (order_by_perm (news (db w))))
      in Hcount, Hall.
    exists (Sql.limit limit (Sql.order_by_importance_published (news (db w)))),
      cut.
    split.
    { rewrite search_news_returns, Hlower.
      rewrite search_in_domain;
        [|exact Hint|vm_compute; discriminate].
      cbn [rows_or_none].
      rewrite filter_all; [reflexivity|].
      intros r _. unfold pattern_matches.
      change (until_nul (search_pattern [])) with [Sql.percent; Sql.percent].
      now rewrite like_two_percents. }
    split; [apply limit_sorted, order_by_sorted|].
    split; [rewrite <- Hsplit; apply order_by_perm|].
    split; [exact Hbefore|]. split; [exact Hcount|exact Hall].
Qed.

End MoreOnCollectionAndSearch.

(* ================================================================== *)
(** * The rows of every reachable state *)

Section RowsKept.

Variable lower : str -> str.
Variable md5_hexdigest : str -> str.
Variable clock : nat -> datetime.
Variable ollama : nat -> str -> Z -> http_result.

Lemma categorize_in_table (text : str) :
  _categorize_text lower text = default_category
  \/ In (_categorize_text lower text) (map fst categories).
Proof.
  unfold _categorize_text.
  destruct (first_category_split categories (lower text))
    as [[-> _]|(before & c & kws & after & Ht & _ & _ & ->)]; [now left|].
  right. rewrite Ht, map_app. apply in_or_app. right. now left.
Qed.

Lemma importance_in_unit_interval (title source category : str) :
  in_unit_interval (_calculate_importance lower title source category).
Proof.
  unfold _calculate_importance. rewrite add_title_bonus_existsb.
  pose proof (dict_get_cases source_weights source 0.5%float) as Hb.
  pose proof (dict_get_cases category_weights category 0%float) as Hw.
  set (base := dict_get source_weights source 0.5%float) in *.
  set (weight := dict_get category_weights category 0%float) in *.
  cbv [source_weights category_weights map snd In] in Hb, Hw.
  clearbody base weight.
  destruct (existsb (fun word => contains word (lower title)) important_words);
    repeat (destruct Hb as [Hb|Hb]; [|try contradiction]);
    repeat (destruct Hw as [Hw|Hw]; [|try contradiction]);
    subst base weight; split; vm_compute; reflexivity.
Qed.

Lemma collect_entry_keeps_rows (source_name : str) (e : entry) (w : world) :
  Forall (row_well_formed lower) (news (db w)) ->
  Forall (row_well_formed lower)
    (news (db (snd (collect_entry lower md5_hexdigest clock source_name e w)))).
Proof.
  intro Hrows. unfold collect_entry, bind, query.
  destruct (Sql.select_id_by_hash (article_hash md5_hexdigest e) (db w));
    [exact Hrows|].
  unfold now, execute, Sql.insert_news, ret. cbn [db clock_reads].
  destruct (existsb _ (news (db w))); [exact Hrows|].
  cbn [snd db with_db news with_news]. apply Forall_app. split; [exact Hrows|].
  constructor; [|constructor].
  unfold row_well_formed. cbn [n_category n_importance n_title n_content
    n_source n_summary n_keywords n_analyzed_at].
  split; [reflexivity|]. split; [reflexivity|].
  split; [apply strip_ends|]. split; [apply strip_ends|]. left. tauto.
Qed.

Lemma collect_entries_keeps_rows (source_name : str) (entries : list entry)
    (total : Z) (w : world) :
  Forall (row_well_formed lower) (news (db w)) ->
  Forall (row_well_formed lower)
    (news (db (snd (collect_entries lower md5_hexdigest clock source_name
                      entries total w)))).
Proof.
  revert total w; induction entries as [|e rest IH]; intros total w Hrows;
    cbn [collect_entries]; [exact Hrows|].
  pose proof (collect_entry_keeps_rows source_name e w Hrows) as Hstep.
  destruct (collect_entry lower md5_hexdigest clock source_name e w)
    as [[[|]|message] w1]; cbn [snd] in Hstep |- *;
    [now apply IH|now apply IH|exact Hstep].
Qed.

Lemma collect_source_keeps_rows (feed : str -> outcome (list entry))
    (limit : Z) (st : Z * world) (rss_source : str * str) :
  Forall (row_well_formed lower) (news (db (snd st))) ->
  Forall (row_well_formed lower)
    (news (db (snd (collect_source lower md5_hexdigest clock feed limit st
                      rss_source)))).
Proof.
  destruct st as [total w], rss_source as [rss_url source_name].
  cbn [snd]. intro Hrows. unfold collect_source.
  destruct (feed rss_url) as [[|e0 entries]|message]; try exact Hrows.
  pose proof (collect_entries_keeps_rows source_name
                (slice_to limit (e0 :: entries)) total w Hrows) as Hloop.
  destruct (collect_entries lower md5_hexdigest clock source_name
              (slice_to limit (e0 :: entries)) total w) as [[o t'] w'].
  exact Hloop.
Qed.

Lemma collect_news_keeps_rows (sources : list (str * str))
    (feed : str -> outcome (list entry)) (limit : Z) (w : world) :
  Forall (row_well_formed lower) (news (db w)) ->
  Forall (row_well_formed lower)
    (news (db (snd (collect_news_from lower md5_hexdigest clock sources feed
                      limit w)))).
Proof.
  intro Hrows. unfold collect_news_from.
  assert (Hfold : forall st,
    Forall (row_well_formed lower) (news (db (snd st))) ->
    Forall (row_well_formed lower)
      (news (db (snd (fold_left
                        (collect_source lower md5_hexdigest clock feed limit)
                        sources st))))).
  { induction sources as [|src rest IH]; intros st Hst; cbn [fold_left];
      [exact Hst|].
    apply IH. now apply collect_source_keeps_rows. }
  specialize (Hfold (0, w) Hrows).
  destruct (fold_left (collect_source lower md5_hexdigest clock feed limit)
              sources (0, w)) as [total w1].
  exact Hfold.
Qed.

Lemma update_keeps_row (summary keywords analyzed_at : str) (id : Z)
    (r : news_row) :
  row_well_formed lower r ->
  row_well_formed lower
    (Sql.set_analysis_where_id summary keywords analyzed_at id r).
Proof.
  intro Hr. unfold Sql.set_analysis_where_id.
  destruct (n_id r =? id); [|exact Hr].
  destruct Hr as (Hc & Hi & Ht & Hco & _).
  unfold row_well_formed. cbn. repeat (split; [assumption|]).
  right. now exists summary, keywords, analyzed_at.
Qed.

Lemma apply_updates_keeps_rows (updates : list (str * str * str * Z))
    (rows : list news_row) :
  Forall (row_well_formed lower) rows ->
  Forall (row_well_formed lower) (apply_updates updates rows).
Proof.
  revert rows; induction updates as [|[[[s k] t] id] rest IH]; intros rows Hr;
    cbn [apply_updates]; [exact Hr|].
  apply IH. apply Forall_map. eapply Forall_impl; [|exact Hr].
  intros r. apply update_keeps_row.
Qed.

Lemma reachable_rows (w : world) :
  reachable lower md5_hexdigest clock ollama w ->
  Forall (row_well_formed lower) (news (db w)).
Proof.
  induction 1 as [|w sources feed limit n w' Hreach IH Hrun
                  |w limit n w' Hreach IH Hrun
                  |w storage_fault topic r w' Hreach IH Hrun].
  - constructor.
  - pose proof (collect_news_keeps_rows sources feed limit w IH) as Hk.
    now rewrite Hrun in Hk.
  - destruct (@analyze_news_articles_effect clock ollama limit w
                (@analyze_news_articles_returned clock ollama _ _ _ _ Hrun))
      as (updates & w1 & Hrun1 & _ & Hnews & _).
    rewrite Hrun in Hrun1. injection Hrun1 as _ ->.
    rewrite Hnews. now apply apply_updates_keeps_rows.
  - destruct (reachable_news_committed Hreach) as [Hnews Hseq].
    destruct (@analyze_topic_keeps_news lower clock ollama _ _ _ _ _ Hnews
                Hseq Hrun) as (Hn & _).
    now rewrite Hn.
Qed.

(** X8. In every state the agent reaches from an empty database, ids and
    hashes are distinct, and every article has the category the classifier
    gives for its stored title (one of the table, or the default), the
    importance the classifier gives for its title, source and category (a
    number within [0.0, 1.0]), a title and a content without whitespace at
    either end, and a summary, keywords and a time of analysis that are NULL
    together or set together. *)
Theorem reachable_rows_well_formed (w : world) :
  reachable lower md5_hexdigest clock ollama w ->
  news_constraints (db w)
  /\ Forall (fun r =>
       row_well_formed lower r
       /\ in_unit_interval (n_importance r)
       /\ (n_category r = default_category
           \/ In (n_category r) (map fst categories)))
       (news (db w)).
Proof.
  intro Hreach. split; [now apply reachable_constraints in Hreach|].
  eapply Forall_impl; [|exact (reachable_rows Hreach)].
  intros r Hr. split; [exact Hr|].
  destruct Hr as (Hc & Hi & _). split.
  - rewrite Hi. apply importance_in_unit_interval.
  - rewrite Hc. apply categorize_in_table.
Qed.

End RowsKept.

(* ================================================================== *)
(** * How much a collection run appends *)

Section CollectionCount.

Variable lower : str -> str.
Variable md5_hexdigest : str -> str.
Variable clock : nat -> datetime.





End CollectionCount.

(* ================================================================== *)
(** * Enrichment of everything, and the requests it costs *)

Section EnrichmentOfAll.

Variable clock : nat -> datetime.
Variable ollama : nat -> str -> Z -> http_result.

(** The rows after a run, one by one: a selected row is rewritten once, any
    other row is as before. *)
Lemma analyze_news_articles_rows (limit : Z) (w : world) :
  Sql.is_int64 limit = true ->
  news_constraints (db w) ->
  exists w',
    analyze_news_articles clock ollama limit w
    = (Returned (Z.of_nat (List.length (Sql.select_unanalyzed limit (db w)))),
       w')
    /\ List.length (news (db w')) = List.length (news (db w))
    /\ forall i r, nth_error (news (db w)) i = Some r ->
         exists r',
           nth_error (news (db w')) i = Some r'
           /\ (In r (Sql.select_unanalyzed limit (db w)) ->
               exists summary keywords analyzed_at,
                 r' = Sql.set_analysis summary keywords analyzed_at r)
           /\ (~ In r (Sql.select_unanalyzed limit (db w)) -> r' = r).
Proof.
  intros Hint (Hids & _ & _).
  set (selected := Sql.select_unanalyzed limit (db w)).
  destruct (@analyze_news_articles_effect clock ollama limit w Hint)
    as (updates & w' & Hrun & Hup & Hnews & _).
  fold selected in Hrun, Hup.
  exists w'. split; [exact Hrun|]. rewrite Hnews.
  split; [apply apply_updates_length|].
  intros i r Hi.
  assert (Hnd : NoDup (map snd updates)).
  { rewrite Hup. now apply selected_ids_distinct. }
  destruct (apply_updates_nth updates _ i Hnd Hi) as (r' & Hr' & Hcases).
  exists r'. split; [exact Hr'|].
  assert (Hrin : In r (news (db w))) by (eapply nth_error_In; exact Hi).
  assert (Hiff : In (n_id r) (map snd updates) <-> In r selected).
  { rewrite Hup. split; [|apply in_map].
    intro Hid. apply in_map_iff in Hid. destruct Hid as (r0 & Hid & Hr0).
    assert (Hr0news : In r0 (news (db w))).
    { apply limit_incl in Hr0.
      apply (Permutation_in _ (order_by_perm _)) in Hr0.
      now apply filter_In in Hr0. }
    now rewrite <- (@same_id_same_row _ _ _ Hids Hr0news Hrin Hid). }
  split.
  - intro Hsel. destruct Hcases as [[_ Hex]|[Hnid _]]; [exact Hex|].
    exfalso. now apply Hnid, Hiff.
  - intro Hnsel. destruct Hcases as [[Hid _]|[_ ->]]; [|reflexivity].
    exfalso. now apply Hnsel, Hiff.
Qed.

Lemma select_unanalyzed_none (limit : Z) (d : database) :
  Forall (fun r => n_analyzed_at r <> None) (news d) ->
  Sql.select_unanalyzed limit d = [].
Proof.
  intro Hall. unfold Sql.select_unanalyzed.
  replace (filter (fun r => Sql.is_null (n_analyzed_at r)) (news d))
    with (@nil news_row).
  - unfold Sql.limit. cbn. destruct (limit <? 0); [reflexivity|].
    apply firstn_nil.
  - symmetry. induction Hall as [|r rows Hr _ IH]; cbn [filter]; [reflexivity|].
    destruct (n_analyzed_at r); [exact IH|congruence].
Qed.

(** X10. Under the constraints of the table, a run of
    [analyze_news_articles] whose limit fits a 64-bit integer and covers
    every article not yet analysed (a negative limit, or one no smaller than
    their number) analyses them all: it returns their number, and
    afterwards every article has its time of analysis set. Any further run
    leaves the state, counters included, as it is: it selects nothing and
    returns 0, or raises OverflowError for a limit that does not fit 64
    bits. *)
Theorem enrichment_of_all_leaves_none (limit : Z) (w : world) :
  let unanalyzed :=
    filter (fun r => Sql.is_null (n_analyzed_at r)) (news (db w)) in
  Sql.is_int64 limit = true ->
  news_constraints (db w) ->
  limit < 0 \/ Z.of_nat (List.length unanalyzed) <= limit ->
  exists w',
    analyze_news_articles clock ollama limit w
    = (Returned (Z.of_nat (List.length unanalyzed)), w')
    /\ Forall (fun r => n_analyzed_at r <> None) (news (db w'))
    /\ forall limit',
         analyze_news_articles clock ollama limit' w'
         = (if Sql.is_int64 limit' then Returned 0
            else Raised Sql.overflow_error, w').
Proof.
  intros unanalyzed Hint Hc Hcovers.
  destruct (select_where_order_limit
              (fun r => Sql.is_null (n_analyzed_at r)) limit (news (db w)))
    as (_ & _ & _ & _ & Hall).
  fold (Sql.select_unanalyzed limit (db w)) in Hall. fold unanalyzed in Hall.
  specialize (Hall Hcovers).
  destruct (analyze_news_articles_rows limit w Hint Hc)
    as (w' & Hrun & Hlen & Hrows).
  exists w'. rewrite (Permutation_length Hall) in Hrun.
  split; [exact Hrun|].
  assert (Hdone : Forall (fun r => n_analyzed_at r <> None) (news (db w'))).
  { apply Forall_forall. intros r' Hr'.
    destruct (In_nth_error _ _ Hr') as [i Hi].
    destruct (nth_error (news (db w)) i) as [r|] eqn:Hold.
    - destruct (Hrows i r Hold) as (r2 & Hr2 & Hsel & Hnsel).
      rewrite Hi in Hr2. injection Hr2 as <-.
      destruct (n_analyzed_at r) as [t|] eqn:Hat.
      + rewrite Hnsel; [congruence|].
        intro Hin. apply (Permutation_in _ Hall) in Hin.
        apply filter_In in Hin. destruct Hin as [_ Hnull].
        now rewrite Hat in Hnull.
      + destruct Hsel as (s & k & t & ->); [|discriminate].
        apply (Permutation_in _ (Permutation_sym Hall)).
        apply filter_In. split; [eapply nth_error_In; exact Hold|].
        now rewrite Hat.
    - exfalso. apply nth_error_None in Hold.
      assert (i < List.length (news (db w')))%nat
        by (apply nth_error_Some; congruence).
      lia. }
  split; [exact Hdone|].
  intro limit'. unfold analyze_news_articles, bind, fetch, Sql.unanalyzed.
  destruct (Sql.is_int64 limit'); [|reflexivity].
  now rewrite select_unanalyzed_none.
Qed.

Lemma summarize_text_step (text : str) (max_length : Z) (w : world) :
  exists summary sent,
    summarize_text ollama text max_length w
    = (Returned summary,
       {| db := db w; committed := committed w;
          clock_reads := clock_reads w;
          llm_requests := llm_requests w ++ sent |})
    /\ (List.length sent <= 1)%nat.
Proof.
  unfold summarize_text. destruct (len text <? 50).
  - exists text, []. rewrite app_nil_r. destruct w. split; [reflexivity|cbn; lia].
  - unfold bind.
    match goal with |- context [call_llm ollama ?p ?n w] =>
      destruct (call_llm_run ollama p n w) as (answer & -> & _) end.
    eexists. eexists. split; [reflexivity|]. cbn. lia.
Qed.

Lemma extract_keywords_step (text : str) (max_keywords : Z) (w : world) :
  exists keywords sent,
    extract_keywords ollama text max_keywords w
    = (Returned keywords,
       {| db := db w; committed := committed w;
          clock_reads := clock_reads w;
          llm_requests := llm_requests w ++ sent |})
    /\ (List.length sent <= 1)%nat.
Proof.
  unfold extract_keywords. destruct (len text <? 20).
  - exists [], []. rewrite app_nil_r. destruct w. split; [reflexivity|cbn; lia].
  - unfold bind.
    match goal with |- context [call_llm ollama ?p ?n w] =>
      destruct (call_llm_run ollama p n w) as (answer & -> & _) end.
    eexists. eexists. split; [reflexivity|]. cbn. lia.
Qed.

Lemma analyze_article_requests (article : news_row) (w : world) :
  exists sent w',
    analyze_article clock ollama article w = (Returned tt, w')
    /\ llm_requests w' = llm_requests w ++ sent
    /\ (List.length sent <= 2)%nat.
Proof.
  unfold analyze_article, bind.
  destruct (summarize_text_step
              (n_title article ++ u ". " ++ n_content article) 150 w)
    as (summary & sent1 & -> & Hl1).
  match goal with |- context [extract_keywords ollama ?t ?n ?w0] =>
    destruct (extract_keywords_step t n w0) as (keywords & sent2 & -> & Hl2)
  end.
  cbn [db clock_reads llm_requests]. unfold now, execute.
  cbn [db clock_reads llm_requests Sql.update_news_analysis with_db].
  exists (sent1 ++ sent2). eexists. split; [reflexivity|].
  cbn [llm_requests]. split; [now rewrite app_assoc|].
  rewrite length_app. lia.
Qed.

Lemma analyze_articles_requests (articles : list news_row) (count : Z)
    (w : world) :
  exists sent,
    llm_requests (snd (analyze_articles clock ollama articles count w))
    = llm_requests w ++ sent
    /\ (List.length sent <= 2 * List.length articles)%nat.
Proof.
  revert count w; induction articles as [|a rest IH]; intros count w.
  - exists []. cbn. now rewrite app_nil_r.
  - cbn [analyze_articles].
    destruct (analyze_article_requests a w) as (sent1 & w1 & -> & Hs1 & Hl1).
    destruct (IH (count + 1) w1) as (sent2 & Hs2 & Hl2).
    exists (sent1 ++ sent2). rewrite Hs2, Hs1, app_assoc.
    split; [reflexivity|]. rewrite length_app. cbn [List.length]. lia.
Qed.

(** X11. A run of [analyze_news_articles] keeps the requests sent before and
    sends at most two requests to the model for each article it selects. It
    returns when its limit fits a 64-bit integer; for any other limit it
    raises OverflowError, having selected no article and sent no request. *)
Theorem enrichment_request_budget (limit : Z) (w : world) :
  exists o w' sent,
    analyze_news_articles clock ollama limit w = (o, w')
    /\ llm_requests w' = llm_requests w ++ sent
    /\ (List.length sent
        <= 2 * List.length (rows_or_none (Sql.unanalyzed limit (db w))))%nat
    /\ (Sql.is_int64 limit = true -> exists n, o = Returned n)
    /\ (Sql.is_int64 limit = false ->
        o = Raised Sql.overflow_error /\ sent = []).
Proof.
  unfold analyze_news_articles, bind, fetch, Sql.unanalyzed.
  destruct (Sql.is_int64 limit).
  2:{ exists (Raised Sql.overflow_error), w, []. rewrite app_nil_r.
      split; [reflexivity|]. split; [reflexivity|]. split; [cbn; lia|].
      split; [discriminate|]. intros _. split; reflexivity. }
  cbn [rows_or_none].
  destruct (Sql.select_unanalyzed limit (db w)) as [|a rest] eqn:Hsel.
  - exists (Returned 0), w, []. rewrite app_nil_r.
    split; [reflexivity|]. split; [reflexivity|]. split; [cbn; lia|].
    split; [intros _; now exists 0|discriminate].
  - destruct (analyze_articles_requests (a :: rest) 0 w) as (sent & Hs & Hl).
    destruct (analyze_articles clock ollama (a :: rest) 0 w) as [count w1].
    cbn [snd] in Hs. unfold commit, now, write, execute, ret.
    cbn [db clock_reads committed].
    eexists. eexists. exists sent. split; [reflexivity|].
    cbn [llm_requests with_db]. split; [exact Hs|]. split; [exact Hl|].
    split; [intros _; now eexists|discriminate].
Qed.

(** X12. A model that cannot be reached is not noticed by the enrichment:
    when every request times out, the turn for an article whose
    "title. content" has at least 50 characters returns normally and stores
    the error text "[Ошибка: Таймаут]" as the summary and as the keywords of
    the article, with the time of analysis, so the article counts as
    analysed and is not selected again. *)
Theorem enrichment_stores_error_text (article : news_row) (w : world) :
  (forall n prompt max_tokens, ollama n prompt max_tokens = HttpTimeout) ->
  50 <= len (n_title article ++ u ". " ++ n_content article) ->
  exists analyzed_at w',
    analyze_article clock ollama article w = (Returned tt, w')
    /\ news (db w')
       = map (Sql.set_analysis_where_id (u "[Ошибка: Таймаут]")
                (u "[Ошибка: Таймаут]") analyzed_at (n_id article))
           (news (db w)).
Proof.
  intros Hdown Hlong.
  assert (Hlong2 : 20 <= len (n_title article ++ u " " ++ n_content article)).
  { unfold len in *. rewrite !length_app in *.
    change (List.length (u ". ")) with 2%nat in Hlong.
    change (List.length (u " ")) with 1%nat. lia. }
  unfold analyze_article, bind, summarize_text, extract_keywords.
  destruct (Z.ltb_spec (len (n_title article ++ u ". " ++ n_content article)) 50)
    as [Hlt|_]; [lia|].
  destruct (Z.ltb_spec (len (n_title article ++ u " " ++ n_content article)) 20)
    as [Hlt|_]; [lia|].
  unfold bind, call_llm, ret. rewrite Hdown. cbv beta iota.
  rewrite Hdown. cbv beta iota.
  unfold now, execute, ret, Sql.update_news_analysis.
  cbn [db clock_reads llm_requests with_db].
  eexists. eexists. split; [reflexivity|]. reflexivity.
Qed.

End EnrichmentOfAll.

(* ================================================================== *)
(** * What a topic analysis sends and writes *)

Lemma contains_head (needle post : str) : contains needle (needle ++ post) = true.
Proof. apply (contains_middle needle [] post). Qed.

Lemma join_head (sep first : str) (rest : list str) :
  exists tail, join sep (first :: rest) = first ++ tail.
Proof.
  destruct rest as [|second rest]; cbn [join].
  - exists []. now rewrite app_nil_r.
  - now eexists.
Qed.

(** The analysis prompt holds the topic, and its context: the marker when
    the context is empty, and else every piece of the context. *)
Lemma topic_prompt_contains (topic context : str) :
  contains topic (topic_prompt topic context) = true
  /\ (context = [] ->
      contains no_news_marker (topic_prompt topic context) = true)
  /\ forall piece pre post,
       context = pre ++ piece ++ post -> context <> [] ->
       contains piece (topic_prompt topic context) = true.
Proof.
  unfold topic_prompt, no_news_marker.
  repeat match goal with |- context [u ?text] =>
           generalize (u text); intro
         end.
  generalize nl; intro.
  split; [|split].
  - repeat (first [apply contains_head | apply contains_app_r]).
  - intros ->. repeat (first [apply contains_head | apply contains_app_r]).
  - intros piece pre post Hcontext Hne.
    destruct context as [|c context]; [congruence|].
    rewrite Hcontext, <- !app_assoc.
    repeat (first [apply contains_head | apply contains_app_r]).
Qed.

Section TopicRuns.

Variable lower : str -> str.
Variable md5_hexdigest : str -> str.
Variable clock : nat -> datetime.
Variable ollama : nat -> str -> Z -> http_result.

(** The context built from a search that found something opens with the
    line of the first article. *)
Lemma context_of_first (item : news_item) (items : list news_item) :
  exists tail,
    join nl (context_lines 1 (slice_to 3 (item :: items)))
    = u "1. " ++ title item ++ u " (" ++ source item ++ u ")" ++ tail.
Proof.
  change (slice_to 3 (item :: items)) with (item :: firstn 2 items).
  cbn [context_lines].
  change (decimal 1 ++ u ". " ++ title item ++ u " (" ++ source item ++ u ")")
    with (u "1. " ++ title item ++ u " (" ++ source item ++ u ")").
  destruct (summary item) as [[|c text]|]; cbv beta iota;
    match goal with |- context [join nl (?line :: ?more)] =>
      destruct (join_head nl line more) as (tail & Hjoin) end;
    exists tail; (etransitivity; [exact Hjoin|]); now rewrite <- !app_assoc.
Qed.

(** X13. The first request [analyze_topic] sends carries the analysis
    prompt, with 1000 as [num_predict], and at most one more request
    follows. The prompt names the topic. Its context is never empty: when
    the search finds nothing it holds the marker "Нет релевантных новостей в
    базе", and otherwise the title and the source of the first article
    found. *)
Theorem analyze_topic_prompt (storage_fault : topic_write -> option fault)
    (topic : str) (w : world) :
  let found :=
    rows_or_none (Sql.search (search_pattern (lower topic)) 5 (db w)) in
  exists r w' prompt more,
    analyze_topic lower clock ollama storage_fault topic w = (Returned r, w')
    /\ llm_requests w' = llm_requests w ++ (prompt, 1000) :: more
    /\ (List.length more <= 1)%nat
    /\ contains topic prompt = true
    /\ match found with
       | [] => contains no_news_marker prompt = true
       | first :: _ =>
         contains (n_title first) prompt = true
         /\ contains (n_source first) prompt = true
       end.
Proof.
  intro found.
  destruct (@analyze_topic_effect lower clock ollama storage_fault topic w)
    as (analysis & w1 & keywords & w2 & r & w' & Hllm & Hkw & Hrun & Hreq & _).
  fold found in Hllm.
  set (prompt := topic_prompt topic (topic_context (map item_of_row found)))
    in *.
  destruct (call_llm_run ollama prompt 1000 (snd (now clock w)))
    as (analysis' & Hllm' & _).
  rewrite Hllm in Hllm'. injection Hllm' as Ha Hw1.
  destruct (extract_keywords_step ollama analysis 5 w1)
    as (keywords' & more & Hkw' & Hmore).
  rewrite Hkw in Hkw'. injection Hkw' as Hk Hw2.
  exists r, w', prompt, more. split; [exact Hrun|].
  split.
  { rewrite Hreq, Hw2, Hw1. cbn [llm_requests snd now].
    now rewrite <- app_assoc. }
  split; [exact Hmore|].
  split; [subst prompt; apply topic_prompt_contains|].
  subst prompt. clearbody found. clear.
  destruct found as [|first rest]; cbn [map topic_context].
  - exact (proj1 (proj2 (topic_prompt_contains topic [])) eq_refl).
  - destruct (context_of_first (item_of_row first) (map item_of_row rest))
      as (tail & Hctx).
    cbn [title source item_of_row] in Hctx.
    assert (Hne : join nl
                    (context_lines 1
                       (slice_to 3
                          (item_of_row first :: map item_of_row rest)))
                  <> []).
    { rewrite Hctx. change (u "1. ") with (49%N :: u ". "). discriminate. }
    split.
    + apply (proj2 (proj2 (topic_prompt_contains topic _)) (n_title first)
               (u "1. ") (u " (" ++ n_source first ++ u ")" ++ tail));
        [exact Hctx|exact Hne].
    + apply (proj2 (proj2 (topic_prompt_contains topic _)) (n_source first)
               (u "1. " ++ n_title first ++ u " (") (u ")" ++ tail));
        [|exact Hne].
      rewrite Hctx. now rewrite <- !app_assoc.
Qed.


End TopicRuns.

(* ================================================================== *)
(** * The model chosen at start-up *)

Section StartupCheck.

Variable lower : str -> str.

Lemma first_of_family_first (names : list str) (model_name : str) :
  (first_of_family lower names model_name = model_name
   /\ Forall (fun name => contains llama_family (lower name) = false) names)
  \/ exists before after,
       names = before ++ first_of_family lower names model_name :: after
       /\ Forall (fun name => contains llama_family (lower name) = false) before
       /\ contains llama_family
            (lower (first_of_family lower names model_name)) = true.
Proof.
  induction names as [|name names IH]; cbn [first_of_family].
  - left. split; [reflexivity|constructor].
  - destruct (contains llama_family (lower name)) eqn:Hname.
    + right. exists [], names.
      split; [reflexivity|]. split; [constructor|exact Hname].
    + destruct IH as [[Hsame Hnone]|(before & after & Hsplit & Hbefore & Hfam)].
      * left. split; [exact Hsame|now constructor].
      * right. exists (name :: before), after.
        split; [cbn [app]; f_equal; exact Hsplit|].
        split; [now constructor|exact Hfam].
Qed.

Lemma listed_iff (model_name : str) (model_names : list str) :
  existsb (Str.eqb model_name) model_names = true <-> In model_name model_names.
Proof.
  rewrite existsb_exists. split.
  - intros (name & Hin & Heq). apply str_eqb_eq in Heq. now subst.
  - intro Hin. exists model_name. split; [exact Hin|apply str_eqb_refl].
Qed.

(** X15 ([_check_ollama]). The start-up check ends the process, with exit
    code 1, exactly when the request for the tags raised; with a response of
    any status the agent goes on. The model it goes on with is the
    configured one or a name the server listed. The configured one is kept
    when it is listed, when the status is not 200 and when no model is
    listed. When it is replaced, the new one is the first listed name of the
    llama3.1 family or the first listed name. The family is looked for in
    the text of the first three names only: when that text has no
    "llama3.1", the first listed name is taken, whatever the names after
    the third are. *)
Theorem check_ollama_choice (model_name : str) (tags : tags_result) :
  match tags with
  | TagsResponse status_code models =>
    let model_names := map (fun m => get_or m []) models in
    exists chosen,
      _check_ollama lower model_name tags = Proceeds chosen
      /\ (chosen = model_name \/ In chosen model_names)
      /\ (In model_name model_names \/ status_code <> 200 \/ models = [] ->
          chosen = model_name)
      /\ (chosen <> model_name ->
          (exists before after,
             model_names = before ++ chosen :: after
             /\ Forall (fun name => contains llama_family (lower name) = false)
                  before
             /\ contains llama_family (lower chosen) = true)
          \/ head model_names = Some chosen)
      /\ (status_code = 200 -> ~ In model_name model_names ->
          contains llama_family
            (lower (join (u ", ") (slice_to 3 model_names))) = false ->
          forall first rest, model_names = first :: rest -> chosen = first)
  | TagsConnectionError | TagsFailure _ =>
    _check_ollama lower model_name tags = Exits 1
  end.
Proof.
  destruct tags as [status_code models| |message]; [|reflexivity..].
  intro model_names. unfold _check_ollama. fold model_names.
  destruct (Z.eqb_spec status_code 200) as [Hstatus|Hstatus].
  2:{ exists model_name. split; [reflexivity|]. split; [now left|].
      split; [reflexivity|]. split; [congruence|]. congruence. }
  destruct models as [|m models].
  { exists model_name. split; [reflexivity|]. split; [now left|].
    split; [reflexivity|]. split; [congruence|]. intros _ _ _ first rest.
    discriminate. }
  destruct (existsb (Str.eqb model_name) model_names) eqn:Hlisted.
  { exists model_name. split; [reflexivity|]. split; [now left|].
    split; [reflexivity|]. split; [congruence|].
    intros _ Hnot. apply listed_iff in Hlisted. contradiction. }
  assert (Hnot : ~ In model_name model_names).
  { intro Hin. apply listed_iff in Hin. congruence. }
  destruct (contains llama_family
              (lower (join (u ", ") (slice_to 3 model_names)))) eqn:Hfamily.
  - exists (first_of_family lower model_names model_name).
    split; [reflexivity|].
    destruct (first_of_family_first model_names model_name)
      as [[Hsame _]|(before & after & Hsplit & Hbefore & Hfam)].
    + rewrite Hsame. split; [now left|]. split; [reflexivity|].
      split; [congruence|]. discriminate.
    + split.
      { right. rewrite Hsplit at 2. apply in_or_app. right. now left. }
      split.
      { intros [Hin|[Hne|Hnil]]; [contradiction|congruence|discriminate]. }
      split; [|discriminate].
      intros _. left. exists before, after. now split.
  - subst model_names. cbn [map].
    exists (get_or m []). split; [reflexivity|].
    split; [right; now left|].
    split.
    { intros [Hin|[Hne|Hnil]]; [contradiction|congruence|discriminate]. }
    split; [intros _; now right|].
    intros _ _ _ first rest Hnames. now injection Hnames.
Qed.

End StartupCheck.

(* ================================================================== *)
(** * The figures of the statistics *)

Lemma insert_by_perm {A} (before : A -> A -> bool) (x : A) (l : list A) :
  Permutation (Report.insert_by before x l) (x :: l).
Proof.
  induction l as [|y l IH]; simpl; [reflexivity|].
  destruct (before x y); [reflexivity|].
  rewrite IH. apply perm_swap.
Qed.

Lemma sort_by_perm {A} (before : A -> A -> bool) (l : list A) :
  Permutation (Report.sort_by before l) l.
Proof.
  induction l as [|x l IH]; simpl; [reflexivity|].
  rewrite insert_by_perm. now constructor.
Qed.

Section SortBy.

Context {A : Type}.
Variable before : A -> A -> bool.
Hypothesis before_total : forall a b, before a b = false -> before b a = true.
Hypothesis before_trans :
  forall a b c, before a b = true -> before b c = true -> before a c = true.

Lemma insert_by_sorted (x : A) (l : list A) :
  StronglySorted (fun a b => before a b = true) l ->
  StronglySorted (fun a b => before a b = true) (Report.insert_by before x l).
Proof.
  induction 1 as [|y l Hsorted IH Hy]; simpl; [repeat constructor|].
  destruct (before x y) eqn:Hxy.
  - constructor; [now constructor|].
    constructor; [exact Hxy|].
    eapply Forall_impl; [|exact Hy]. intros z Hz. exact (before_trans Hxy Hz).
  - constructor; [exact IH|].
    eapply Permutation_Forall; [symmetry; apply insert_by_perm|].
    constructor; [now apply before_total|exact Hy].
Qed.

Lemma sort_by_sorted (l : list A) :
  StronglySorted (fun a b => before a b = true) (Report.sort_by before l).
Proof.
  induction l as [|x l IH]; simpl; [constructor|].
  now apply insert_by_sorted.
Qed.

End SortBy.

Lemma strongly_sorted_impl {A} (R S : A -> A -> Prop) (l : list A) :
  (forall a b, R a b -> S a b) -> StronglySorted R l -> StronglySorted S l.
Proof.
  intro Himpl. induction 1 as [|x l Hsorted IH Hx]; constructor; [exact IH|].
  eapply Forall_impl; [|exact Hx]. intros y Hy. now apply Himpl.
Qed.

(** The rows of a category, counted. *)
Lemma count_category_keys (category : str) (groups : list (str * Z)) :
  (In category (map fst groups) ->
   map fst (Report.count_category category groups) = map fst groups)
  /\ (~ In category (map fst groups) ->
      map fst (Report.count_category category groups)
      = map fst groups ++ [category]).
Proof.
  induction groups as [|[c n] groups [IHin IHnot]]; simpl.
  - split; [contradiction|reflexivity].
  - destruct (str_eqb_spec c category) as [->|Hne]; simpl.
    + split; [reflexivity|]. intro Hnot. exfalso. apply Hnot. now left.
    + split.
      * intros [Heq|Hin]; [contradiction|]. now rewrite IHin.
      * intro Hnot. rewrite IHnot; [reflexivity|]. intro Hin. apply Hnot.
        now right.
Qed.

Lemma count_category_nodup (category : str) (groups : list (str * Z)) :
  NoDup (map fst groups) ->
  NoDup (map fst (Report.count_category category groups)).
Proof.
  intro Hnodup. destruct (count_category_keys category groups) as [Hin Hnot].
  destruct (in_dec (list_eq_dec N.eq_dec) category (map fst groups)) as [H|H].
  - now rewrite Hin.
  - rewrite (Hnot H). apply NoDup_app; [exact Hnodup|repeat constructor; auto|].
    intros c Hc [<-|[]]. contradiction.
Qed.

Lemma count_category_in (category c : str) (n : Z) (groups : list (str * Z)) :
  NoDup (map fst groups) ->
  In (c, n) (Report.count_category category groups) ->
  (c = category
   /\ (In (c, n - 1) groups \/ (n = 1 /\ ~ In c (map fst groups))))
  \/ (c <> category /\ In (c, n) groups).
Proof.
  induction groups as [|[c0 n0] groups IH]; simpl; intros Hnodup Hin.
  - destruct Hin as [Heq|[]]. injection Heq as <- <-.
    left. split; [reflexivity|]. right. split; [reflexivity|]. tauto.
  - inversion Hnodup as [|? ? Hfresh Hrest]; subst.
    destruct (str_eqb_spec c0 category) as [->|Hne]; simpl in Hin.
    + destruct Hin as [Heq|Hin].
      * injection Heq as <- <-. left. split; [reflexivity|]. left. left.
        f_equal. lia.
      * right. split; [|now right].
        intros ->. apply Hfresh. apply in_map_iff. now exists (category, n).
    + destruct Hin as [Heq|Hin].
      * injection Heq as <- <-. right. split; [exact Hne|now left].
      * destruct (IH Hrest Hin) as [[-> [Hold|[-> Hnew]]]|[Hother Hold]].
        -- left. split; [reflexivity|]. left. now right.
        -- left. split; [reflexivity|]. right. split; [reflexivity|].
           intros [Heq|Hold]; [congruence|contradiction].
        -- right. split; [exact Hother|now right].
Qed.

Lemma count_category_sum (category : str) (groups : list (str * Z)) :
  sum_of_counts (Report.count_category category groups)
  = sum_of_counts groups + 1.
Proof.
  unfold sum_of_counts.
  induction groups as [|[c n] groups IH]; simpl; [reflexivity|].
  destruct (Str.eqb c category); simpl; lia.
Qed.

Lemma sum_of_counts_perm (a b : list (str * Z)) :
  Permutation a b -> sum_of_counts a = sum_of_counts b.
Proof.
  unfold sum_of_counts. induction 1; simpl; lia.
Qed.

Lemma rows_of_category_app (c : str) (rows : list news_row) (r : news_row) :
  rows_of_category c (rows ++ [r])
  = rows_of_category c rows + (if Str.eqb (n_category r) c then 1 else 0).
Proof.
  unfold rows_of_category. rewrite filter_app, length_app. simpl.
  destruct (Str.eqb (n_category r) c); simpl; lia.
Qed.

Lemma rows_of_category_none (c : str) (rows : list news_row) :
  (forall r, In r rows -> n_category r <> c) -> rows_of_category c rows = 0.
Proof.
  unfold rows_of_category. induction rows as [|r rows IH]; intro Hnone;
    simpl; [reflexivity|].
  destruct (str_eqb_spec (n_category r) c) as [Heq|Hne].
  - exfalso. apply (Hnone r); [now left|exact Heq].
  - apply IH. intros r' Hin. apply Hnone. now right.
Qed.

(** [GROUP BY category] with its counts: one group for each category of
    the table, with the number of its rows. *)
Lemma group_by_category_spec (rows : list news_row) :
  let groups := Report.group_by_category rows in
  NoDup (map fst groups)
  /\ (forall c n, In (c, n) groups -> 1 <= n /\ n = rows_of_category c rows)
  /\ (forall r, In r rows -> In (n_category r) (map fst groups))
  /\ sum_of_counts groups = Z.of_nat (List.length rows).
Proof.
  unfold Report.group_by_category.
  induction rows as [|r rows IH] using rev_ind.
  - simpl. split; [constructor|]. split; [contradiction|].
    split; [contradiction|reflexivity].
  - rewrite fold_left_app. cbn [fold_left].
    set (groups := fold_left _ rows []) in *. cbv zeta in IH.
    destruct IH as (Hnodup & Hcount & Hkeys & Hsum).
    destruct (count_category_keys (n_category r) groups) as [Hin Hnot].
    split; [now apply count_category_nodup|]. split; [|split].
    + intros c n Hcn. rewrite rows_of_category_app.
      destruct (@count_category_in _ _ _ _ Hnodup Hcn)
        as [[-> [Hold|[-> Hnew]]]|[Hother Hold]].
      * rewrite str_eqb_refl. destruct (Hcount _ _ Hold). lia.
      * rewrite str_eqb_refl. split; [lia|].
        rewrite rows_of_category_none; [reflexivity|].
        intros r' Hr' Heq. apply Hnew. rewrite <- Heq. now apply Hkeys.
      * destruct (str_eqb_spec (n_category r) c) as [Heq|_]; [congruence|].
        destruct (Hcount _ _ Hold). lia.
    + intros r' Hr'. apply in_app_or in Hr'.
      destruct (in_dec (list_eq_dec N.eq_dec) (n_category r) (map fst groups))
        as [Hold|Hnew].
      * rewrite (Hin Hold). destruct Hr' as [Hr'|[<-|[]]]; [now apply Hkeys|].
        exact Hold.
      * rewrite (Hnot Hnew). apply in_or_app.
        destruct Hr' as [Hr'|[<-|[]]]; [left; now apply Hkeys|].
        right. now left.
    + rewrite count_category_sum, Hsum, length_app. simpl. lia.
Qed.

(** The groups as the statistics hold them: the greater count first. *)
Lemma select_category_counts_spec (d : database) :
  let groups := Report.select_category_counts d in
  NoDup (map fst groups)
  /\ (forall c n,
        In (c, n) groups -> 1 <= n /\ n = rows_of_category c (news d))
  /\ (forall r, In r (news d) -> In (n_category r) (map fst groups))
  /\ sum_of_counts groups = Z.of_nat (List.length (news d))
  /\ StronglySorted (fun a b => snd b <= snd a) groups.
Proof.
  intro groups.
  destruct (group_by_category_spec (news d)) as (Hnodup & Hcount & Hkeys & Hsum).
  assert (Hperm : Permutation groups (Report.group_by_category (news d))).
  { unfold groups, Report.select_category_counts.
    now rewrite !sort_by_perm. }
  split; [|split; [|split; [|split]]].
  - eapply Permutation_NoDup; [|exact Hnodup].
    apply Permutation_map. now symmetry.
  - intros c n Hin. apply Hcount. eapply Permutation_in; [exact Hperm|exact Hin].
  - intros r Hr. eapply Permutation_in; [|apply (Hkeys r Hr)].
    apply Permutation_map. now symmetry.
  - rewrite (sum_of_counts_perm Hperm). exact Hsum.
  - unfold groups, Report.select_category_counts.
    eapply strongly_sorted_impl;
      [|apply sort_by_sorted with (before := fun a b : str * Z => snd b <=? snd a)].
    + intros a b Hab. now apply Z.leb_le.
    + intros a b Hab. apply Z.leb_le. apply Z.leb_gt in Hab. lia.
    + intros a b c Hab Hbc. apply Z.leb_le in Hab, Hbc. apply Z.leb_le. lia.
Qed.

Lemma strongly_sorted_app_inv {A} (R : A -> A -> Prop) (l1 l2 : list A) :
  StronglySorted R (l1 ++ l2) ->
  forall a b, In a l1 -> In b l2 -> R a b.
Proof.
  induction l1 as [|x l1 IH]; simpl; intros Hsorted a b Ha Hb; [contradiction|].
  inversion Hsorted as [|? ? Hrest Hx]; subst.
  destruct Ha as [<-|Ha].
  - rewrite Forall_forall in Hx. apply Hx. apply in_or_app. now right.
  - now apply IH.
Qed.

Section StatisticsRuns.

Variable clock : nat -> datetime.

Lemma get_statistics_returns (model_name : str) (db_file_size : option Z)
    (w : world) :
  exists r,
    get_statistics clock model_name db_file_size w
    = (Returned r,
       {| db := db w; committed := committed w;
          clock_reads := S (clock_reads w);
          llm_requests := llm_requests w |})
    /\ Report.report_status r = u "ready"
    /\ Report.report_model r = model_name
    /\ Report.total_news (Report.report_statistics r)
       = Z.of_nat (List.length (news (db w)))
    /\ Report.analyzed_news (Report.report_statistics r)
       = Z.of_nat
           (List.length
              (filter (fun row => negb (Sql.is_null (n_analyzed_at row)))
                 (news (db w))))
    /\ Report.total_analyses (Report.report_statistics r)
       = Z.of_nat (List.length (analyses (db w)))
    /\ Report.categories_count (Report.report_statistics r)
       = Report.select_category_counts (db w)
    /\ Report.recent_news r
       = map Report.recent_of_row (Report.select_recent (db w))
    /\ (news (db w) = [] ->
        Report.analysis_coverage (Report.report_statistics r) = u "0%").
Proof.
  unfold get_statistics, bind, query, now, ret.
  eexists. split; [reflexivity|].
  cbn [Report.report_status Report.report_model Report.report_statistics
       Report.total_news Report.analyzed_news Report.total_analyses
       Report.categories_count Report.recent_news Report.analysis_coverage db].
  do 7 (split; [reflexivity|]).
  intros ->. reflexivity.
Qed.

(** X16 ([get_statistics]). The statistics are always a "ready" report, and
    reading them writes nothing: only the clock is read, once. The analysed
    news are at most the news; the categories are those of the stored rows,
    each once, each with the number of its rows, which is at least 1; the
    counts add up to the number of news and come with the greater first.
    On an empty news table the coverage is "0%" and there is no category. *)
Theorem statistics_counts (model_name : str) (db_file_size : option Z)
    (w : world) :
  exists r w',
    get_statistics clock model_name db_file_size w = (Returned r, w')
    /\ db w' = db w /\ llm_requests w' = llm_requests w
    /\ clock_reads w' = S (clock_reads w)
    /\ Report.report_status r = u "ready"
    /\ let s := Report.report_statistics r in
       let rows := news (db w) in
       Report.total_news s = Z.of_nat (List.length rows)
       /\ 0 <= Report.analyzed_news s <= Report.total_news s
       /\ NoDup (map fst (Report.categories_count s))
       /\ (forall c n,
             In (c, n) (Report.categories_count s) ->
             1 <= n /\ n = rows_of_category c rows)
       /\ (forall row,
             In row rows ->
             In (n_category row) (map fst (Report.categories_count s)))
       /\ sum_of_counts (Report.categories_count s) = Report.total_news s
       /\ StronglySorted (fun a b => snd b <= snd a) (Report.categories_count s)
       /\ (rows = [] ->
           Report.analysis_coverage s = u "0%"
           /\ Report.categories_count s = []).
Proof.
  destruct (get_statistics_returns model_name db_file_size w)
    as (r & Hrun & Hstatus & _ & Htotal & Hanalyzed & _ & Hcategories & _
        & Hcoverage).
  exists r. eexists. split; [exact Hrun|].
  cbn [db llm_requests clock_reads].
  do 3 (split; [reflexivity|]). split; [exact Hstatus|].
  cbv zeta. set (rows := news (db w)) in *.
  destruct (select_category_counts_spec (db w))
    as (Hnodup & Hcount & Hkeys & Hsum & Hsorted).
  rewrite <- Hcategories in Hnodup, Hcount, Hkeys, Hsum, Hsorted.
  split; [exact Htotal|]. split.
  { rewrite Hanalyzed, Htotal. pose proof (filter_length_le
      (fun row => negb (Sql.is_null (n_analyzed_at row))) rows). lia. }
  split; [exact Hnodup|]. split; [exact Hcount|]. split; [exact Hkeys|].
  split; [now rewrite Htotal|]. split; [exact Hsorted|].
  intro Hempty. split; [now apply Hcoverage|].
  rewrite Hcategories. unfold Report.select_category_counts.
  fold rows. now rewrite Hempty.
Qed.

(** X17 ([get_statistics]). The recent news of the statistics are made of
    the three stored rows with the greatest [published] texts, the greatest
    first (of all the rows, when there are fewer than three): every other
    row has a [published] text that is not greater. A title is shown with
    at most 53 characters, a date with at most 10 and never empty. *)
Theorem statistics_recent_news (model_name : str) (db_file_size : option Z)
    (w : world) :
  exists r w' latest others,
    get_statistics clock model_name db_file_size w = (Returned r, w')
    /\ Permutation (news (db w)) (latest ++ others)
    /\ Report.recent_news r = map Report.recent_of_row latest
    /\ List.length latest = Nat.min 3 (List.length (news (db w)))
    /\ StronglySorted
         (fun a b => Sql.text_leb (n_published b) (n_published a) = true)
         latest
    /\ (forall a b,
          In a latest -> In b others ->
          Sql.text_leb (n_published b) (n_published a) = true)
    /\ Forall (fun item =>
                 len (Report.recent_title item) <= 53
                 /\ 0 < len (Report.recent_published item) <= 10)
         (Report.recent_news r).
Proof.
  destruct (get_statistics_returns model_name db_file_size w)
    as (r & Hrun & _ & _ & _ & _ & _ & _ & Hrecent & _).
  set (sorted :=
         Report.sort_by
           (fun a b => Sql.text_leb (n_published b) (n_published a))
           (news (db w))).
  assert (Hsorted :
    StronglySorted
      (fun a b => Sql.text_leb (n_published b) (n_published a) = true) sorted).
  { apply sort_by_sorted
      with (before := fun a b => Sql.text_leb (n_published b) (n_published a)).
    - intros a b. apply text_leb_total.
    - intros a b c Hab Hbc. exact (text_leb_trans _ _ _ Hbc Hab). }
  destruct (limit_prefix 3 sorted) as [others Hsplit].
  exists r. eexists. exists (Sql.limit 3 sorted), others.
  split; [exact Hrun|]. split.
  { rewrite <- Hsplit. symmetry. apply sort_by_perm. }
  split; [exact Hrecent|]. split.
  { unfold Sql.limit. cbn [Z.ltb Z.compare Z.to_nat Pos.to_nat].
    change (Pos.iter_op Nat.add 3 1%nat) with 3%nat.
    rewrite length_firstn. f_equal. apply Permutation_length.
    apply sort_by_perm. }
  split; [now apply limit_sorted|]. split.
  { intros a b Ha Hb. rewrite Hsplit in Hsorted.
    exact (strongly_sorted_app_inv _ _ Hsorted a b Ha Hb). }
  rewrite Hrecent. apply Forall_forall. intros item Hitem.
  apply in_map_iff in Hitem. destruct Hitem as (row & <- & _).
  unfold Report.recent_of_row.
  cbn [Report.recent_title Report.recent_published]. split.
  - destruct (Z.ltb_spec 50 (len (n_title row))) as [Hlong|Hshort]; [|lia].
    unfold len. rewrite length_app.
    pose proof (@slice_to_length _ 50 (n_title row) ltac:(lia)) as Hslice.
    change (List.length (u "...")) with 3%nat. lia.
  - destruct (n_published row) as [|c published] eqn:Hpublished.
    + vm_compute. split; [reflexivity|discriminate].
    + pose proof (@slice_to_length _ 10 (c :: published) ltac:(lia)) as Hslice.
      unfold len. split; [|exact Hslice].
      unfold slice_to. change (10 <? 0) with false.
      change (Z.to_nat 10) with 10%nat. cbn [firstn List.length]. lia.
Qed.

End StatisticsRuns.

(* ================================================================== *)
(** * What the web search shows *)

Section WebResults.

Variable lower : str -> str.
Variable format_datetime : Web.value -> str.

Lemma news_dict_lookups (item : news_item) :
  dict_get (Web.news_dict item) (u "category") (Web.VStr (u "разное"))
  = Web.VStr (category item)
  /\ dict_get (Web.news_dict item) (u "published") (Web.VStr [])
     = Web.VStr (published item)
  /\ dict_get (Web.news_dict item) (u "importance") (Web.VFloat 0.5)
     = Web.VFloat 0.5
  /\ dict_get (Web.news_dict item) (u "id") (Web.VInt 0) = Web.VInt 0
  /\ dict_get (Web.news_dict item) (u "title") (Web.VStr [])
     = Web.VStr (title item).
Proof.
  repeat split; vm_compute; reflexivity.
Qed.

Lemma badge_of_default :
  Web.get_importance_badge (Web.VFloat 0.5) = Returned Web.badge_low.
Proof. vm_compute. reflexivity. Qed.

Lemma color_of_text (category : str) :
  exists color,
    Web.get_category_color lower (Web.VStr category) = Returned color.
Proof.
  unfold Web.get_category_color.
  destruct category as [|c category]; cbn [Web.falsy]; eexists; reflexivity.
Qed.

Lemma format_news_of_row (row : news_row) :
  exists f,
    format_news lower format_datetime (Web.news_dict (item_of_row row))
    = Returned f
    /\ Web.f_title f = Web.VStr (n_title row)
    /\ Web.f_category f = Web.VStr (n_category row)
    /\ Web.get_category_color lower (Web.VStr (n_category row))
       = Returned (Web.f_category_color f)
    /\ Web.f_published f = format_datetime (Web.VStr (n_published row))
    /\ Web.f_id f = Web.VInt 0
    /\ Web.f_importance f = Web.VFloat 0.5
    /\ Web.f_importance_badge f = Web.badge_low.
Proof.
  destruct (news_dict_lookups (item_of_row row)) as (Hc & Hp & Hi & Hid & Ht).
  cbn [item_of_row category published title] in Hc, Hp, Ht.
  destruct (color_of_text (n_category row)) as [color Hcolor].
  unfold format_news.
  rewrite Hc.
  rewrite Hp, Hi, Hid, Ht.
  rewrite Hcolor, badge_of_default.
  eexists. split; [reflexivity|].
  cbn [Web.f_title Web.f_category Web.f_category_color Web.f_published
       Web.f_id Web.f_importance Web.f_importance_badge].
  do 6 (split; [reflexivity|]). reflexivity.
Qed.

Lemma format_all_of_rows (rows : list news_row) :
  exists formatted,
    format_all lower format_datetime
      (map Web.news_dict (map item_of_row rows)) = Returned formatted
    /\ Forall2
         (fun row f =>
            Web.f_title f = Web.VStr (n_title row)
            /\ Web.f_category f = Web.VStr (n_category row)
            /\ Web.get_category_color lower (Web.VStr (n_category row))
               = Returned (Web.f_category_color f)
            /\ Web.f_published f = format_datetime (Web.VStr (n_published row))
            /\ Web.f_id f = Web.VInt 0
            /\ Web.f_importance f = Web.VFloat 0.5
            /\ Web.f_importance_badge f = Web.badge_low)
         rows formatted.
Proof.
  induction rows as [|row rows (formatted & Hrest & Hall)]; cbn [map format_all].
  - exists []. split; [reflexivity|constructor].
  - destruct (format_news_of_row row) as (f & -> & Hf).
    rewrite Hrest. exists (f :: formatted). split; [reflexivity|].
    constructor; [exact Hf|exact Hall].
Qed.

(** X18 ([api_search] of app.py over [search_news]). With an agent the web
    search never answers with an error: it gives one formatted result for
    each row the search returns, in the same order, with the title, the
    category and the colour of the category of the row, and it writes
    nothing. But the dicts of [search_news] have no key "id" and no key
    "importance", so every result has the id 0, the importance 0.5 and the
    badge of a low importance, whatever the row holds. For a requested limit
    that is not negative there are at most 50 results, and for one below
    -2^63, which the search cannot bind, there is none. *)
Theorem api_search_results_defaults (q : str) (requested_limit : Z)
    (w : world) :
  exists rows formatted,
    api_search lower q requested_limit w = (Returned (map item_of_row rows), w)
    /\ (forall r, In r rows -> In r (news (db w)))
    /\ api_search_results lower format_datetime q requested_limit w
       = (Returned
            (Web.SearchResults q formatted (Z.of_nat (List.length formatted))),
          w)
    /\ Forall2
         (fun row f =>
            Web.f_title f = Web.VStr (n_title row)
            /\ Web.f_category f = Web.VStr (n_category row)
            /\ Web.get_category_color lower (Web.VStr (n_category row))
               = Returned (Web.f_category_color f)
            /\ Web.f_published f = format_datetime (Web.VStr (n_published row))
            /\ Web.f_id f = Web.VInt 0
            /\ Web.f_importance f = Web.VFloat 0.5
            /\ Web.f_importance_badge f = Web.badge_low)
         rows formatted
    /\ (0 <= requested_limit -> Z.of_nat (List.length formatted) <= 50)
    /\ (requested_limit < - 2 ^ 63 -> formatted = []).
Proof.
  set (rows :=
         rows_or_none
           (Sql.search (search_pattern (lower q)) (Z.min requested_limit 50)
              (db w))).
  destruct (format_all_of_rows rows) as (formatted & Hformat & Hall).
  assert (Hsearch :
    api_search lower q requested_limit w = (Returned (map item_of_row rows), w)).
  { unfold api_search. now rewrite search_news_returns. }
  exists rows, formatted.
  split; [exact Hsearch|]. split; [intros r; apply search_rows|].
  split; [|split; [exact Hall|split]].
  - unfold api_search_results, try_except, bind.
    rewrite Hsearch, Hformat. reflexivity.
  - intro Hlimit. rewrite <- (Forall2_length Hall).
    etransitivity; [apply search_rows; lia|]. lia.
  - intro Hlow.
    assert (Hrows : rows = []).
    { unfold rows. rewrite search_overflow; [reflexivity|].
      unfold Sql.is_int64. apply andb_false_iff. left. apply Z.leb_gt. lia. }
    rewrite Hrows in Hall. now inversion Hall.
Qed.

(** X19 ([get_category_color] of app.py on the result of
    [_categorize_text]). When [lower] leaves the names of the categories as
    they are, the colour of a category the classifier gives is the one the
    colour table has for that very name: the search for a key inside the
    name finds no other key first. The colour is "secondary" only for the
    default category. *)
Theorem classified_category_color (text : str) :
  (forall c, In c (default_category :: map fst categories) -> lower c = c) ->
  let category := _categorize_text lower text in
  Web.get_category_color lower (Web.VStr category)
  = Returned (dict_get Web.colors category (u "secondary"))
  /\ (Web.get_category_color lower (Web.VStr category)
      = Returned (u "secondary")
      <-> category = default_category).
Proof.
  intros Hfix category.
  assert (Hin : In category (default_category :: map fst categories)).
  { destruct (categorize_in_table lower text) as [H|H];
      [left; symmetry; exact H|right; exact H]. }
  clearbody category.
  pose proof (Hfix category Hin) as Hlower.
  cbn [map fst categories In] in Hin.
  unfold Web.get_category_color.
  destruct Hin as [<-|[<-|[<-|[<-|[<-|[<-|[]]]]]]];
    rewrite Hlower; vm_compute;
    (split; [reflexivity|]); split; (reflexivity || discriminate).
Qed.

(** X20 ([get_category_color] and [get_importance_badge] of app.py). The
    colour raises exactly for a number that is not zero, which has no
    [lower]; None, the empty str and zero get "secondary". The badge raises
    exactly for a str; None gets the badge of 0.5, the low one, and an int
    never gets the middle badge: it gets the high one from 1 on and the low
    one below. *)
Theorem color_and_badge_errors (category importance : Web.value) :
  ((exists e, Web.get_category_color lower category = Raised e)
   <-> match category with
       | Web.VInt n => n <> 0
       | Web.VFloat x => (x =? 0)%float = false
       | _ => False
       end)
  /\ (Web.falsy category = true ->
      Web.get_category_color lower category = Returned (u "secondary"))
  /\ ((exists e, Web.get_importance_badge importance = Raised e)
      <-> exists s, importance = Web.VStr s)
  /\ Web.get_importance_badge Web.VNone = Returned Web.badge_low
  /\ (forall n,
        Web.get_importance_badge (Web.VInt n)
        = Returned (if 1 <=? n then Web.badge_high else Web.badge_low)).
Proof.
  split; [|split; [|split; [|split]]].
  - unfold Web.get_category_color.
    destruct category as [|[|c s]|n|x]; cbn [Web.falsy].
    + split; [intros [e He]; discriminate He|contradiction].
    + split; [intros [e He]; discriminate He|contradiction].
    + split; [intros [e He]; discriminate He|contradiction].
    + destruct (Z.eqb_spec n 0) as [->|Hne].
      * split; [intros [e He]; discriminate He|congruence].
      * split; [intros _; exact Hne|intros _; eexists; reflexivity].
    + destruct (x =? 0)%float.
      * split; [intros [e He]; discriminate He|discriminate].
      * split; [reflexivity|intros _; eexists; reflexivity].
  - unfold Web.get_category_color. intros ->. reflexivity.
  - destruct importance as [|s|n|x].
    + split; [intros [e He]; vm_compute in He; discriminate He|].
      intros [s Hs]. discriminate Hs.
    + split; [intros _; now exists s|intros _; eexists; reflexivity].
    + split; [|intros [s Hs]; discriminate Hs].
      intros [e He]. unfold Web.get_importance_badge, Web.at_least in He.
      destruct (1 <=? n); discriminate He.
    + split; [|intros [s Hs]; discriminate Hs].
      intros [e He]. unfold Web.get_importance_badge, Web.at_least in He.
      destruct (0.8 <=? x)%float; [discriminate He|].
      destruct (0.6 <=? x)%float; discriminate He.
  - vm_compute. reflexivity.
  - intro n. unfold Web.get_importance_badge, Web.at_least.
    destruct (1 <=? n); reflexivity.
Qed.

End WebResults.

(* ================================================================== *)
(** * Further runs on examples *)

Lemma call_llm_failure_gives_error_text_witness :
  let w := example_world empty_database in
  (forall response,
     example_ollama (List.length (llm_requests w)) (u "Привет") 50
     <> HttpResponse 200 response)
  /\ exists text w',
       call_llm example_ollama (u "Привет") 50 w = (Returned text, w')
       /\ is_error_text text = true.
Proof.
  intro w.
  assert (Hfail : forall response,
            example_ollama (List.length (llm_requests w)) (u "Привет") 50
            <> HttpResponse 200 response) by (intro response; discriminate).
  split; [exact Hfail|].
  destruct (@call_llm_failure_gives_error_text example_ollama (u "Привет") 50 w)
    as (text & Hrun & Herror).
  exists text. eexists. split; [exact Hrun|exact (Herror Hfail)].
Defined.

Lemma call_llm_answer_is_clean_witness :
  let w := example_world empty_database in
  answering_ollama (List.length (llm_requests w)) (u "Привет") 50
  = HttpResponse 200 (Some example_answer)
  /\ exists text w',
       call_llm answering_ollama (u "Привет") 50 w = (Returned text, w')
       /\ space_at_ends text = false
       /\ has_blank_line text = false.
Proof.
  intro w. split; [reflexivity|].
  destruct (@call_llm_answer_is_clean answering_ollama (u "Привет") 50 w
              (Some example_answer) eq_refl)
    as (text & w' & Hrun & Hends & Hblank & _).
  exists text, w'. split; [exact Hrun|]. split; [exact Hends|exact Hblank].
Defined.

Lemma extract_keywords_shape_witness :
  let w := example_world empty_database in
  len (u "Короткий текст") < 20 /\ 0 <= 5
  /\ extract_keywords answering_ollama (u "Короткий текст") 5 w
     = (Returned [], w)
  /\ exists keywords w',
       extract_keywords answering_ollama sixty_characters 5 w
       = (Returned keywords, w')
       /\ Z.of_nat (List.length keywords) <= 5.
Proof.
  intro w.
  assert (Hshort : len (u "Короткий текст") < 20) by (vm_compute; reflexivity).
  split; [exact Hshort|]. split; [lia|]. split.
  - destruct (@extract_keywords_shape answering_ollama (u "Короткий текст") 5 w)
      as (keywords & w' & Hrun & _ & Hnone & _).
    destruct (Hnone Hshort) as [Hk Hw]. rewrite Hrun, Hk, Hw. reflexivity.
  - destruct (@extract_keywords_shape answering_ollama sixty_characters 5 w)
      as (keywords & w' & Hrun & _ & _ & _ & _ & Hmax).
    exists keywords, w'. split; [exact Hrun|]. apply Hmax. lia.
Defined.

Lemma summarize_text_bounded_witness :
  let w := example_world empty_database in
  50 <= len sixty_characters /\ 0 <= 150
  /\ exists summary w',
       summarize_text answering_ollama sixty_characters 150 w
       = (Returned summary, w')
       /\ len summary <= 150.
Proof.
  intro w.
  assert (Hlong : 50 <= len sixty_characters) by (vm_compute; discriminate).
  split; [exact Hlong|]. split; [lia|].
  destruct (@summarize_text_bounded answering_ollama sixty_characters 150 w)
    as (summary & w' & Hrun & _ & [(Hshort & _)|(_ & Hbound & _)]).
  - exfalso. lia.
  - exists summary, w'. split; [exact Hrun|]. apply Hbound. lia.
Defined.

Lemma stats_statement_replaces_row_witness :
  let d :=
    example_database []
      [ {| s_date := u "2024-04-30"; s_news_collected := 7;
           s_news_analyzed := 5; s_analyses_made := 1 |};
        {| s_date := u "2024-05-01"; s_news_collected := 3;
           s_news_analyzed := 2; s_analyses_made := 1 |} ] in
  let d' := Sql.insert_or_replace_stats NewsAnalyzed (u "2024-05-01") 2 d in
  u "2024-04-30" <> u "2024-05-01"
  /\ NoDup (map s_date (stats d))
  /\ Sql.select_counter NewsAnalyzed (u "2024-05-01") d' = 4
  /\ Sql.select_counter NewsCollected (u "2024-05-01") d' = 0
  /\ Sql.select_counter NewsCollected (u "2024-04-30") d' = 7
  /\ NoDup (map s_date (stats d')).
Proof.
  intros d d'.
  assert (Hother : u "2024-04-30" <> u "2024-05-01")
    by (vm_compute; discriminate).
  assert (Hnodup : NoDup (map s_date (stats d))).
  { repeat constructor; vm_compute; intuition discriminate. }
  destruct (stats_statement_replaces_row NewsAnalyzed (u "2024-05-01") 2 d)
    as (Hday & Hdays & Hdates & _).
  split; [exact Hother|]. split; [exact Hnodup|].
  split; [exact (Hday NewsAnalyzed)|].
  split; [exact (Hday NewsCollected)|].
  split; [exact (Hdays (u "2024-04-30") NewsCollected Hother)|].
  exact (Hdates Hnodup).
Defined.

Lemma collect_skips_equal_concatenation_witness :
  let e1 := example_entry (u "https://tass.ru/1") (u "Новость дня") in
  let e2 := example_entry (u "https://tass.ru/") (u "1Новость дня") in
  let w :=
    example_world
      (example_database
         [example_row 1 (u "https://tass.ru/1Новость дня") 0.8%float
            (u "Wed, 01 May 2024") None] []) in
  e_link e1 <> e_link e2
  /\ get_or (e_link e1) [] ++ get_or (e_title e1) []
     = get_or (e_link e2) [] ++ get_or (e_title e2) []
  /\ stored (article_hash example_hash e1) (db w)
  /\ collect_entry lower_latin_cyrillic example_hash example_clock (u "ТАСС")
       e2 w = (Returned false, w).
Proof.
  intros e1 e2 w.
  assert (Hsame : get_or (e_link e1) [] ++ get_or (e_title e1) []
                  = get_or (e_link e2) [] ++ get_or (e_title e2) [])
    by (vm_compute; reflexivity).
  assert (Hstored : stored (article_hash example_hash e1) (db w))
    by (left; vm_compute; reflexivity).
  split; [vm_compute; discriminate|]. split; [exact Hsame|].
  split; [exact Hstored|].
  exact (@collect_skips_equal_concatenation lower_latin_cyrillic example_hash
           example_clock (u "ТАСС") e1 e2 w Hsame Hstored).
Defined.

Lemma search_news_empty_query_matches_all_witness :
  let rows := [ example_row 1 (u "AI news") 0.7%float (u "2024-05-01") None;
                example_row 2 (u "курс рубля") 0.8%float (u "2024-05-02") None ] in
  let w := example_world (example_database rows []) in
  lower_latin_cyrillic [] = [] /\ Sql.is_int64 (-1) = true
  /\ exists found,
       search_news lower_latin_cyrillic [] (-1) w
       = (Returned (map item_of_row found), w)
       /\ Permutation found rows.
Proof.
  intros rows w. split; [reflexivity|]. split; [reflexivity|].
  destruct (@search_news_empty_query_matches_all lower_latin_cyrillic (-1) w
              eq_refl) as [_ Hall].
  destruct (Hall eq_refl) as (found & cut & Hrun & _ & Hperm & _ & _ & Hcut).
  exists found. split; [exact Hrun|].
  rewrite (Hcut ltac:(left; lia)), app_nil_r in Hperm. exact Hperm.
Defined.

Lemma reachable_rows_well_formed_witness :
  exists w,
    reachable lower_latin_cyrillic example_hash example_clock example_ollama w
    /\ news (db w) <> []
    /\ Forall (fun r => in_unit_interval (n_importance r)) (news (db w)).
Proof.
  destruct (@collect_news_effect lower_latin_cyrillic example_hash example_clock
              rss_sources example_feed 3 initial_world)
    as (added & today & w1 & Hrun & _ & _ & _ & _ & _ & _ & Hstored & _).
  assert (Hreach : reachable lower_latin_cyrillic example_hash example_clock
                     example_ollama w1).
  { eapply reachable_collect; [apply reachable_initial|exact Hrun]. }
  exists w1. split; [exact Hreach|]. split.
  - intro Hempty.
    assert (Hin : stored
                    (article_hash example_hash
                       (example_entry (u "https://tass.ru/1") (u "Новость дня")))
                    (db w1)).
    { apply (Hstored (u "https://tass.ru/rss/v2.xml", u "ТАСС")).
      - right. right. left. reflexivity.
      - exists [example_entry (u "https://tass.ru/1") (u "Новость дня")].
        split; [vm_compute; reflexivity|]. left. reflexivity. }
    unfold stored in Hin. rewrite Hempty in Hin. exact Hin.
  - destruct (@reachable_rows_well_formed lower_latin_cyrillic example_hash
                example_clock example_ollama w1 Hreach) as [_ Hrows].
    eapply Forall_impl; [|exact Hrows]. intros r (_ & Hunit & _). exact Hunit.
Defined.


Lemma enrichment_of_all_leaves_none_witness :
  let rows := [ example_row 1 (u "Первая") 0.5%float (u "2024-05-01") None;
                example_row 2 (u "Вторая") 0.8%float (u "2024-05-02")
                  (Some (u "2024-05-02T12:00:00"));
                example_row 3 (u "Третья") 0.8%float (u "2024-05-03") None ] in
  let w := example_world (example_database rows []) in
  Sql.is_int64 (-1) = true /\ news_constraints (db w)
  /\ exists w',
       analyze_news_articles example_clock example_ollama (-1) w
       = (Returned 2, w')
       /\ Forall (fun r => n_analyzed_at r <> None) (news (db w')).
Proof.
  intros rows w.
  assert (Hc : news_constraints (db w)).
  { split; [|split].
    - repeat constructor; simpl; intuition discriminate.
    - repeat constructor; vm_compute; intuition discriminate.
    - repeat constructor; simpl; discriminate. }
  split; [reflexivity|]. split; [exact Hc|].
  destruct (@enrichment_of_all_leaves_none example_clock example_ollama (-1) w
              eq_refl Hc ltac:(left; lia)) as (w' & Hrun & Hall & _).
  exists w'. split; [exact Hrun|exact Hall].
Defined.

Lemma enrichment_stores_error_text_witness :
  let article :=
    example_row 1 sixty_characters 0.5%float (u "2024-05-01") None in
  let w := example_world (example_database [article] []) in
  (forall n prompt max_tokens, example_ollama n prompt max_tokens = HttpTimeout)
  /\ 50 <= len (n_title article ++ u ". " ++ n_content article)
  /\ exists w',
       analyze_article example_clock example_ollama article w = (Returned tt, w')
       /\ map n_summary (news (db w')) = [Some (u "[Ошибка: Таймаут]")].
Proof.
  intros article w.
  assert (Hlong : 50 <= len (n_title article ++ u ". " ++ n_content article))
    by (vm_compute; discriminate).
  split; [reflexivity|]. split; [exact Hlong|].
  destruct (@enrichment_stores_error_text example_clock example_ollama article w
              (fun _ _ _ => eq_refl) Hlong) as (analyzed_at & w' & Hrun & Hnews).
  exists w'. split; [exact Hrun|]. rewrite Hnews.
  vm_compute. reflexivity.
Defined.

Lemma check_ollama_choice_witness :
  let listed := [ Some (u "mistral:7b"); Some (u "qwen2:7b");
                  Some (u "phi3:mini"); Some (u "llama3.1:70b") ] in
  ~ In (u "llama3.1:8b") (map (fun m => get_or m []) listed)
  /\ contains llama_family
       (lower_latin_cyrillic
          (join (u ", ") (slice_to 3 (map (fun m => get_or m []) listed))))
     = false
  /\ _check_ollama lower_latin_cyrillic (u "llama3.1:8b")
       (TagsResponse 200 listed) = Proceeds (u "mistral:7b").
Proof.
  intro listed.
  assert (Hnot : ~ In (u "llama3.1:8b") (map (fun m => get_or m []) listed)).
  { intro Hin. vm_compute in Hin.
    repeat (destruct Hin as [Hin|Hin]; [discriminate Hin|]). exact Hin. }
  assert (Hfamily :
    contains llama_family
      (lower_latin_cyrillic
         (join (u ", ") (slice_to 3 (map (fun m => get_or m []) listed))))
    = false) by (vm_compute; reflexivity).
  split; [exact Hnot|]. split; [exact Hfamily|].
  destruct (check_ollama_choice lower_latin_cyrillic (u "llama3.1:8b")
              (TagsResponse 200 listed))
    as (chosen & Hrun & _ & _ & _ & Hfirst).
  rewrite Hrun. f_equal.
  exact (Hfirst eq_refl Hnot Hfamily _ _ eq_refl).
Defined.

Lemma statistics_counts_witness :
  let w := example_world empty_database in
  news (db w) = []
  /\ exists r w',
       get_statistics example_clock (u "llama3.1:8b") None w = (Returned r, w')
       /\ Report.analysis_coverage (Report.report_statistics r) = u "0%".
Proof.
  intro w. split; [reflexivity|].
  destruct (statistics_counts example_clock (u "llama3.1:8b") None w)
    as (r & w' & Hrun & _ & _ & _ & _ & Hfigures).
  exists r, w'. split; [exact Hrun|].
  cbv zeta in Hfigures.
  destruct Hfigures as (_ & _ & _ & _ & _ & _ & _ & Hempty).
  exact (proj1 (Hempty eq_refl)).
Defined.

Lemma api_search_results_defaults_witness :
  let w := example_world (example_database sixty_rows []) in
  0 <= 100
  /\ exists formatted,
       api_search_results lower_latin_cyrillic (fun t => Web.type_name t)
         (u "a") 100 w
       = (Returned
            (Web.SearchResults (u "a") formatted
               (Z.of_nat (List.length formatted))),
          w)
       /\ Z.of_nat (List.length formatted) <= 50.
Proof.
  intro w. split; [lia|].
  destruct (api_search_results_defaults lower_latin_cyrillic
              (fun t => Web.type_name t) (u "a") 100 w)
    as (rows & formatted & _ & _ & Hrun & _ & Hbound & _).
  exists formatted. split; [exact Hrun|]. apply Hbound. lia.
Defined.

Lemma classified_category_color_witness :
  (forall c, In c (default_category :: map fst categories) ->
             lower_latin_cyrillic c = c)
  /\ Web.get_category_color lower_latin_cyrillic
       (Web.VStr (_categorize_text lower_latin_cyrillic
                    (u "Рубль и доллар на бирже")))
     = Returned (u "warning").
Proof.
  assert (Hfix : forall c, In c (default_category :: map fst categories) ->
                           lower_latin_cyrillic c = c).
  { intros c Hc. cbn [map fst categories In] in Hc.
    destruct Hc as [<-|[<-|[<-|[<-|[<-|[<-|[]]]]]]]; vm_compute; reflexivity. }
  split; [exact Hfix|].
  destruct (classified_category_color lower_latin_cyrillic
              (u "Рубль и доллар на бирже") Hfix) as [Hcolor _].
  rewrite Hcolor. vm_compute. reflexivity.
Defined.
